(** * micarray: the capture ring buffer, the downmix, the localizer,
      the spectral-subtraction denoiser, the stereo panner, the
      configuration reader and the driver

    A shallow embedding of the processing core of [libmicarray]
    ([src/i2s.c], [src/libmicarray.c], [src/localization.c],
    [src/noise_reduction.c], [src/audio_output.c], [src/config.c]) with the
    properties the specification states about it (C1, C2, ...) and further
    properties of the code (X1, X2, ...).

    Conventions.
    - C integers are [Z]; every conversion to a fixed-width type is written
      out ([to_int16], [to_int32], [to_size_t]); integer division is C's
      truncating division [Z.quot].
    - C arrays are lists, read with [nth] and written with [upd]; a store
      outside the array (undefined in C) leaves the list as it is.
    - [float] arithmetic goes through the interface [FloatOps]; the module
      [Exact] instantiates it with the real numbers. The numbers that the
      C library reads from text are binary32 values ([Binary32]).

    The first part holds the definitions, module by module as the sources
    are laid out; the second part, from [Properties] on, holds the lemmas
    and theorems, in modules named after the module they are about. *)

From Stdlib Require Import ZArith List Lia Bool.
From Stdlib Require String Ascii.
From Stdlib Require SpecFloat.
Import String.StringSyntax.
Delimit Scope string_scope with string.
From Stdlib Require Import Reals Lra Psatz.
Import ListNotations.

Local Open Scope Z_scope.

(** ** Machine integers *)

Module CInt.

Definition wrap_unsigned (w x : Z) : Z := x mod 2 ^ w.

Definition wrap_signed (w x : Z) : Z :=
  (x + 2 ^ (w - 1)) mod 2 ^ w - 2 ^ (w - 1).

Definition to_int16 : Z -> Z := wrap_signed 16.
Definition to_int32 : Z -> Z := wrap_signed 32.
Definition to_size_t : Z -> Z := wrap_unsigned 64.

Definition INT16_MIN : Z := -32768.
Definition INT16_MAX : Z := 32767.
Definition INT_MAX : Z := 2147483647.

End CInt.

Import CInt.

(** ** Arrays *)

Fixpoint upd {A : Type} (i : nat) (v : A) (l : list A) : list A :=
  match l, i with
  | [], _ => []
  | _ :: t, O => v :: t
  | h :: t, S i' => h :: upd i' v t
  end.

(** ** The downmix of the processing loop ([src/libmicarray.c]) *)

Module Downmix.

(** [memset(ctx->processed_buffer, 0, buffer_size * sizeof(int16_t))]. *)
Definition memset0 (n : nat) (l : list Z) : list Z :=
  repeat 0 (Nat.min n (length l)) ++ skipn n l.

(** One execution of the inner loop body:
    [int32_t sum = processed_buffer[j] + mic_buffers[i][j];
     processed_buffer[j] = (int16_t)(sum / num_microphones);] *)
Definition downmix_body (num_microphones : Z) (processed lane : list Z) (j : nat)
  : list Z :=
  let sum := to_int32 (nth j processed 0 + nth j lane 0) in
  upd j (to_int16 (Z.quot sum num_microphones)) processed.

(** [for (size_t j = 0; j < buffer_size; j++)]. *)
Definition downmix_lane (num_microphones : Z) (buffer_size : nat)
  (processed lane : list Z) : list Z :=
  fold_left (fun p j => downmix_body num_microphones p lane j)
            (seq 0 buffer_size) processed.

(** The whole block: the [memset] and the two nested loops. *)
Definition downmix (num_microphones : Z) (buffer_size : nat)
  (mic_buffers : list (list Z)) (processed_buffer : list Z) : list Z :=
  fold_left (fun p i => downmix_lane num_microphones buffer_size p (nth i mic_buffers []))
            (seq 0 (Z.to_nat num_microphones))
            (memset0 buffer_size processed_buffer).

(** The arithmetic mean of the spec: [(lane_0[j] + ... + lane_{M-1}[j]) / M]. *)
Definition lane_sum (mic_buffers : list (list Z)) (j : nat) : Z :=
  fold_left (fun s lane => s + nth j lane 0) mic_buffers 0.

Definition mean_at (num_microphones : Z) (mic_buffers : list (list Z)) (j : nat) : Z :=
  Z.quot (lane_sum (firstn (Z.to_nat num_microphones) mic_buffers) j) num_microphones.

(** What the loop leaves in slot [j]: the running value is divided by [M]
    after every lane, not once at the end. *)
Definition running_quotient (num_microphones : Z) (mic_buffers : list (list Z))
  (j : nat) : Z :=
  fold_left (fun acc i =>
               to_int16 (Z.quot (to_int32 (acc + nth j (nth i mic_buffers []) 0))
                                num_microphones))
            (seq 0 (Z.to_nat num_microphones)) 0.

End Downmix.

(** ** The capture ring buffer ([src/i2s.c]) *)

Module I2S.

Record i2s_context : Type := mk_i2s {
  ring_buffer : list Z;
  ring_buffer_size : Z;
  write_pos : Z;
  read_pos : Z;
  available_samples : Z
}.

(** [i2s_init]: [ring_buffer_size = config->buffer_size * 4] and a zeroed
    ring of that many samples ([calloc]). The device handle and the mutex
    are outside the model. *)
Definition i2s_init (buffer_size : Z) : i2s_context :=
  let size := to_size_t (to_int32 (buffer_size * 4)) in
  {| ring_buffer := repeat 0 (Z.to_nat size);
     ring_buffer_size := size;
     write_pos := 0; read_pos := 0; available_samples := 0 |}.

(** [i2s_start]: the three counters are reset. *)
Definition i2s_start (ctx : i2s_context) : i2s_context :=
  {| ring_buffer := ring_buffer ctx;
     ring_buffer_size := ring_buffer_size ctx;
     write_pos := 0; read_pos := 0; available_samples := 0 |}.

(** The body of the push loop of [i2s_read_thread]:
    [ring_buffer[write_pos] = temp_buffer[i];
     write_pos = (write_pos + 1) % ring_buffer_size; available_samples++;] *)
Definition push_sample (x : Z) (ctx : i2s_context) : i2s_context :=
  {| ring_buffer := upd (Z.to_nat (write_pos ctx)) x (ring_buffer ctx);
     ring_buffer_size := ring_buffer_size ctx;
     write_pos := to_size_t (write_pos ctx + 1) mod ring_buffer_size ctx;
     read_pos := read_pos ctx;
     available_samples := to_size_t (available_samples ctx + 1) |}.

(** The critical section of [i2s_read_thread]:
    [for (i = 0; i < samples_read && available_samples < ring_buffer_size; i++)].
    The loop stops at the first sample that finds the ring full. *)
Fixpoint ring_push (temp_buffer : list Z) (ctx : i2s_context) : i2s_context :=
  match temp_buffer with
  | [] => ctx
  | x :: rest =>
      if available_samples ctx <? ring_buffer_size ctx
      then ring_push rest (push_sample x ctx)
      else ctx
  end.

(** The body of the pop loop of [i2s_read_samples]:
    [buffer[i] = ring_buffer[read_pos];
     read_pos = (read_pos + 1) % ring_buffer_size; available_samples--;] *)
Definition pop_sample (i : nat) (st : list Z * i2s_context) : list Z * i2s_context :=
  let '(buffer, ctx) := st in
  (upd i (nth (Z.to_nat (read_pos ctx)) (ring_buffer ctx) 0) buffer,
   {| ring_buffer := ring_buffer ctx;
      ring_buffer_size := ring_buffer_size ctx;
      write_pos := write_pos ctx;
      read_pos := to_size_t (read_pos ctx + 1) mod ring_buffer_size ctx;
      available_samples := to_size_t (available_samples ctx - 1) |}).

(** [for (size_t i = 0; i < samples_to_read; i++)], started at index [i]. *)
Fixpoint read_loop (n i : nat) (st : list Z * i2s_context) : list Z * i2s_context :=
  match n with
  | O => st
  | S n' => read_loop n' (S i) (pop_sample i st)
  end.

(** [i2s_read_samples]: the returned [int], the caller's buffer and the
    context after the call. *)
Definition i2s_read_samples (ctx : i2s_context) (buffer : list Z) (samples : Z)
  : Z * list Z * i2s_context :=
  let samples_to_read :=
    if samples <? available_samples ctx then samples else available_samples ctx in
  let '(buffer', ctx') := read_loop (Z.to_nat samples_to_read) 0 (buffer, ctx) in
  (to_int32 samples_to_read, buffer', ctx').

(** [i2s_get_buffer_level]. *)
Definition i2s_get_buffer_level (ctx : i2s_context) : Z :=
  to_int32 (available_samples ctx).

(** The operations of the two threads on the ring. *)
Inductive ring_op : Type :=
| Push (temp_buffer : list Z)
| Pop (buffer : list Z) (samples : Z).

Definition ring_step (ctx : i2s_context) (op : ring_op) : i2s_context :=
  match op with
  | Push temp => ring_push temp ctx
  | Pop buffer samples => snd (i2s_read_samples ctx buffer samples)
  end.

(** The contexts after each operation of a run, in order. *)
Fixpoint ring_trace (ops : list ring_op) (ctx : i2s_context) : list i2s_context :=
  match ops with
  | [] => []
  | op :: rest => ring_step ctx op :: ring_trace rest (ring_step ctx op)
  end.

Definition ring_run (ops : list ring_op) (ctx : i2s_context) : i2s_context :=
  fold_left ring_step ops ctx.

(** What a run was given to push, and what it dropped: the samples of a
    chunk that the push loop did not store. *)
Definition accepted (temp : list Z) (ctx : i2s_context) : Z :=
  available_samples (ring_push temp ctx) - available_samples ctx.

Fixpoint dropped (chunks : list (list Z)) (ctx : i2s_context) : Z :=
  match chunks with
  | [] => 0
  | c :: rest =>
      (Z.of_nat (length c) - accepted c ctx) + dropped rest (ring_push c ctx)
  end.

(** The buffered samples, oldest first: the [available_samples] cells from
    [read_pos] on, around the ring. *)
Definition contents (ctx : i2s_context) : list Z :=
  map (fun k => nth (Z.to_nat ((read_pos ctx + Z.of_nat k) mod ring_buffer_size ctx))
                    (ring_buffer ctx) 0)
      (seq 0 (Z.to_nat (available_samples ctx))).

(** The state invariant of a ring that [i2s_init] made for a valid buffer size. *)
Record ring_ok (ctx : i2s_context) : Prop := mk_ring_ok {
  ok_size : 0 < ring_buffer_size ctx <= INT_MAX;
  ok_length : Z.of_nat (length (ring_buffer ctx)) = ring_buffer_size ctx;
  ok_read : 0 <= read_pos ctx < ring_buffer_size ctx;
  ok_avail : 0 <= available_samples ctx <= ring_buffer_size ctx;
  ok_write : write_pos ctx = (read_pos ctx + available_samples ctx) mod ring_buffer_size ctx
}.

(** What a run takes in and hands out: the samples that the push loops
    stored and the samples that the reads returned to their callers, each
    in the order of the run. *)
Fixpoint ring_io (ops : list ring_op) (ctx : i2s_context) : list Z * list Z :=
  match ops with
  | [] => ([], [])
  | Push temp :: rest =>
      let '(stored, returned) := ring_io rest (ring_push temp ctx) in
      (firstn (Z.to_nat (accepted temp ctx)) temp ++ stored, returned)
  | Pop buffer samples :: rest =>
      let '(ret, buffer', ctx') := i2s_read_samples ctx buffer samples in
      let '(stored, returned) := ring_io rest ctx' in
      (stored, firstn (Z.to_nat ret) buffer' ++ returned)
  end.

(** A read asks for no more samples than its buffer holds. *)
Definition pop_fits (op : ring_op) : Prop :=
  match op with
  | Push _ => True
  | Pop buffer samples => 0 <= samples <= Z.of_nat (length buffer)
  end.

End I2S.

(** ** Floating point *)

(** The operations of C's [float] that the sources use: arithmetic,
    comparison, the conversions from and to the integer types, and the
    [libm] functions. The embedded functions are written once against this
    interface, operation for operation as in the sources. *)
Class FloatOps (F : Type) : Type := {
  fadd : F -> F -> F;
  fsub : F -> F -> F;
  fmul : F -> F -> F;
  fdiv : F -> F -> F;
  fneg : F -> F;
  (** [a < b] *)
  flt : F -> F -> bool;
  (** conversion of an integer to [float] *)
  of_int : Z -> F;
  (** conversion of a [float] to an integer type, truncating toward zero;
      the caller wraps the result into the destination type *)
  to_int : F -> Z;
  sqrtf : F -> F;
  fabsf : F -> F;
  cosf : F -> F;
  sinf : F -> F;
  atan2f : F -> F -> F;
  fmaxf : F -> F -> F;
  fminf : F -> F -> F;
  M_PI : F
}.

Declare Scope float_scope.
Delimit Scope float_scope with flt.
Infix "+" := fadd : float_scope.
Infix "-" := fsub : float_scope.
Infix "*" := fmul : float_scope.
Infix "/" := fdiv : float_scope.
Notation "- x" := (fneg x) : float_scope.
Infix "<?" := flt : float_scope.

Section FloatLiterals.
Context {F : Type} {FO : FloatOps F}.

(** The decimal literal [m * 10^-k]: [lit 5 1] is [0.5f], [lit 1 10] is
    [1e-10f]. Both [m] and [10^k] are exact in binary32 for the literals of
    the sources, so the quotient is the literal's value there too. *)
Definition lit (m : Z) (k : nat) : F :=
  (of_int m / of_int (10 ^ Z.of_nat k))%flt.

(** [a > b], [(int16_t) x] and [(int) x]. C defines a conversion only when
    the integral part of [x] is a value of the destination type; outside it
    the embedding wraps. *)
Definition fgt (a b : F) : bool := (b <? a)%flt.
Definition cast_int16 (x : F) : Z := to_int16 (to_int x).
Definition cast_int (x : F) : Z := to_int32 (to_int x).
Definition cast_size_t (x : F) : Z := to_size_t (to_int x).

End FloatLiterals.

(** [a <= b]. In IEEE arithmetic this is not the negation of [b < a]
    (both are false when an operand is a NaN), so it is an operation of its
    own. *)
Class FloatLe (F : Type) : Type := { fle : F -> F -> bool }.

Section FloatOrder.
Context {F : Type} {FO : FloatOps F} {FL : FloatLe F}.
Local Open Scope float_scope.

(** A value that is a number: [x <= x] is false of a NaN and of nothing
    else. *)
Definition number (x : F) : Prop := fle x x = true.

(** What the bounds on the spectral gain use of the order of [float].
    Every line holds of IEEE arithmetic with its NaN, its infinities and its
    two zeros, and of the real numbers: [fmaxf] and [fminf] return one of
    their arguments, the one that is a number when the other is not; the
    product of a number with 1 is exact; a square root that is a number is
    not negative; and two products by one non-negative factor, when they
    are numbers, are rounded in the order of the other factors. *)
Record float_order : Prop := mk_float_order {
  one_is_number : number (of_int 1);
  fmaxf_picks : forall a b, fmaxf a b = a \/ fmaxf a b = b;
  fmaxf_above_right : forall a b, number b -> fle b (fmaxf a b) = true;
  fminf_picks : forall a b, fminf a b = a \/ fminf a b = b;
  fminf_below_left : forall a b, number a -> fle (fminf a b) a = true;
  fminf_below_right : forall a b, number b -> fle (fminf a b) b = true;
  fmul_one : forall m, number m -> m * of_int 1 = m;
  sqrtf_not_negative : forall x, number (sqrtf x) -> fle (of_int 0) (sqrtf x) = true;
  fmul_keeps_order :
    forall m a b, fle (of_int 0) m = true -> fle a b = true ->
                  number (m * a) -> number (m * b) -> fle (m * a) (m * b) = true
}.

End FloatOrder.
Arguments float_order F {FO FL}.

(** [sound_location_t] of [libmicarray.h]. *)
Record sound_location (F : Type) : Type := mk_location {
  loc_x : F;
  loc_y : F;
  loc_z : F;
  confidence : F
}.
Arguments mk_location {F}.
Arguments loc_x {F}.
Arguments loc_y {F}.
Arguments loc_z {F}.
Arguments confidence {F}.

Definition MICARRAY_SUCCESS : Z := 0.
Definition MICARRAY_ERROR_INVALID_PARAM : Z := -7.
Definition MICARRAY_ERROR_INIT : Z := -1.
Definition MICARRAY_ERROR_CONFIG : Z := -2.
Definition MICARRAY_ERROR_I2S : Z := -3.
Definition MICARRAY_ERROR_DMA : Z := -4.
Definition MICARRAY_ERROR_MEMORY : Z := -6.

(** *** Exact arithmetic *)

(** The real numbers as an instance of the interface: every operation is the
    mathematical one, without rounding, infinities or NaN. *)
Module Exact.

Local Open Scope R_scope.

Definition Rltb (a b : R) : bool := if Rlt_dec a b then true else false.

(** Truncation toward zero. *)
Definition Rtrunc (x : R) : Z :=
  if Rle_dec 0 x then Int_part x else (- Int_part (- x))%Z.

(** [atan2] with C's conventions: the result lies in (-PI, PI], and
    [atan2 (0, 0) = 0]. *)
Definition Ratan2 (y x : R) : R :=
  if Rlt_dec 0 x then atan (y / x)
  else if Rlt_dec x 0 then
         (if Rle_dec 0 y then atan (y / x) + PI else atan (y / x) - PI)
       else if Rlt_dec 0 y then PI / 2
            else if Rlt_dec y 0 then - (PI / 2) else 0.

#[export] Instance R_float : FloatOps R := {|
  fadd := Rplus; fsub := Rminus; fmul := Rmult; fdiv := Rdiv; fneg := Ropp;
  flt := Rltb;
  of_int := IZR; to_int := Rtrunc;
  sqrtf := sqrt; fabsf := Rabs; cosf := cos; sinf := sin;
  atan2f := Ratan2; fmaxf := Rmax; fminf := Rmin;
  M_PI := PI
|}.

Definition Rleb (a b : R) : bool := if Rle_dec a b then true else false.

#[export] Instance R_le : FloatLe R := {| fle := Rleb |}.

End Exact.

(** *** Binary32 values *)

(** The values of C's [float] as IEEE 754 binary32 numbers: 24 bits of
    precision, exponents up to 128, rounding to nearest with ties to even,
    two zeros, two infinities and NaN. *)
Module Binary32.

Import SpecFloat.

Definition prec : Z := 24.
Definition emax : Z := 128.

Definition binary32 : Type := spec_float.

(** [m * 2 ^ e] and [m * 10 ^ e], rounded once; beyond the largest value
    the result is an infinity. *)
Definition round_binary (negative : bool) (m e : Z) : binary32 :=
  binary_normalize prec emax (if negative then - m else m) e negative.

Definition round_decimal (negative : bool) (m e : Z) : binary32 :=
  if (0 <=? e) then round_binary negative (m * 10 ^ e) 0
  else match m with
       | Zpos p =>
           SFdiv prec emax (S754_finite negative p 0)
                 (S754_finite false (Z.to_pos (10 ^ (- e))) 0)
       | _ => S754_zero negative
       end.

Definition of_Z (z : Z) : binary32 := binary_normalize prec emax z 0 false.
Definition mul : binary32 -> binary32 -> binary32 := SFmul prec emax.
Definition sqrt : binary32 -> binary32 := SFsqrt prec emax.
Definition le (a b : binary32) : bool := SFleb a b.
Definition is_nan (a : binary32) : bool :=
  match a with S754_nan => true | _ => false end.

(** [fmaxf] and [fminf]: the other argument when one is a NaN. *)
Definition max (a b : binary32) : binary32 :=
  if is_nan a then b else if is_nan b then a else if SFltb a b then b else a.
Definition min (a b : binary32) : binary32 :=
  if is_nan a then b else if is_nan b then a else if SFltb b a then b else a.

Definition eqb (a b : binary32) : bool :=
  match a, b with
  | S754_nan, S754_nan => true
  | S754_zero s, S754_zero t => Bool.eqb s t
  | S754_infinity s, S754_infinity t => Bool.eqb s t
  | S754_finite s m e, S754_finite t n f => (Bool.eqb s t && Pos.eqb m n && Z.eqb e f)%bool
  | _, _ => false
  end.

(** The laws of [float_order], decided on a list of values. *)
Definition order_holds_on (values : list binary32) : bool :=
  let number a := le a a in
  let all1 (p : binary32 -> bool) := forallb p values in
  let all2 (p : binary32 -> binary32 -> bool) := all1 (fun a => all1 (p a)) in
  let all3 (p : binary32 -> binary32 -> binary32 -> bool) := all1 (fun a => all2 (p a)) in
  (number (of_Z 1)
   && all2 (fun a b => eqb (max a b) a || eqb (max a b) b)
   && all2 (fun a b => implb (number b) (le b (max a b)))
   && all2 (fun a b => eqb (min a b) a || eqb (min a b) b)
   && all2 (fun a b => implb (number a) (le (min a b) a))
   && all2 (fun a b => implb (number b) (le (min a b) b))
   && all1 (fun m => implb (number m) (eqb (mul m (of_Z 1)) m))
   && all1 (fun x => implb (number (sqrt x)) (le (of_Z 0) (sqrt x)))
   && all3 (fun m a b =>
              implb (le (of_Z 0) m && le a b && number (mul m a) && number (mul m b))
                    (le (mul m a) (mul m b))))%bool.

(** NaN, the zeros, the infinities, the smallest and the largest numbers,
    and some numbers between, among them [0.1f] and 7. *)
Definition sample_values : list binary32 :=
  [S754_nan; S754_zero false; S754_zero true; S754_infinity false; S754_infinity true;
   of_Z 1; of_Z (-1); round_decimal false 1 (-1); round_decimal true 1 (-1);
   of_Z 7; of_Z (-7); of_Z 3; round_decimal false 3333333333 (-10);
   S754_finite false 1 (-149); S754_finite true 1 (-149);
   S754_finite false 16777215 104; S754_finite true 16777215 104;
   round_decimal false 7 (-1); of_Z 2; of_Z 16777215; round_decimal false 5 (-2)].

End Binary32.

(** ** The localizer ([src/localization.c]) *)

Module Localization.

Definition MAX_DELAY_SAMPLES : Z := 1000.

Section WithFloat.
Context {F : Type} {FO : FloatOps F}.
Local Open Scope float_scope.

Record microphone_position : Type := mk_position {
  pos_x : F;
  pos_y : F;
  pos_z : F
}.

Record localization_config : Type := mk_config {
  num_microphones : Z;
  mic_spacing : F;
  sample_rate : Z;
  speed_of_sound : F;
  correlation_window_size : Z;
  min_confidence_threshold : F
}.

(** [struct localization_context]; the correlation buffers are allocated
    and never used. *)
Record localization_context : Type := mk_context {
  config : localization_config;
  mic_positions : list microphone_position;
  delay_estimates : list F;
  confidence_values : list F
}.

Definition origin (c : F) : sound_location F :=
  {| loc_x := of_int 0; loc_y := of_int 0; loc_z := of_int 0; confidence := c |}.

(** The body of the loop of [cross_correlate], on the accumulators
    [(correlation, norm1, norm2)]. [idx1] and [idx2] are [int]s computed
    from the [size_t] counter. *)
Definition correlate_body (sig1 sig2 : list Z) (len delay : Z)
  (acc : F * F * F) (i : Z) : F * F * F :=
  let '(correlation, norm1, norm2) := acc in
  let idx1 := to_int32 (if (0 <=? delay)%Z then i else to_size_t (i - delay)) in
  let idx2 := to_int32 (if (0 <=? delay)%Z then to_size_t (i + delay) else i) in
  if ((0 <=? idx1)%Z && (to_size_t idx1 <? len)%Z
      && (0 <=? idx2)%Z && (to_size_t idx2 <? len)%Z)%bool
  then
    let s1 := of_int (nth (Z.to_nat idx1) sig1 0%Z) / of_int 32768 in
    let s2 := of_int (nth (Z.to_nat idx2) sig2 0%Z) / of_int 32768 in
    (correlation + s1 * s2, norm1 + s1 * s1, norm2 + s2 * s2)
  else acc.

(** [for (size_t i = 0; i < len - abs(delay); i++)]: the bound is computed
    in [size_t]. *)
Definition correlate_sums (sig1 sig2 : list Z) (len delay : Z) : F * F * F :=
  fold_left (correlate_body sig1 sig2 len delay)
            (map Z.of_nat (seq 0 (Z.to_nat (to_size_t (len - Z.abs delay)))))
            (of_int 0, of_int 0, of_int 0).

Definition cross_correlate (sig1 sig2 : list Z) (len delay : Z) : F :=
  let '(correlation, norm1, norm2) := correlate_sums sig1 sig2 len delay in
  let denominator := sqrtf (norm1 * norm2) in
  if fgt denominator (of_int 0) then correlation / denominator else of_int 0.

(** The delays [-max_delay, ..., max_delay] of the two search loops. *)
Definition delay_range (max_delay : Z) : list Z :=
  map (fun k => (- max_delay + Z.of_nat k)%Z) (seq 0 (Z.to_nat (2 * max_delay + 1))).

(** [estimate_delay]: the state is [(max_correlation, best_delay)]. *)
Definition estimate_delay (ref_signal target_signal : list Z) (samples max_delay : Z) : F :=
  snd (fold_left
         (fun (st : F * F) delay =>
            let correlation := cross_correlate ref_signal target_signal samples delay in
            if fgt correlation (fst st) then (correlation, of_int delay) else st)
         (delay_range max_delay)
         (- of_int 1, of_int 0)).

(** The second search loop of [localization_process], which keeps the
    maximum only. *)
Definition peak_correlation (ref_signal target_signal : list Z) (samples max_delay : Z) : F :=
  fold_left
    (fun max_correlation delay =>
       let correlation := cross_correlate ref_signal target_signal samples delay in
       if fgt correlation max_correlation then correlation else max_correlation)
    (delay_range max_delay)
    (- of_int 1).

(** [for (i = 0; i < num_microphones; i++) avg += confidence_values[i];
     avg / num_microphones]. *)
Definition average_confidence (num_mics : Z) (confidences : list F) : F :=
  fold_left (fun avg i => avg + nth i confidences (of_int 0))
            (seq 0 (Z.to_nat num_mics)) (of_int 0)
  / of_int num_mics.

(** *** Trilateration *)

Definition matrix : Type := list (list F).

Definition A_get (A : matrix) (r c : nat) : F := nth c (nth r A []) (of_int 0).
Definition A_set (A : matrix) (r c : nat) (v : F) : matrix :=
  upd r (upd c v (nth r A [])) A.

(** The 3 x 4 array [A] before the first store. Its entries are read only
    once three equations have been stored. *)
Definition A_init : matrix := repeat (repeat (of_int 0) 4) 3.

Definition equation_row (ctx : localization_context) (delays : list F) (i : nat)
  : list F :=
  let p0 := nth 0 (mic_positions ctx) (mk_position (of_int 0) (of_int 0) (of_int 0)) in
  let pi := nth i (mic_positions ctx) (mk_position (of_int 0) (of_int 0) (of_int 0)) in
  let dx := pos_x pi - pos_x p0 in
  let dy := pos_y pi - pos_y p0 in
  let dz := pos_z pi - pos_z p0 in
  let distance_diff := nth i delays (of_int 0) * speed_of_sound (config ctx) in
  [ of_int 2 * dx; of_int 2 * dy; of_int 2 * dz;
    distance_diff * distance_diff - (dx * dx + dy * dy + dz * dz) ].

(** [for (i = 1; i < num_microphones && num_equations < 3; i++)]: the state
    is [(A, num_equations)]; once three equations are stored the remaining
    microphones are skipped. *)
Definition build_equations (ctx : localization_context) (delays : list F)
  : matrix * Z :=
  fold_left
    (fun (st : matrix * Z) i =>
       let '(A, num_equations) := st in
       if (num_equations <? 3)%Z
       then (upd (Z.to_nat num_equations) (equation_row ctx delays i) A,
             (num_equations + 1)%Z)
       else st)
    (seq 1 (Z.to_nat (num_microphones (config ctx) - 1)))
    (A_init, 0%Z).

(** Partial pivoting: the row of the largest [|A[j][i]|], [j >= i]. *)
Definition pivot_row (A : matrix) (i : nat) : nat :=
  fold_left (fun max_row j =>
               if fgt (fabsf (A_get A j i)) (fabsf (A_get A max_row i)) then j
               else max_row)
            (seq (S i) (3 - S i)) i.

(** The swap of rows [i] and [max_row], entry by entry for [k < 4]. *)
Definition swap_rows (A : matrix) (i max_row : nat) : matrix :=
  if Nat.eqb max_row i then A
  else fold_left (fun A' k =>
                    let temp := A_get A' i k in
                    A_set (A_set A' i k (A_get A' max_row k)) max_row k temp)
                 (seq 0 4) A.

(** [A[j][k] -= factor * A[i][k]] for [j > i], [k >= i]. *)
Definition eliminate (A : matrix) (i : nat) : matrix :=
  fold_left (fun A' j =>
               let factor := A_get A' j i / A_get A' i i in
               fold_left (fun A'' k =>
                            A_set A'' j k (A_get A'' j k - factor * A_get A'' i k))
                         (seq i (4 - i)) A')
            (seq (S i) (3 - S i)) A.

(** The pivot that step [i] tests, after the swap. *)
Definition pivot (A : matrix) (i : nat) : F :=
  A_get (swap_rows A i (pivot_row A i)) i i.

Definition pivot_small (A : matrix) (i : nat) : bool :=
  fabsf (pivot A i) <? lit 1 10.

(** One round of the elimination loop; [None] is the early return of
    [if (fabsf(A[i][i]) < 1e-10f)]. *)
Definition gauss_step (A : matrix) (i : nat) : option matrix :=
  if pivot_small A i then None
  else Some (eliminate (swap_rows A i (pivot_row A i)) i).

Fixpoint gauss_from (steps : list nat) (A : matrix) : option matrix :=
  match steps with
  | [] => Some A
  | i :: rest =>
      match gauss_step A i with
      | None => None
      | Some A' => gauss_from rest A'
      end
  end.

Definition gauss (A : matrix) : option matrix := gauss_from [0; 1; 2]%nat A.

(** Back substitution, [i = 2, 1, 0]. *)
Definition back_substitute (A : matrix) : F * F * F :=
  let x2 := A_get A 2 3 / A_get A 2 2 in
  let x1 := (A_get A 1 3 - A_get A 1 2 * x2) / A_get A 1 1 in
  let x0 := (A_get A 0 3 - A_get A 0 1 * x1 - A_get A 0 2 * x2) / A_get A 0 0 in
  (x0, x1, x2).

Definition trilaterate_3d (ctx : localization_context) (delays : list F)
  : sound_location F :=
  let '(A, num_equations) := build_equations ctx delays in
  if (num_equations <? 3)%Z then origin (of_int 0)
  else
    match gauss A with
    | None => origin (of_int 0)
    | Some A' =>
        let '(x0, x1, x2) := back_substitute A' in
        {| loc_x := x0; loc_y := x1; loc_z := x2;
           confidence := average_confidence (num_microphones (config ctx))
                                            (confidence_values ctx) |}
    end.

(** *** [localization_process] *)

(** [(int)(mic_spacing * 2.0f / speed_of_sound * sample_rate)], then
    [fminf(max_delay, MAX_DELAY_SAMPLES)] stored into the [int]. *)
Definition max_delay_of (cfg : localization_config) : Z :=
  let max_delay :=
    cast_int (mic_spacing cfg * of_int 2 / speed_of_sound cfg * of_int (sample_rate cfg)) in
  cast_int (fminf (of_int max_delay) (of_int MAX_DELAY_SAMPLES)).

(** The first loop: the delay and the confidence of every microphone
    against microphone 0. *)
Definition estimate_all (ctx : localization_context) (mic_data : list (list Z))
  (samples : Z) : localization_context :=
  let max_delay := max_delay_of (config ctx) in
  let reference_mic := nth 0 mic_data [] in
  fold_left
    (fun c i =>
       match i with
       | O => {| config := config c; mic_positions := mic_positions c;
                 delay_estimates := upd i (of_int 0) (delay_estimates c);
                 confidence_values := upd i (of_int 1) (confidence_values c) |}
       | S _ =>
           {| config := config c; mic_positions := mic_positions c;
              delay_estimates :=
                upd i (estimate_delay reference_mic (nth i mic_data []) samples max_delay)
                    (delay_estimates c);
              confidence_values :=
                upd i (peak_correlation reference_mic (nth i mic_data []) samples max_delay)
                    (confidence_values c) |}
       end)
    (seq 0 (Z.to_nat (num_microphones (config ctx)))) ctx.

(** [delay_estimates[i] /= sample_rate] for every microphone. *)
Definition delays_in_seconds (ctx : localization_context) : localization_context :=
  {| config := config ctx; mic_positions := mic_positions ctx;
     delay_estimates :=
       fold_left (fun d i => upd i (nth i d (of_int 0) / of_int (sample_rate (config ctx))) d)
                 (seq 0 (Z.to_nat (num_microphones (config ctx))))
                 (delay_estimates ctx);
     confidence_values := confidence_values ctx |}.

(** The confidence gate of a context whose estimates are up to date. *)
Definition below_threshold (ctx : localization_context) : bool :=
  average_confidence (num_microphones (config ctx)) (confidence_values ctx)
  <? min_confidence_threshold (config ctx).

(** [localization_process], for valid pointers: the return code, the
    context after the call and the location written. [samples] is a
    [size_t], compared with the [int] window size converted to [size_t]. *)
Definition localization_process (ctx : localization_context)
  (mic_data : list (list Z)) (samples : Z)
  : Z * localization_context * sound_location F :=
  if (samples <? to_size_t (correlation_window_size (config ctx)))%Z
  then (MICARRAY_SUCCESS, ctx, origin (of_int 0))
  else
    let ctx1 := estimate_all ctx mic_data samples in
    let avg_confidence :=
      average_confidence (num_microphones (config ctx1)) (confidence_values ctx1) in
    if below_threshold ctx1
    then (MICARRAY_SUCCESS, ctx1, origin avg_confidence)
    else
      let ctx2 := delays_in_seconds ctx1 in
      (MICARRAY_SUCCESS, ctx2, trilaterate_3d ctx2 (delay_estimates ctx2)).

(** *** Degenerate systems *)

(** The matrix at the start of round [i] of the elimination, when the
    rounds before it found no small pivot. *)
Definition stage (A : matrix) (i : nat) : option matrix := gauss_from (seq 0 i) A.

(** The two ways in which the system is degenerate: fewer than four
    microphones, or a round of the elimination whose pivot is below
    [1e-10]. *)
Definition degenerate (ctx : localization_context) (delays : list F) : Prop :=
  (num_microphones (config ctx) < 4)%Z \/
  exists i Ai, (i < 3)%nat /\
               stage (fst (build_equations ctx delays)) i = Some Ai /\
               pivot_small Ai i = true.

End WithFloat.

Arguments microphone_position F : clear implicits.
Arguments localization_config F : clear implicits.
Arguments localization_context F : clear implicits.
Arguments matrix F : clear implicits.

(** *** Initialization *)

Section Initialization.
Context {F : Type} {FO : FloatOps F} {FL : FloatLe F}.
Local Open Scope float_scope.

Definition DEFAULT_SPEED_OF_SOUND : F := of_int 343.

(** The position that [localization_init] gives microphone [i] when the
    configuration brings none: on a circle of radius [mic_spacing] in the
    plane [z = 0], at the angle [2.0f * M_PI * i / num_microphones]. *)
Definition default_position (cfg : localization_config F) (i : nat)
  : microphone_position F :=
  let angle := of_int 2 * M_PI * of_int (Z.of_nat i) / of_int (num_microphones cfg) in
  {| pos_x := mic_spacing cfg * cosf angle;
     pos_y := mic_spacing cfg * sinf angle;
     pos_z := of_int 0 |}.

(** [localization_init], for valid pointers and allocations that succeed.
    [positions] is [config->mic_positions] ([None] for a null pointer);
    [delays] and [confidences] stand for the two blocks that [malloc]
    returns, whose contents are not specified. *)
Definition localization_init (cfg : localization_config F)
  (positions : option (list (microphone_position F)))
  (delays confidences : list F) : localization_context F :=
  {| config :=
       if fle (speed_of_sound cfg) (of_int 0)
       then {| num_microphones := num_microphones cfg;
               mic_spacing := mic_spacing cfg;
               sample_rate := sample_rate cfg;
               speed_of_sound := DEFAULT_SPEED_OF_SOUND;
               correlation_window_size := correlation_window_size cfg;
               min_confidence_threshold := min_confidence_threshold cfg |}
       else cfg;
     mic_positions :=
       match positions with
       | Some given => firstn (Z.to_nat (num_microphones cfg)) given
       | None => map (default_position cfg) (seq 0 (Z.to_nat (num_microphones cfg)))
       end;
     delay_estimates := delays;
     confidence_values := confidences |}.

End Initialization.

(** *** Notions used in the statements *)

(** Microphones that all lie at one height. *)
Definition coplanar {F : Type} (ctx : localization_context F) : Prop :=
  exists z, Forall (fun p => pos_z p = z) (mic_positions ctx).

(** Blocks in which every sample of every microphone is zero. *)
Definition silent (mic_data : list (list Z)) : Prop :=
  forall i k, nth k (nth i mic_data []) 0%Z = 0%Z.

(** *** Sample inputs, in exact arithmetic *)

Import Exact.
Local Open Scope R_scope.

(** The configuration of [test_localization_mic_positions]: three
    microphones 10 mm apart, 16 kHz, a window of 1024 samples and a
    confidence threshold of 0.3. *)
Definition test_config : localization_config R :=
  {| num_microphones := 3;
     mic_spacing := 1 / 100;
     sample_rate := 16000;
     speed_of_sound := 343;
     correlation_window_size := 1024;
     min_confidence_threshold := 3 / 10 |}.

Definition test_context : localization_context R :=
  {| config := test_config;
     mic_positions := [ mk_position 0 0 0; mk_position (1 / 100) 0 0;
                        mk_position 0 (1 / 100) 0 ];
     delay_estimates := [0; 0; 0];
     confidence_values := [0; 0; 0] |}.

(** A block of 1024 samples that all hold [a]. *)
Definition constant_block (a : Z) : list Z := repeat a 1024.

(** Three microphones that all hear the same constant block, and three of
    which the second and third hear the reference inverted. *)
Definition aligned_data : list (list Z) :=
  [constant_block 16384; constant_block 16384; constant_block 16384].

Definition opposed_data : list (list Z) :=
  [constant_block 16384; constant_block (-16384); constant_block (-16384)].

(** The invariant of the accumulation loop: the Cauchy-Schwarz inequality
    for the terms summed so far. *)
Definition sums_ok (acc : R * R * R) : Prop :=
  let '(c, n1, n2) := acc in 0 <= n1 /\ 0 <= n2 /\ c * c <= n1 * n2.

(** Four microphones on a square of 10 mm in the plane [z = 0], and four
    blocks of silence. *)
Definition quad_config : localization_config R :=
  {| num_microphones := 4;
     mic_spacing := 1 / 100;
     sample_rate := 16000;
     speed_of_sound := 343;
     correlation_window_size := 1024;
     min_confidence_threshold := 3 / 10 |}.

Definition quad_context : localization_context R :=
  {| config := quad_config;
     mic_positions := [ mk_position 0 0 0; mk_position (1 / 100) 0 0;
                        mk_position 0 (1 / 100) 0; mk_position (1 / 100) (1 / 100) 0 ];
     delay_estimates := [0; 0; 0; 0];
     confidence_values := [0; 0; 0; 0] |}.

Definition silent_data : list (list Z) :=
  [constant_block 0; constant_block 0; constant_block 0; constant_block 0].

(** A system of three equations whose third column is zero: what the
    equations of microphones at one height look like. *)
Definition flat_row (r : list R) : Prop := exists a b c, r = [a; b; 0; c].

Definition flat (A : matrix R) : Prop :=
  exists r0 r1 r2, A = [r0; r1; r2] /\ flat_row r0 /\ flat_row r1 /\ flat_row r2.

End Localization.

(** ** The denoiser ([src/noise_reduction.c]) *)

(** The two FFTW plans that [noise_reduction_init] makes: the forward
    real-to-complex transform of [n] samples into [n/2 + 1] bins, and the
    unnormalized inverse. FFTW is an external library; the denoiser is
    written against these two functions. *)
Class FFTW (F : Type) : Type := {
  fftwf_r2c : Z -> list F -> list (F * F);
  fftwf_c2r : Z -> list (F * F) -> list F
}.

Module NoiseReduction.

Section WithFloat.
Context {F : Type} {FO : FloatOps F} {FT : FFTW F}.
Local Open Scope float_scope.

Record noise_reduction_config : Type := mk_config {
  algorithm : String.string;
  noise_threshold : F;
  frame_size : Z;
  overlap : Z;
  alpha : F;
  beta : F;
  sample_rate : Z
}.

(** [struct noise_reduction_context], without the [window] and
    [output_buffer] arrays, which the processing functions never read. *)
Record noise_reduction_context : Type := mk_context {
  config : noise_reduction_config;
  input_buffer : list F;
  overlap_buffer : list F;
  fft_input : list F;
  fft_output : list (F * F);
  noise_spectrum : list F;
  magnitude_spectrum : list F;
  phase_spectrum : list F;
  buffer_pos : Z;
  noise_profile_ready : bool
}.

Definition spectral_subtraction_name : String.string := "spectral_subtraction"%string.

(** [memcpy (dst, src, n * sizeof (float))]. *)
Definition blit {A : Type} (src : list A) (n : nat) (dst : list A) : list A :=
  firstn n src ++ skipn n dst.

(** [memset (dst, 0, n * sizeof (float))]. *)
Definition zero_fill (n : nat) (dst : list F) : list F :=
  repeat (of_int 0) (Nat.min n (length dst)) ++ skipn n dst.

(** [apply_hanning_window]:
    [w = 0.5f * (1.0f - cosf (2.0f * PI * i / (size - 1))); data[i] *= w]. *)
Definition hanning (size : Z) (i : nat) : F :=
  lit 5 1 * (of_int 1 - cosf (of_int 2 * M_PI * of_int (Z.of_nat i) / of_int (size - 1))).

(** [for (i = 0; i < n; i++) data[i] = h (i, data[i])]. *)
Definition for_each (n : nat) (h : nat -> F -> F) (data : list F) : list F :=
  fold_left (fun d i => upd i (h i (nth i d (of_int 0))) d) (seq 0 n) data.

Definition apply_hanning_window (data : list F) (size : Z) : list F :=
  for_each (Z.to_nat size) (fun i x => x * hanning size i) data.

(** The gain of one bin when the noise profile is ready. *)
Definition bin_gain (cfg : noise_reduction_config) (noise magnitude : F) : F :=
  let snr := magnitude / (noise + lit 1 10) in
  let gain :=
    if fgt snr (noise_threshold cfg)
    then of_int 1 - alpha cfg * (noise / magnitude)
    else beta cfg in
  let gain := fmaxf gain (beta cfg) in
  fminf gain (of_int 1).

(** The scaled magnitude and the phase of one bin. *)
Definition bin_magnitude (X : F * F) : F := sqrtf (fst X * fst X + snd X * snd X).
Definition bin_phase (X : F * F) : F := atan2f (snd X) (fst X).

Definition scaled_magnitude (ctx : noise_reduction_context) (i : nat) (X : F * F) : F :=
  if noise_profile_ready ctx
  then bin_magnitude X
       * bin_gain (config ctx) (nth i (noise_spectrum ctx) (of_int 0)) (bin_magnitude X)
  else bin_magnitude X.

(** The body of the loop of [spectral_subtraction]. *)
Definition subtract_bin (st : noise_reduction_context * list (F * F)) (i : nat)
  : noise_reduction_context * list (F * F) :=
  let '(ctx, spectrum) := st in
  let X := nth i spectrum (of_int 0, of_int 0) in
  let magnitude := scaled_magnitude ctx i X in
  let phase := bin_phase X in
  ({| config := config ctx;
      input_buffer := input_buffer ctx;
      overlap_buffer := overlap_buffer ctx;
      fft_input := fft_input ctx;
      fft_output := fft_output ctx;
      noise_spectrum := noise_spectrum ctx;
      magnitude_spectrum := upd i (bin_magnitude X) (magnitude_spectrum ctx);
      phase_spectrum := upd i phase (phase_spectrum ctx);
      buffer_pos := buffer_pos ctx;
      noise_profile_ready := noise_profile_ready ctx |},
   upd i (magnitude * cosf phase, magnitude * sinf phase) spectrum).

(** [spectral_subtraction]: [for (i = 0; i < size / 2 + 1; i++)]. *)
Definition spectral_subtraction (ctx : noise_reduction_context)
  (spectrum : list (F * F)) (size : Z)
  : noise_reduction_context * list (F * F) :=
  fold_left subtract_bin (seq 0 (Z.to_nat (Z.quot size 2 + 1))) (ctx, spectrum).

(** *** [noise_reduction_process] *)

Definition set_fft_input (x : list F) (ctx : noise_reduction_context)
  : noise_reduction_context :=
  {| config := config ctx; input_buffer := input_buffer ctx;
     overlap_buffer := overlap_buffer ctx; fft_input := x;
     fft_output := fft_output ctx; noise_spectrum := noise_spectrum ctx;
     magnitude_spectrum := magnitude_spectrum ctx;
     phase_spectrum := phase_spectrum ctx; buffer_pos := buffer_pos ctx;
     noise_profile_ready := noise_profile_ready ctx |}.

Definition set_fft_output (X : list (F * F)) (ctx : noise_reduction_context)
  : noise_reduction_context :=
  {| config := config ctx; input_buffer := input_buffer ctx;
     overlap_buffer := overlap_buffer ctx; fft_input := fft_input ctx;
     fft_output := X; noise_spectrum := noise_spectrum ctx;
     magnitude_spectrum := magnitude_spectrum ctx;
     phase_spectrum := phase_spectrum ctx; buffer_pos := buffer_pos ctx;
     noise_profile_ready := noise_profile_ready ctx |}.

Definition set_accumulator (ib : list F) (pos : Z) (ctx : noise_reduction_context)
  : noise_reduction_context :=
  {| config := config ctx; input_buffer := ib;
     overlap_buffer := overlap_buffer ctx; fft_input := fft_input ctx;
     fft_output := fft_output ctx; noise_spectrum := noise_spectrum ctx;
     magnitude_spectrum := magnitude_spectrum ctx;
     phase_spectrum := phase_spectrum ctx; buffer_pos := pos;
     noise_profile_ready := noise_profile_ready ctx |}.

Definition set_overlap (ob : list F) (ctx : noise_reduction_context)
  : noise_reduction_context :=
  {| config := config ctx; input_buffer := input_buffer ctx;
     overlap_buffer := ob; fft_input := fft_input ctx;
     fft_output := fft_output ctx; noise_spectrum := noise_spectrum ctx;
     magnitude_spectrum := magnitude_spectrum ctx;
     phase_spectrum := phase_spectrum ctx; buffer_pos := buffer_pos ctx;
     noise_profile_ready := noise_profile_ready ctx |}.

Definition set_noise (ns : list F) (ready : bool) (ctx : noise_reduction_context)
  : noise_reduction_context :=
  {| config := config ctx; input_buffer := input_buffer ctx;
     overlap_buffer := overlap_buffer ctx; fft_input := fft_input ctx;
     fft_output := fft_output ctx; noise_spectrum := ns;
     magnitude_spectrum := magnitude_spectrum ctx;
     phase_spectrum := phase_spectrum ctx; buffer_pos := buffer_pos ctx;
     noise_profile_ready := ready |}.

(** [fftwf_execute (forward_plan)]: the first [n] floats of [fft_input] are
    transformed into the first [n/2 + 1] bins of [fft_output]. *)
Definition execute_forward (ctx : noise_reduction_context) : noise_reduction_context :=
  let n := frame_size (config ctx) in
  let bins := Z.to_nat (Z.quot n 2 + 1) in
  set_fft_output
    (blit (fftwf_r2c n (firstn (Z.to_nat n) (fft_input ctx))) bins (fft_output ctx))
    ctx.

(** [fftwf_execute (inverse_plan)]. *)
Definition execute_inverse (ctx : noise_reduction_context) : noise_reduction_context :=
  let n := frame_size (config ctx) in
  let bins := Z.to_nat (Z.quot n 2 + 1) in
  set_fft_input
    (blit (fftwf_c2r n (firstn bins (fft_output ctx))) (Z.to_nat n) (fft_input ctx))
    ctx.

(** [if (strcmp (algorithm, "spectral_subtraction") == 0)
       spectral_subtraction (ctx, ctx->fft_output, frame_size);] *)
Definition spectral_step (ctx : noise_reduction_context) : noise_reduction_context :=
  if String.eqb (algorithm (config ctx)) spectral_subtraction_name
  then
    let '(ctx', spectrum) :=
      spectral_subtraction ctx (fft_output ctx) (frame_size (config ctx)) in
    set_fft_output spectrum ctx'
  else ctx.

(** [for (i = 0; i < frame_size; i++) fft_input[i] /= frame_size]. *)
Definition normalize (data : list F) (n : Z) : list F :=
  for_each (Z.to_nat n) (fun _ x => x / of_int n) data.

(** [for (i = 0; i < overlap; i++) fft_input[i] += overlap_buffer[i]]. *)
Definition overlap_add (data tail : list F) (n : Z) : list F :=
  for_each (Z.to_nat n) (fun i x => x + nth i tail (of_int 0)) data.

(** [memcpy (fft_input, input_buffer, frame_size * sizeof (float))]. *)
Definition load_frame (ctx : noise_reduction_context) : noise_reduction_context :=
  set_fft_input
    (blit (input_buffer ctx) (Z.to_nat (frame_size (config ctx))) (fft_input ctx)) ctx.

(** [apply_hanning_window ((float* ) fft_input, frame_size)]. *)
Definition window_frame (ctx : noise_reduction_context) : noise_reduction_context :=
  set_fft_input (apply_hanning_window (fft_input ctx) (frame_size (config ctx))) ctx.

Definition scale_frame (ctx : noise_reduction_context) : noise_reduction_context :=
  set_fft_input (normalize (fft_input ctx) (frame_size (config ctx))) ctx.

Definition add_overlap (ctx : noise_reduction_context) : noise_reduction_context :=
  set_fft_input
    (overlap_add (fft_input ctx) (overlap_buffer ctx) (overlap (config ctx))) ctx.

(** From the [memcpy] into [fft_input] to the overlap-add: one frame
    through the analysis and the synthesis, statement by statement. *)
Definition transform_frame (ctx : noise_reduction_context) : noise_reduction_context :=
  add_overlap
    (window_frame
       (scale_frame
          (execute_inverse
             (spectral_step
                (execute_forward
                   (window_frame
                      (load_frame ctx))))))).

(** The caller's two arrays. The driver passes the same array as input
    and as output ([in_place]); a store into the output is then seen by
    later reads of the input. *)
Definition store_output (in_place : bool) (idx : nat) (v : Z)
  (mem : list Z * list Z) : list Z * list Z :=
  let '(input, output) := mem in
  (if in_place then upd idx v input else input, upd idx v output).

(** [sample = fmaxf (-1.0f, fminf (1.0f, sample));
     output[...] = (int16_t)(sample * 32767.0f)]. *)
Definition to_pcm (sample : F) : Z :=
  cast_int16 (fmaxf (- of_int 1) (fminf (of_int 1) sample) * of_int 32767).

Record process_state : Type := mk_state {
  st_ctx : noise_reduction_context;
  st_mem : list Z * list Z;
  st_processed : Z
}.

(** [size_t to_copy = fminf (samples - processed, frame_size - buffer_pos)]. *)
Definition round_copy (samples : Z) (st : process_state) : Z :=
  cast_size_t
    (fminf (of_int (to_size_t (samples - st_processed st)))
           (of_int (to_int32 (frame_size (config (st_ctx st))
                              - buffer_pos (st_ctx st))))).

(** [input_buffer[buffer_pos + i] = input[processed + i] / 32768.0f] for
    [i < to_copy], then [buffer_pos += to_copy]. *)
Definition round_fill (to_copy : Z) (st : process_state) : noise_reduction_context :=
  let ctx := st_ctx st in
  set_accumulator
    (fold_left
       (fun b i =>
          upd (Z.to_nat (to_size_t (buffer_pos ctx + Z.of_nat i)))
              (of_int (nth (Z.to_nat (to_size_t (st_processed st + Z.of_nat i)))
                           (fst (st_mem st)) 0%Z)
               / of_int 32768) b)
       (seq 0 (Z.to_nat to_copy)) (input_buffer ctx))
    (to_int32 (to_size_t (buffer_pos ctx + to_copy))) ctx.

(** [hop_size = frame_size - overlap]. *)
Definition hop_size (ctx : noise_reduction_context) : Z :=
  to_int32 (frame_size (config ctx) - overlap (config ctx)).

(** [output[start + i] = ...] for [i < output_samples]. *)
Definition emit_samples (in_place : bool) (start output_samples : Z)
  (frame : list F) (mem : list Z * list Z) : list Z * list Z :=
  fold_left
    (fun m i =>
       store_output in_place (Z.to_nat (to_size_t (start + Z.of_nat i)))
                    (to_pcm (nth i frame (of_int 0))) m)
    (seq 0 (Z.to_nat output_samples)) mem.

(** [memcpy (overlap_buffer, &fft_input[hop_size], overlap * sizeof (float))]. *)
Definition save_tail (ctx : noise_reduction_context) : noise_reduction_context :=
  set_overlap
    (blit (skipn (Z.to_nat (hop_size ctx)) (fft_input ctx))
          (Z.to_nat (overlap (config ctx))) (overlap_buffer ctx))
    ctx.

(** [memmove (input_buffer, &input_buffer[hop_size], ...);
     buffer_pos -= hop_size]. *)
Definition slide_accumulator (ctx : noise_reduction_context) : noise_reduction_context :=
  set_accumulator
    (blit (skipn (Z.to_nat (hop_size ctx)) (input_buffer ctx))
          (Z.to_nat (frame_size (config ctx) - hop_size ctx)) (input_buffer ctx))
    (to_int32 (buffer_pos ctx - hop_size ctx)) ctx.

(** The body of [if (buffer_pos >= frame_size)], entered with the context
    [ctx1] after the copy and [processed1] samples consumed. *)
Definition round_emit (in_place : bool) (samples to_copy processed1 : Z)
  (ctx1 : noise_reduction_context) (mem : list Z * list Z) : process_state :=
  let start := to_size_t (processed1 - to_copy) in
  let output_samples :=
    cast_size_t (fminf (of_int (hop_size ctx1)) (of_int (to_size_t (samples - start)))) in
  {| st_ctx := slide_accumulator (save_tail (transform_frame ctx1));
     st_mem := emit_samples in_place start output_samples
                            (fft_input (transform_frame ctx1)) mem;
     st_processed := processed1 |}.

(** One round of [while (processed < samples)]. *)
Definition process_round (in_place : bool) (samples : Z) (st : process_state)
  : process_state :=
  let to_copy := round_copy samples st in
  let processed1 := to_size_t (st_processed st + to_copy) in
  if (frame_size (config (st_ctx st)) <=? buffer_pos (round_fill to_copy st))%Z
  then round_emit in_place samples to_copy processed1 (round_fill to_copy st) (st_mem st)
  else {| st_ctx := round_fill to_copy st; st_mem := st_mem st;
          st_processed := processed1 |}.

(** The loop, with a bound on the number of rounds; [None] when the bound
    is reached with samples still to process. *)
Fixpoint process_loop (fuel : nat) (in_place : bool) (samples : Z) (st : process_state)
  : option process_state :=
  if (st_processed st <? samples)%Z
  then match fuel with
       | O => None
       | S fuel' => process_loop fuel' in_place samples (process_round in_place samples st)
       end
  else Some st.

(** [noise_reduction_process], for valid pointers: the return code, the
    context after the call and the output array. *)
Definition noise_reduction_process (fuel : nat) (in_place : bool)
  (ctx : noise_reduction_context) (input output : list Z) (samples : Z)
  : option (Z * noise_reduction_context * list Z) :=
  match process_loop fuel in_place samples
          {| st_ctx := ctx; st_mem := (input, output); st_processed := 0%Z |} with
  | None => None
  | Some st => Some (MICARRAY_SUCCESS, st_ctx st, snd (st_mem st))
  end.

(** *** [noise_reduction_update_noise_profile] *)

(** One round of the training loop: load a frame, window it, transform it
    and add the magnitudes of its bins to the noise spectrum. *)
Definition accumulate_frame (ctx : noise_reduction_context) (noise_samples : list Z)
  (processed : Z) : noise_reduction_context :=
  let n := frame_size (config ctx) in
  let x :=
    fold_left
      (fun d i =>
         upd i (of_int (nth (Z.to_nat (to_size_t (processed + Z.of_nat i)))
                            noise_samples 0%Z) / of_int 32768) d)
      (seq 0 (Z.to_nat n)) (fft_input ctx) in
  let c1 := set_fft_input (apply_hanning_window x n) ctx in
  let c2 := execute_forward c1 in
  set_noise
    (fold_left
       (fun ns i => upd i (nth i ns (of_int 0)
                           + bin_magnitude (nth i (fft_output c2) (of_int 0, of_int 0))) ns)
       (seq 0 (Z.to_nat (Z.quot n 2 + 1))) (noise_spectrum c2))
    (noise_profile_ready c2) c2.

(** [while (processed + frame_size <= samples)], on
    [(ctx, num_frames, processed)]. *)
Fixpoint profile_loop (fuel : nat) (noise_samples : list Z) (samples : Z)
  (st : noise_reduction_context * Z * Z) : option (noise_reduction_context * Z) :=
  let '(ctx, num_frames, processed) := st in
  if (to_size_t (processed + frame_size (config ctx)) <=? samples)%Z
  then match fuel with
       | O => None
       | S fuel' =>
           profile_loop fuel' noise_samples samples
             (accumulate_frame ctx noise_samples processed,
              to_int32 (num_frames + 1),
              to_size_t (processed + Z.quot (frame_size (config ctx)) 2))
       end
  else Some (ctx, num_frames).

Definition noise_reduction_update_noise_profile (fuel : nat)
  (ctx : noise_reduction_context) (noise_samples : list Z) (samples : Z)
  : option (Z * noise_reduction_context) :=
  let bins := Z.to_nat (Z.quot (frame_size (config ctx)) 2 + 1) in
  let ctx0 := set_noise (zero_fill bins (noise_spectrum ctx)) (noise_profile_ready ctx) ctx in
  match profile_loop fuel noise_samples samples (ctx0, 0%Z, 0%Z) with
  | None => None
  | Some (ctx1, num_frames) =>
      if (0 <? num_frames)%Z
      then Some (MICARRAY_SUCCESS,
                 set_noise
                   (fold_left
                      (fun ns i => upd i (nth i ns (of_int 0) / of_int num_frames) ns)
                      (seq 0 bins) (noise_spectrum ctx1))
                   true ctx1)
      else Some (MICARRAY_SUCCESS, ctx1)
  end.

(** *** Notions used in the statements *)

(** The fields that decide the gain are not written by the loop. *)
Definition same_profile (c1 c2 : noise_reduction_context) : Prop :=
  config c1 = config c2 /\ noise_spectrum c1 = noise_spectrum c2 /\
  noise_profile_ready c1 = noise_profile_ready c2.

(** *** Initial and reduced contexts *)

(** [noise_reduction_init]: the arrays, zeroed, for a configuration. The
    FFT arrays hold [frame_size] complex numbers each. *)
Definition noise_reduction_init (cfg : noise_reduction_config) : noise_reduction_context :=
  let n := Z.to_nat (frame_size cfg) in
  let bins := Z.to_nat (Z.quot (frame_size cfg) 2 + 1) in
  {| config := cfg;
     input_buffer := repeat (of_int 0) n;
     overlap_buffer := repeat (of_int 0) (Z.to_nat (overlap cfg));
     fft_input := repeat (of_int 0) (2 * n);
     fft_output := repeat (of_int 0, of_int 0) n;
     noise_spectrum := repeat (of_int 0) bins;
     magnitude_spectrum := repeat (of_int 0) bins;
     phase_spectrum := repeat (of_int 0) bins;
     buffer_pos := 0%Z;
     noise_profile_ready := false |}.

(** The context without what only the spectral subtraction reads or
    writes: the noise profile and its flag, the two spectra it records, and
    the threshold and the factors [alpha] and [beta]. *)
Definition forget_profile (ctx : noise_reduction_context) : noise_reduction_context :=
  {| config :=
       {| algorithm := algorithm (config ctx);
          noise_threshold := of_int 0;
          frame_size := frame_size (config ctx);
          overlap := overlap (config ctx);
          alpha := of_int 0;
          beta := of_int 0;
          sample_rate := sample_rate (config ctx) |};
     input_buffer := input_buffer ctx;
     overlap_buffer := overlap_buffer ctx;
     fft_input := fft_input ctx;
     fft_output := fft_output ctx;
     noise_spectrum := [];
     magnitude_spectrum := [];
     phase_spectrum := [];
     buffer_pos := buffer_pos ctx;
     noise_profile_ready := false |}.

Definition forget_state (st : process_state) : process_state :=
  {| st_ctx := forget_profile (st_ctx st); st_mem := st_mem st;
     st_processed := st_processed st |}.

(** The fields that [forget_profile] drops. *)
Definition profile_of (ctx : noise_reduction_context)
  : list F * bool * list F * list F * (F * F * F) :=
  (noise_spectrum ctx, noise_profile_ready ctx, magnitude_spectrum ctx,
   phase_spectrum ctx,
   (noise_threshold (config ctx), alpha (config ctx), beta (config ctx))).

Definition other_algorithm (ctx : noise_reduction_context) : Prop :=
  algorithm (config ctx) <> spectral_subtraction_name.

(** The state of the streaming side: what [noise_reduction_process] carries
    from one call to the next, apart from the noise profile. *)
Definition stream_state (ctx : noise_reduction_context)
  : noise_reduction_config * list F * list F * Z :=
  (config ctx, input_buffer ctx, overlap_buffer ctx, buffer_pos ctx).

(** The frame that the first window leaves in [fft_input] when the
    accumulator was filled from [input]: sample [j] is
    [input[j] / 32768.0f], times the window. *)
Definition windowed_input (n : Z) (input : list Z) : list F :=
  map (fun j => of_int (nth j input 0%Z) / of_int 32768 * hanning n j)
      (seq 0 (Z.to_nat n)).

(** Sample [k] of the frame after the two transforms, the division by the
    frame size, the second window and the addition of the saved tail, with
    no spectral subtraction between the transforms. *)
Definition resynthesized_sample (n ov : Z) (input : list Z) (tail : list F) (k : nat) : F :=
  let y := fftwf_c2r n (fftwf_r2c n (windowed_input n input)) in
  let s := nth k y (of_int 0) / of_int n * hanning n k in
  if (Z.of_nat k <? ov)%Z then s + nth k tail (of_int 0) else s.

End WithFloat.

Arguments noise_reduction_config F : clear implicits.
Arguments noise_reduction_context F : clear implicits.
Arguments process_state F : clear implicits.

(** *** The transforms and sample contexts, in exact arithmetic *)

Import Exact.
Local Open Scope R_scope.

(** The discrete Fourier transform as FFTW documents its real-data plans:
    [Y_k = sum_j x_j e^(-2 pi i j k / n)] for [k = 0 .. n/2], and the
    unnormalized inverse of the Hermitian extension of [n/2 + 1] bins. *)
Definition dft_sum (n : Z) (f : nat -> R) : R :=
  fold_right Rplus 0 (map f (seq 0 (Z.to_nat n))).

Definition dft_angle (n : Z) (j k : nat) : R :=
  2 * PI * INR j * INR k / IZR n.

Definition dft_r2c (n : Z) (x : list R) : list (R * R) :=
  map (fun k => (dft_sum n (fun j => nth j x 0 * cos (dft_angle n j k)),
                 dft_sum n (fun j => - (nth j x 0 * sin (dft_angle n j k)))))
      (seq 0 (Z.to_nat (Z.quot n 2 + 1))).

Definition hermitian (n : Z) (X : list (R * R)) (k : nat) : R * R :=
  if (Z.of_nat k <=? Z.quot n 2)%Z then nth k X (0, 0)
  else let '(re, im) := nth (Z.to_nat n - k) X (0, 0) in (re, - im).

Definition dft_c2r (n : Z) (X : list (R * R)) : list R :=
  map (fun j => dft_sum n (fun k =>
                   fst (hermitian n X k) * cos (dft_angle n j k)
                   - snd (hermitian n X k) * sin (dft_angle n j k)))
      (seq 0 (Z.to_nat n)).

#[export] Instance R_fftw : FFTW R := {| fftwf_r2c := dft_r2c; fftwf_c2r := dft_c2r |}.

(** A frame of four samples with an overlap of two, under the algorithm
    name "none" and under "spectral_subtraction". *)
Definition small_config (name : String.string) : noise_reduction_config R :=
  {| algorithm := name;
     noise_threshold := 1 / 20;
     frame_size := 4;
     overlap := 2;
     alpha := 2;
     beta := 1 / 10;
     sample_rate := 16000 |}.

Definition passthrough_context : noise_reduction_context R :=
  noise_reduction_init (small_config "none"%string).

(** A context whose profile was trained to 1 in every bin. *)
Definition trained_context : noise_reduction_context R :=
  set_noise [1; 1; 1] true (noise_reduction_init (small_config spectral_subtraction_name)).

(** A trained context whose noise floor [beta] is 2, above the ceiling 1
    of the gain, with a threshold of 10. *)
Definition high_floor_context : noise_reduction_context R :=
  set_noise [1; 1; 1] true
    (noise_reduction_init
       {| algorithm := spectral_subtraction_name; noise_threshold := 10;
          frame_size := 4; overlap := 2; alpha := 2; beta := 2;
          sample_rate := 16000 |}).

(** The state of a context between two rounds. *)
Definition round_ready (ctx : noise_reduction_context R) : Prop :=
  (0 <= overlap (config ctx) < frame_size (config ctx))%Z /\
  (frame_size (config ctx) < 2 ^ 30)%Z /\
  (0 <= buffer_pos ctx < frame_size (config ctx))%Z.

(** A context whose frames hold one sample. *)
Definition tiny_context : noise_reduction_context R :=
  noise_reduction_init
    {| algorithm := spectral_subtraction_name; noise_threshold := 1 / 20;
       frame_size := 1; overlap := 0; alpha := 2; beta := 1 / 10;
       sample_rate := 16000 |}.

(** Every bin of the noise profile is at least 0. *)
Definition bins_nonnegative (ctx : noise_reduction_context R) : Prop :=
  forall k, (k < Z.to_nat (Z.quot (frame_size (config ctx)) 2 + 1))%nat ->
            (k < length (noise_spectrum ctx))%nat ->
            0 <= nth k (noise_spectrum ctx) 0.

End NoiseReduction.

(** ** The spatial mixer ([src/audio_output.c]) *)

Module AudioOutput.

Definition MICARRAY_ERROR_AUDIO_OUTPUT : Z := -5.
Definition EPIPE : Z := 32.

Section WithFloat.
Context {F : Type} {FO : FloatOps F}.
Local Open Scope float_scope.

Record audio_output_config : Type := mk_config {
  sample_rate : Z;
  channels : Z;
  bits_per_sample : Z;
  buffer_size : Z;
  volume : F
}.

(** [struct audio_output_context]; the ALSA handles are outside the model. *)
Record audio_output_context : Type := mk_context {
  config : audio_output_config;
  running : bool;
  output_buffer : list Z;
  buffer_frames : Z
}.

(** The two gains that [apply_stereo_panning] computes before its loop. *)
Definition stereo_gains (location : sound_location F) : F * F :=
  let angle := atan2f (loc_y location) (loc_x location) in
  let distance :=
    sqrtf (loc_x location * loc_x location + loc_y location * loc_y location) in
  let pan := angle / M_PI in
  let pan := fmaxf (- of_int 1) (fminf (of_int 1) pan) in
  let distance_attenuation := of_int 1 / (of_int 1 + distance * lit 1 1) in
  let distance_attenuation :=
    fmaxf (lit 1 1) (fminf (of_int 1) distance_attenuation) in
  let left_gain := (of_int 1 - pan) * lit 5 1 + lit 5 1 in
  let right_gain := (of_int 1 + pan) * lit 5 1 + lit 5 1 in
  (left_gain * (distance_attenuation * confidence location),
   right_gain * (distance_attenuation * confidence location)).

(** [(int16_t)(sample * gain)]. *)
Definition scale_sample (sample : Z) (gain : F) : Z :=
  cast_int16 (of_int sample * gain).

(** The conversion [(int16_t) x] is defined: the integral part of [x] lies
    in the range of [int16_t]. *)
Definition fits_int16 (x : F) : Prop := (INT16_MIN <= to_int x <= INT16_MAX)%Z.

(** Both conversions of one channel are defined: the one of the panned
    sample and the one of its product with the volume. *)
Definition channel_fits (m : Z) (gain vol : F) : Prop :=
  fits_int16 (of_int m * gain) /\
  fits_int16 (of_int (to_int (of_int m * gain)) * vol).

(** [apply_stereo_panning]: the two output arrays after the loop. *)
Definition apply_stereo_panning (mono_data left_out right_out : list Z)
  (samples : Z) (location : sound_location F) : list Z * list Z :=
  fold_left
    (fun (lr : list Z * list Z) i =>
       (upd i (scale_sample (nth i mono_data 0%Z) (fst (stereo_gains location))) (fst lr),
        upd i (scale_sample (nth i mono_data 0%Z) (snd (stereo_gains location))) (snd lr)))
    (seq 0 (Z.to_nat samples)) (left_out, right_out).

(** The loop of [audio_output_write_stereo]:
    [output_buffer[i * 2] = (int16_t)(left_channel[i] * volume);
     output_buffer[i * 2 + 1] = (int16_t)(right_channel[i] * volume);] *)
Definition interleave (vol : F) (left_channel right_channel : list Z) (samples : Z)
  (buffer : list Z) : list Z :=
  fold_left
    (fun b i =>
       upd (i * 2 + 1) (scale_sample (nth i right_channel 0%Z) vol)
           (upd (i * 2) (scale_sample (nth i left_channel 0%Z) vol) b))
    (seq 0 (Z.to_nat samples)) buffer.

(** [audio_output_write_stereo], for valid pointers. [frames_written] is
    what [snd_pcm_writei] returns for the interleaved buffer. *)
Definition audio_output_write_stereo (ctx : audio_output_context)
  (left_channel right_channel : list Z) (samples : Z) (frames_written : Z)
  : Z * audio_output_context :=
  if negb (running ctx) then (MICARRAY_ERROR_AUDIO_OUTPUT, ctx)
  else
    let ctx' :=
      {| config := config ctx; running := running ctx;
         output_buffer :=
           interleave (volume (config ctx)) left_channel right_channel samples
                      (output_buffer ctx);
         buffer_frames := buffer_frames ctx |} in
    if (frames_written <? 0)%Z
    then if (frames_written =? - EPIPE)%Z
         then (MICARRAY_SUCCESS, ctx')
         else (MICARRAY_ERROR_AUDIO_OUTPUT, ctx')
    else (MICARRAY_SUCCESS, ctx').

(** [audio_output_write_localized]: the two channel arrays are allocated
    for [samples] samples, panned into, and written. *)
Definition audio_output_write_localized (ctx : audio_output_context)
  (audio_data : list Z) (samples : Z) (location : sound_location F)
  (frames_written : Z) : Z * audio_output_context :=
  let fresh := repeat 0%Z (Z.to_nat samples) in
  let '(left_channel, right_channel) :=
    apply_stereo_panning audio_data fresh fresh samples location in
  audio_output_write_stereo ctx left_channel right_channel samples frames_written.

(** [audio_output_set_volume]. *)
Definition audio_output_set_volume (ctx : audio_output_context) (v : F)
  : audio_output_context :=
  {| config :=
       {| sample_rate := sample_rate (config ctx); channels := channels (config ctx);
          bits_per_sample := bits_per_sample (config ctx);
          buffer_size := buffer_size (config ctx);
          volume := fmaxf (of_int 0) (fminf (of_int 1) v) |};
     running := running ctx; output_buffer := output_buffer ctx;
     buffer_frames := buffer_frames ctx |}.

(** [audio_output_start]: [prepare_err] is what [snd_pcm_prepare] returns.
    A sink that runs is left alone. *)
Definition audio_output_start (ctx : audio_output_context) (prepare_err : Z)
  : Z * audio_output_context :=
  if running ctx then (MICARRAY_SUCCESS, ctx)
  else if (prepare_err <? 0)%Z then (MICARRAY_ERROR_AUDIO_OUTPUT, ctx)
       else (MICARRAY_SUCCESS,
             {| config := config ctx; running := true;
                output_buffer := output_buffer ctx;
                buffer_frames := buffer_frames ctx |}).

(** [audio_output_stop]: [drop_err] is what [snd_pcm_drop] returns; the
    flag is cleared before the call. *)
Definition audio_output_stop (ctx : audio_output_context) (drop_err : Z)
  : Z * audio_output_context :=
  if negb (running ctx) then (MICARRAY_SUCCESS, ctx)
  else
    let ctx' := {| config := config ctx; running := false;
                   output_buffer := output_buffer ctx;
                   buffer_frames := buffer_frames ctx |} in
    if (drop_err <? 0)%Z then (MICARRAY_ERROR_AUDIO_OUTPUT, ctx')
    else (MICARRAY_SUCCESS, ctx').

(** [audio_output_is_running]; [None] is the null pointer. *)
Definition audio_output_is_running (ctx : option audio_output_context) : bool :=
  match ctx with Some c => running c | None => false end.

(** *** What the specification asks for *)

Definition clip_i16 (z : Z) : Z := Z.max INT16_MIN (Z.min INT16_MAX z).

(** [gain_L = ((1 - pan)/2 + 0.5) * attn * confidence * volume], and
    symmetrically for the right channel, with [pan] and [attn] as in the
    specification. *)
Definition spec_gains (location : sound_location F) (vol : F) : F * F :=
  let angle := atan2f (loc_y location) (loc_x location) in
  let pan := fmaxf (- of_int 1) (fminf (of_int 1) (angle / M_PI)) in
  let dist :=
    sqrtf (loc_x location * loc_x location + loc_y location * loc_y location) in
  let attn :=
    fmaxf (lit 1 1) (fminf (of_int 1) (of_int 1 / (of_int 1 + lit 1 1 * dist))) in
  (((of_int 1 - pan) / of_int 2 + lit 5 1) * attn * confidence location * vol,
   ((of_int 1 + pan) / of_int 2 + lit 5 1) * attn * confidence location * vol).

(** [L[i] = clip_i16 (m[i] * gain_L)]: one product, one conversion. *)
Definition spec_sample (m : Z) (gain : F) : Z := clip_i16 (to_int (of_int m * gain)).

End WithFloat.

Arguments audio_output_config F : clear implicits.
Arguments audio_output_context F : clear implicits.

Import Exact.
Local Open Scope R_scope.

(** A running sink at volume 0.75 and a source at the origin heard with
    confidence 0.5. *)
Definition mixer_context : audio_output_context R :=
  {| config := {| sample_rate := 16000; channels := 2; bits_per_sample := 16;
                  buffer_size := 1; volume := 3 / 4 |};
     running := true;
     output_buffer := [0; 0]%Z;
     buffer_frames := 1 |}.

Definition half_confident : sound_location R := mk_location 0 0 0 (1 / 2).

End AudioOutput.

(** ** The capture device ([src/i2s.c]): starting and stopping *)

Module I2SDevice.

(** [struct i2s_context] with its [running] flag; the ring fields are those
    of [I2S.i2s_context]. *)
Record i2s_device : Type := mk_device {
  ring : I2S.i2s_context;
  running : bool
}.

(** [i2s_start]: [thread_created] tells whether [pthread_create] succeeded.
    A device that runs is left alone; otherwise the counters are reset
    before the thread is made. *)
Definition i2s_start (dev : option i2s_device) (thread_created : bool)
  : Z * option i2s_device :=
  match dev with
  | None => (MICARRAY_ERROR_INVALID_PARAM, None)
  | Some d =>
      if running d then (MICARRAY_SUCCESS, dev)
      else if thread_created
           then (MICARRAY_SUCCESS,
                 Some {| ring := I2S.i2s_start (ring d); running := true |})
           else (MICARRAY_ERROR_INIT,
                 Some {| ring := I2S.i2s_start (ring d); running := false |})
  end.

(** [i2s_stop]: [thread_joined] tells whether [pthread_join] succeeded; the
    flag is cleared before the call. *)
Definition i2s_stop (dev : option i2s_device) (thread_joined : bool)
  : Z * option i2s_device :=
  match dev with
  | None => (MICARRAY_ERROR_INVALID_PARAM, None)
  | Some d =>
      if negb (running d) then (MICARRAY_SUCCESS, dev)
      else (if thread_joined then MICARRAY_SUCCESS else MICARRAY_ERROR_INIT,
            Some {| ring := ring d; running := false |})
  end.

Definition i2s_is_running (dev : option i2s_device) : bool :=
  match dev with Some d => running d | None => false end.

End I2SDevice.

(** ** The configuration ([src/config.c]) *)

(** The two functions of the C library that read numbers. [strtof] gives
    the value and the text from [endptr] on. The parser is written against
    these two functions. *)
Class Libc (F : Type) : Type := {
  atoi : String.string -> Z;
  strtof : String.string -> F * String.string
}.

Module Config.

Import Ascii String.

Definition MAX_MICROPHONES : Z := 16.
Definition MAX_BUFFER_SIZE : Z := 8192.
Definition DEFAULT_SAMPLE_RATE : Z := 16000.

(** *** Text *)

Definition TAB : ascii := ascii_of_nat 9.
Definition LF : ascii := ascii_of_nat 10.
Definition CR : ascii := ascii_of_nat 13.
Definition QUOTE : ascii := ascii_of_nat 34.

(** The characters that the first loop of [trim_whitespace] skips, and the
    characters that its second loop cuts. *)
Definition blank (c : ascii) : bool := ((c =? " ") || (c =? TAB))%char.
Definition space (c : ascii) : bool := (blank c || (c =? LF) || (c =? CR))%char.

(** [while ( *str == ' ' || *str == '\t') str++]. *)
Fixpoint skip_blanks (str : string) : string :=
  match str with
  | EmptyString => EmptyString
  | String c rest => if blank c then skip_blanks rest else str
  end.

(** [while (end > str && ...) end--; *(end + 1) = 0], seen from the
    character after [str]: the white space at the end is cut. *)
Fixpoint drop_trailing (s : string) : string :=
  match s with
  | EmptyString => EmptyString
  | String c rest =>
      match drop_trailing rest with
      | EmptyString => if space c then EmptyString else String c EmptyString
      | kept => String c kept
      end
  end.

(** [trim_whitespace]: the string at the pointer returned. The character
    at [str] itself is never cut ([end > str]). *)
Definition trim_whitespace (str : string) : string :=
  match skip_blanks str with
  | EmptyString => EmptyString
  | String c rest => String c (drop_trailing rest)
  end.

Fixpoint last_char (s : string) : option ascii :=
  match s with
  | EmptyString => None
  | String c EmptyString => Some c
  | String _ rest => last_char rest
  end.

Fixpoint drop_last (s : string) : string :=
  match s with
  | EmptyString => EmptyString
  | String _ EmptyString => EmptyString
  | String c rest => String c (drop_last rest)
  end.

(** [str[strlen(str) - 1] == c], for a string that is not empty. *)
Definition ends_with (c : ascii) (s : string) : bool :=
  match last_char s with Some d => (d =? c)%char | None => false end.

(** [remove_quotes]. The test of [str[0]] fails on the empty string, so
    that its last character is not looked at. *)
Definition remove_quotes (str : string) : string :=
  match str with
  | EmptyString => str
  | String c rest =>
      if ((c =? QUOTE)%char && ends_with QUOTE str)%bool then drop_last rest else str
  end.

(** [equals = strchr(trimmed, '='); *equals = '\0']: the text before the
    first [=] and the text after it. *)
Fixpoint split_equals (s : string) : option (string * string) :=
  match s with
  | EmptyString => None
  | String c rest =>
      if (c =? "=")%char then Some (EmptyString, rest)
      else match split_equals rest with
           | Some (k, v) => Some (String c k, v)
           | None => None
           end
  end.

(** [strncpy(dst, value, sizeof(dst) - 1); dst[sizeof(dst) - 1] = '\0']. *)
Definition copy_bounded (size : nat) (value : string) : string :=
  substring 0 (size - 1) value.

(** What the loop of [config_parse_file] does with a line: the two
    messages on [stderr] are [Invalid_line] and [Unknown_key]. *)
Inductive line_report : Type :=
| Skipped | Section_header | Invalid_line | Key_stored | Unknown_key.

Section WithFloat.
Context {F : Type} {FO : FloatOps F} {FL : FloatLe F} {LC : Libc F}.
Local Open Scope float_scope.

(** [micarray_config_t] of [libmicarray.h]. *)
Record micarray_config : Type := mk_config {
  num_microphones : Z;
  mic_spacing : F;
  i2s_bus : Z;
  dma_buffer_size : Z;
  sample_rate : Z;
  noise_reduction_enable : bool;
  noise_threshold : F;
  algorithm : string;
  output_device : string;
  volume : F;
  enable_serial_logging : bool;
  log_file : string;
  log_level : string
}.

(** Assignments to one field. *)
Definition set_num_microphones (v : Z) (c : micarray_config) : micarray_config :=
  mk_config v (mic_spacing c) (i2s_bus c) (dma_buffer_size c) (sample_rate c)
    (noise_reduction_enable c) (noise_threshold c) (algorithm c) (output_device c)
    (volume c) (enable_serial_logging c) (log_file c) (log_level c).
Definition set_mic_spacing (v : F) (c : micarray_config) : micarray_config :=
  mk_config (num_microphones c) v (i2s_bus c) (dma_buffer_size c) (sample_rate c)
    (noise_reduction_enable c) (noise_threshold c) (algorithm c) (output_device c)
    (volume c) (enable_serial_logging c) (log_file c) (log_level c).
Definition set_i2s_bus (v : Z) (c : micarray_config) : micarray_config :=
  mk_config (num_microphones c) (mic_spacing c) v (dma_buffer_size c) (sample_rate c)
    (noise_reduction_enable c) (noise_threshold c) (algorithm c) (output_device c)
    (volume c) (enable_serial_logging c) (log_file c) (log_level c).
Definition set_dma_buffer_size (v : Z) (c : micarray_config) : micarray_config :=
  mk_config (num_microphones c) (mic_spacing c) (i2s_bus c) v (sample_rate c)
    (noise_reduction_enable c) (noise_threshold c) (algorithm c) (output_device c)
    (volume c) (enable_serial_logging c) (log_file c) (log_level c).
Definition set_sample_rate (v : Z) (c : micarray_config) : micarray_config :=
  mk_config (num_microphones c) (mic_spacing c) (i2s_bus c) (dma_buffer_size c) v
    (noise_reduction_enable c) (noise_threshold c) (algorithm c) (output_device c)
    (volume c) (enable_serial_logging c) (log_file c) (log_level c).
Definition set_noise_reduction_enable (v : bool) (c : micarray_config) : micarray_config :=
  mk_config (num_microphones c) (mic_spacing c) (i2s_bus c) (dma_buffer_size c)
    (sample_rate c) v (noise_threshold c) (algorithm c) (output_device c)
    (volume c) (enable_serial_logging c) (log_file c) (log_level c).
Definition set_noise_threshold (v : F) (c : micarray_config) : micarray_config :=
  mk_config (num_microphones c) (mic_spacing c) (i2s_bus c) (dma_buffer_size c)
    (sample_rate c) (noise_reduction_enable c) v (algorithm c) (output_device c)
    (volume c) (enable_serial_logging c) (log_file c) (log_level c).
Definition set_algorithm (v : string) (c : micarray_config) : micarray_config :=
  mk_config (num_microphones c) (mic_spacing c) (i2s_bus c) (dma_buffer_size c)
    (sample_rate c) (noise_reduction_enable c) (noise_threshold c) v (output_device c)
    (volume c) (enable_serial_logging c) (log_file c) (log_level c).
Definition set_output_device (v : string) (c : micarray_config) : micarray_config :=
  mk_config (num_microphones c) (mic_spacing c) (i2s_bus c) (dma_buffer_size c)
    (sample_rate c) (noise_reduction_enable c) (noise_threshold c) (algorithm c) v
    (volume c) (enable_serial_logging c) (log_file c) (log_level c).
Definition set_volume (v : F) (c : micarray_config) : micarray_config :=
  mk_config (num_microphones c) (mic_spacing c) (i2s_bus c) (dma_buffer_size c)
    (sample_rate c) (noise_reduction_enable c) (noise_threshold c) (algorithm c)
    (output_device c) v (enable_serial_logging c) (log_file c) (log_level c).
Definition set_enable_serial_logging (v : bool) (c : micarray_config) : micarray_config :=
  mk_config (num_microphones c) (mic_spacing c) (i2s_bus c) (dma_buffer_size c)
    (sample_rate c) (noise_reduction_enable c) (noise_threshold c) (algorithm c)
    (output_device c) (volume c) v (log_file c) (log_level c).
Definition set_log_file (v : string) (c : micarray_config) : micarray_config :=
  mk_config (num_microphones c) (mic_spacing c) (i2s_bus c) (dma_buffer_size c)
    (sample_rate c) (noise_reduction_enable c) (noise_threshold c) (algorithm c)
    (output_device c) (volume c) (enable_serial_logging c) v (log_level c).
Definition set_log_level (v : string) (c : micarray_config) : micarray_config :=
  mk_config (num_microphones c) (mic_spacing c) (i2s_bus c) (dma_buffer_size c)
    (sample_rate c) (noise_reduction_enable c) (noise_threshold c) (algorithm c)
    (output_device c) (volume c) (enable_serial_logging c) (log_file c) v.

(** *** The parsers of the five sections: the result and the configuration *)

Definition parse_general_section (key value : string) (config : micarray_config)
  : Z * micarray_config :=
  if (key =? "log_level")%string
  then (0, set_log_level (copy_bounded 16 value) config)
  else (-1, config).

(** [mic_spacing] is stored before the suffix [mm] is looked for. *)
Definition parse_microphone_section (key value : string) (config : micarray_config)
  : Z * micarray_config :=
  if (key =? "num_microphones")%string
  then (0, set_num_microphones (atoi value) config)
  else if (key =? "mic_spacing")%string
  then let '(v, endptr) := strtof value in
       (match endptr with
        | String "m" (String "m" _) => 0
        | _ => -1
        end, set_mic_spacing v config)
  else if (key =? "i2s_bus")%string
  then (0, set_i2s_bus (atoi value) config)
  else if (key =? "dma_buffer_size")%string
  then (0, set_dma_buffer_size (atoi value) config)
  else if (key =? "sample_rate")%string
  then (0, set_sample_rate (atoi value) config)
  else (-1, config).

Definition parse_noise_reduction_section (key value : string) (config : micarray_config)
  : Z * micarray_config :=
  if (key =? "enable")%string
  then (0, set_noise_reduction_enable (value =? "true")%string config)
  else if (key =? "noise_threshold")%string
  then (0, set_noise_threshold (fst (strtof value)) config)
  else if (key =? "algorithm")%string
  then (0, set_algorithm (copy_bounded 64 value) config)
  else (-1, config).

Definition parse_audio_output_section (key value : string) (config : micarray_config)
  : Z * micarray_config :=
  if (key =? "output_device")%string
  then (0, set_output_device (copy_bounded 64 value) config)
  else if (key =? "volume")%string
  then (0, set_volume (fst (strtof value)) config)
  else (-1, config).

Definition parse_logging_section (key value : string) (config : micarray_config)
  : Z * micarray_config :=
  if (key =? "enable_serial_logging")%string
  then (0, set_enable_serial_logging (value =? "true")%string config)
  else if (key =? "log_file")%string
  then (0, set_log_file (copy_bounded 256 value) config)
  else (-1, config).

(** The chain of [strcmp (current_section, ...)]; [result] stays [-1]
    under any other section name. *)
Definition parse_section (current_section key value : string) (config : micarray_config)
  : Z * micarray_config :=
  if (current_section =? "General")%string
  then parse_general_section key value config
  else if (current_section =? "MicrophoneArray")%string
  then parse_microphone_section key value config
  else if (current_section =? "NoiseReduction")%string
  then parse_noise_reduction_section key value config
  else if (current_section =? "AudioOutput")%string
  then parse_audio_output_section key value config
  else if (current_section =? "Logging")%string
  then parse_logging_section key value config
  else (-1, config).

(** The body of [while (fgets (line, sizeof (line), file))], on the section
    name and the configuration. A header whose name has 64 characters or
    more is written past the end of [current_section[64]]: the behaviour is
    undefined, and the model has no result there. *)
Definition config_parse_line (state : string * micarray_config) (line : string)
  : option (string * micarray_config * line_report) :=
  let '(current_section, config) := state in
  let trimmed := trim_whitespace line in
  match trimmed with
  | EmptyString => Some (state, Skipped)
  | String c rest =>
      if (c =? "#")%char then Some (state, Skipped)
      else if ((c =? "[")%char && ends_with "]" trimmed)%bool
      then let name := drop_last rest in
           if (64 <=? length name)%nat then None
           else Some (name, config, Section_header)
      else match split_equals trimmed with
           | None => Some (state, Invalid_line)
           | Some (before, after) =>
               let key := trim_whitespace before in
               let value := remove_quotes (trim_whitespace after) in
               let '(result, config') := parse_section current_section key value config in
               Some (current_section, config',
                     if (result =? 0)%Z then Key_stored else Unknown_key)
           end
  end.

(** The loop, over the lines that [fgets] delivers one after the other. *)
Fixpoint config_parse_lines (lines : list string) (state : string * micarray_config)
  : option (string * micarray_config * list line_report) :=
  match lines with
  | [] => Some (state, [])
  | line :: rest =>
      match config_parse_line state line with
      | None => None
      | Some (state', report) =>
          match config_parse_lines rest state' with
          | None => None
          | Some (final, reports) => Some (final, report :: reports)
          end
      end
  end.

(** [config_parse_file]: [file] is [None] when [fopen] fails. Once the
    file is open the result is [MICARRAY_SUCCESS], whatever the lines hold. *)
Definition config_parse_file (file : option (list string)) (config : micarray_config)
  : option (Z * micarray_config) :=
  match file with
  | None => Some (MICARRAY_ERROR_CONFIG, config)
  | Some lines =>
      match config_parse_lines lines (EmptyString, config) with
      | None => None
      | Some (_, config', _) => Some (MICARRAY_SUCCESS, config')
      end
  end.

(** [config_set_defaults], for a valid pointer: every field is assigned. *)
Definition config_set_defaults (cfg : micarray_config) : Z * micarray_config :=
  (MICARRAY_SUCCESS,
   {| num_microphones := 8;
      mic_spacing := of_int 15;
      i2s_bus := 1;
      dma_buffer_size := 1024;
      sample_rate := DEFAULT_SAMPLE_RATE;
      noise_reduction_enable := true;
      noise_threshold := lit 5 2;
      algorithm := "spectral_subtraction"%string;
      output_device := "headphones"%string;
      volume := lit 8 1;
      enable_serial_logging := true;
      log_file := "/var/log/micarray.log"%string;
      log_level := "INFO"%string |}).

(** [config_validate], for a valid pointer. *)
Definition config_validate (cfg : micarray_config) : Z :=
  if ((num_microphones cfg <? 1) || (MAX_MICROPHONES <? num_microphones cfg))%Z%bool
  then MICARRAY_ERROR_CONFIG
  else if fle (mic_spacing cfg) (of_int 0) then MICARRAY_ERROR_CONFIG
  else if ((dma_buffer_size cfg <=? 0) || (MAX_BUFFER_SIZE <? dma_buffer_size cfg))%Z%bool
  then MICARRAY_ERROR_CONFIG
  else if (sample_rate cfg <=? 0)%Z then MICARRAY_ERROR_CONFIG
  else if (flt (volume cfg) (of_int 0) || fgt (volume cfg) (of_int 1))%bool
  then MICARRAY_ERROR_CONFIG
  else MICARRAY_SUCCESS.

End WithFloat.

Arguments micarray_config F : clear implicits.

(** *** Shapes of text *)

(** Strings of blanks, and strings of the white space that is cut at the
    end of a line. *)
Fixpoint all_blank (s : string) : bool :=
  match s with
  | EmptyString => true
  | String c rest => blank c && all_blank rest
  end.

Fixpoint all_space (s : string) : bool :=
  match s with
  | EmptyString => true
  | String c rest => space c && all_space rest
  end.

(** A string that [trim_whitespace] leaves as it is: it is empty, or it
    starts with no blank and ends with no white space. *)
Definition trimmed_text (s : string) : bool :=
  match s with
  | EmptyString => true
  | String c _ =>
      negb (blank c)
      && match last_char s with Some d => negb (space d) | None => true end
  end.

Fixpoint has_equals (s : string) : bool :=
  match s with
  | EmptyString => false
  | String c rest => (c =? "=")%char || has_equals rest
  end.

(** A key as it stands in a file: trimmed text that is not empty, holds no
    [=] and starts neither a comment nor a header. *)
Definition key_text (s : string) : bool :=
  match s with
  | EmptyString => false
  | String c _ =>
      trimmed_text s && negb (has_equals s) && negb (c =? "#")%char
      && negb (c =? "[")%char
  end.

(** *** The readers of the C library *)

(** [atoi] and [strtof] on the text of a value, with binary32 results. *)

(** [isspace] in the C locale. *)
Definition isspace (c : ascii) : bool :=
  (space c || (c =? ascii_of_nat 11)%char || (c =? ascii_of_nat 12)%char)%bool.

Fixpoint skip_spaces (s : string) : string :=
  match s with
  | EmptyString => EmptyString
  | String c rest => if isspace c then skip_spaces rest else s
  end.

Definition read_sign (s : string) : bool * string :=
  match s with
  | String "-" rest => (true, rest)
  | String "+" rest => (false, rest)
  | _ => (false, s)
  end.

(** The value of a digit in base 10 or 16. *)
Definition digit_of (base : Z) (c : ascii) : option Z :=
  let n := Z.of_nat (nat_of_ascii c) in
  if ((48 <=? n) && (n <=? 57))%bool then Some (n - 48)
  else if ((base =? 16) && (97 <=? n) && (n <=? 102))%bool then Some (n - 87)
  else if ((base =? 16) && (65 <=? n) && (n <=? 70))%bool then Some (n - 55)
  else None.

(** The digits at the start of [s]: the number they spell after [value],
    how many they are, and the text behind them. *)
Fixpoint read_digits (base value count : Z) (s : string) : Z * Z * string :=
  match s with
  | EmptyString => (value, count, s)
  | String c rest =>
      match digit_of base c with
      | Some d => read_digits base (base * value + d) (count + 1) rest
      | None => (value, count, s)
      end
  end.

Definition LONG_MAX : Z := 2 ^ 63 - 1.
Definition LONG_MIN : Z := - 2 ^ 63.

(** [strtol (s, NULL, 10)] with a [long] of 64 bits: white space, a sign,
    digits; a value outside [long] is replaced by the nearest end of its
    range. *)
Definition strtol (s : string) : Z :=
  let '(negative, s1) := read_sign (skip_spaces s) in
  let '(n, _, _) := read_digits 10 0 0 s1 in
  Z.max LONG_MIN (Z.min LONG_MAX (if negative then - n else n)).

(** [atoi (s)] as glibc has it: [(int) strtol (s, NULL, 10)]. *)
Definition libc_atoi (s : string) : Z := to_int32 (strtol s).

(** Digits with at most one point among them: the integer that the digits
    spell, the number of digits in all and behind the point, and the text
    behind them. Without a digit nothing is read. *)
Definition read_mantissa (base : Z) (s : string) : Z * Z * Z * string :=
  let '(m1, c1, s1) := read_digits base 0 0 s in
  let '(m2, c2, s2) :=
    match s1 with
    | String "." rest => read_digits base m1 0 rest
    | _ => (m1, 0, s1)
    end in
  if (c1 + c2 =? 0) then (0, 0, 0, s) else (m2, c1 + c2, c2, s2).

(** An exponent: one of the two marks, a sign and at least one decimal
    digit. *)
Definition read_exponent (lower upper : ascii) (s : string) : Z * string :=
  match s with
  | EmptyString => (0, s)
  | String c rest =>
      if ((c =? lower) || (c =? upper))%char%bool
      then let '(negative, s1) := read_sign rest in
           let '(e, count, s2) := read_digits 10 0 0 s1 in
           if (count =? 0) then (0, s) else (if negative then - e else e, s2)
      else (0, s)
  end.

Definition lower_case (c : ascii) : ascii :=
  let n := nat_of_ascii c in
  if ((65 <=? n) && (n <=? 90))%nat%bool then ascii_of_nat (n + 32) else c.

(** The text behind [word] when [s] starts with it, in either case. *)
Fixpoint after_word (word s : string) : option string :=
  match word, s with
  | EmptyString, _ => Some s
  | String w word', String c s' =>
      if (lower_case c =? w)%char then after_word word' s' else None
  | String _ _, EmptyString => None
  end.

(** The text behind [( n-char-sequence )], when [s] starts with one. *)
Fixpoint after_nan_chars (s : string) : option string :=
  match s with
  | EmptyString => None
  | String c rest =>
      if (c =? ")")%char then Some rest
      else match digit_of 10 c with
           | Some _ => after_nan_chars rest
           | None =>
               let n := nat_of_ascii (lower_case c) in
               if (((97 <=? n) && (n <=? 122))%nat || (c =? "_")%char)%bool
               then after_nan_chars rest else None
           end
  end.

(** [strtof (s, &endptr)]: the value and the text from [endptr] on. White
    space and a sign, then an infinity, a NaN, a hexadecimal or a decimal
    number; when none is there nothing is read and the value is 0. *)
Definition libc_strtof (s : string) : Binary32.binary32 * string :=
  let '(negative, s1) := read_sign (skip_spaces s) in
  match after_word "infinity" s1, after_word "inf" s1, after_word "nan" s1 with
  | Some rest, _, _ => (SpecFloat.S754_infinity negative, rest)
  | None, Some rest, _ => (SpecFloat.S754_infinity negative, rest)
  | None, None, Some rest =>
      (SpecFloat.S754_nan,
       match rest with
       | String "(" inner =>
           match after_nan_chars inner with Some behind => behind | None => rest end
       | _ => rest
       end)
  | None, None, None =>
      let hexadecimal :=
        match after_word "0x" s1 with
        | Some s2 =>
            let '(m, count, behind, s3) := read_mantissa 16 s2 in
            if (count =? 0) then None
            else let '(e, s4) := read_exponent "p" "P" s3 in
                 Some (Binary32.round_binary negative m (e - 4 * behind), s4)
        | None => None
        end in
      match hexadecimal with
      | Some result => result
      | None =>
          let '(m, count, behind, s2) := read_mantissa 10 s1 in
          if (count =? 0) then (SpecFloat.S754_zero false, s)
          else let '(e, s3) := read_exponent "e" "E" s2 in
               (Binary32.round_decimal negative m (e - behind), s3)
      end
  end.

#[export] Instance binary32_libc : Libc Binary32.binary32 :=
  {| atoi := libc_atoi; strtof := libc_strtof |}.

(** The structure as [calloc] leaves it in [micarray_init]. *)
Definition allocated_config : micarray_config Binary32.binary32 :=
  mk_config 0 (SpecFloat.S754_zero false) 0 0 0 false (SpecFloat.S754_zero false)
            EmptyString EmptyString (SpecFloat.S754_zero false) false
            EmptyString EmptyString.

(** *** Sample configurations, in exact arithmetic *)

Import Exact.

(** The same structure over the real numbers, and the defaults. *)
Definition zeroed_config : micarray_config R :=
  mk_config 0 0%R 0 0 0 false 0%R EmptyString EmptyString 0%R false
            EmptyString EmptyString.

Definition default_config : micarray_config R := snd (config_set_defaults zeroed_config).

(** Whether [current_section] is one of the five names that the loop of
    [config_parse_file] compares it with. *)
Definition known_section (name : string) : bool :=
  ((name =? "General") || (name =? "MicrophoneArray") || (name =? "NoiseReduction")
   || (name =? "AudioOutput") || (name =? "Logging"))%string.

(** A line with its line feed, and a small file: a comment, two sections
    with three keys, a key that its section does not know and an empty
    line. *)
Definition text_line (s : string) : string := s ++ String LF EmptyString.

Definition sample_file : list string :=
  map text_line
      [ "# four microphones"; "[MicrophoneArray]"; "  num_microphones = 4";
        "mic_spacing = 20mm"; "[AudioOutput]"; "volume=0.5"; "balance = 1";
        EmptyString ]%string.

End Config.

(** ** The driver ([src/libmicarray.c]) *)

Module MicArray.

Import Config.

(** [micarray_get_error_string]. *)
Definition micarray_get_error_string (error_code : Z) : String.string :=
  if (error_code =? MICARRAY_SUCCESS)%Z then "Success"%string
  else if (error_code =? MICARRAY_ERROR_INIT)%Z then "Initialization error"%string
  else if (error_code =? MICARRAY_ERROR_CONFIG)%Z then "Configuration error"%string
  else if (error_code =? MICARRAY_ERROR_I2S)%Z then "I2S interface error"%string
  else if (error_code =? MICARRAY_ERROR_DMA)%Z then "DMA error"%string
  else if (error_code =? AudioOutput.MICARRAY_ERROR_AUDIO_OUTPUT)%Z
       then "Audio output error"%string
  else if (error_code =? MICARRAY_ERROR_MEMORY)%Z then "Memory allocation error"%string
  else if (error_code =? MICARRAY_ERROR_INVALID_PARAM)%Z then "Invalid parameter"%string
  else "Unknown error"%string.

(** The body of the loop of [audio_callback]: sample [i] of the interleaved
    block goes to microphone [i % M], slot [i / M], when that slot lies in
    the [samples / M] complete frames. [i] is a [size_t]; the [int] [M] is
    converted to [size_t] for both operations. *)
Definition callback_body (num_mics : Z) (data : list Z) (samples : Z)
  (mic_buffers : list (list Z)) (i : Z) : list (list Z) :=
  let mic_idx := to_int32 (Z.rem i (to_size_t num_mics)) in
  let sample_idx := Z.quot i (to_size_t num_mics) in
  if (sample_idx <? Z.quot samples (to_size_t num_mics))%Z
  then upd (Z.to_nat mic_idx)
           (upd (Z.to_nat sample_idx) (nth (Z.to_nat i) data 0)
                (nth (Z.to_nat mic_idx) mic_buffers []))
           mic_buffers
  else mic_buffers.

(** [audio_callback], for a non-null context: nothing is stored unless the
    array runs. *)
Definition audio_callback (running : bool) (num_mics : Z) (data : list Z) (samples : Z)
  (mic_buffers : list (list Z)) : list (list Z) :=
  if negb running then mic_buffers
  else fold_left (callback_body num_mics data samples)
                 (map Z.of_nat (seq 0 (Z.to_nat samples))) mic_buffers.

Section WithFloat.
Context {F : Type} {FO : FloatOps F} {FT : FFTW F} {FL : FloatLe F}.
Local Open Scope float_scope.

(** [struct micarray_context]; the DMA and logging handles and the mutex
    are outside the model. *)
Record micarray_context : Type := mk_context {
  config : micarray_config F;
  i2s_ctx : option I2SDevice.i2s_device;
  noise_ctx : option (NoiseReduction.noise_reduction_context F);
  loc_ctx : option (Localization.localization_context F);
  audio_ctx : option (AudioOutput.audio_output_context F);
  mic_buffers : list (list Z);
  processed_buffer : list Z;
  current_location : sound_location F;
  running : bool
}.

(** *** The components that [micarray_init] configures *)

(** [noise_reduction_config_t noise_config = { ... }]. *)
Definition noise_config_of (cfg : micarray_config F)
  : NoiseReduction.noise_reduction_config F :=
  {| NoiseReduction.algorithm := algorithm cfg;
     NoiseReduction.noise_threshold := noise_threshold cfg;
     NoiseReduction.frame_size := 1024;
     NoiseReduction.overlap := 512;
     NoiseReduction.alpha := of_int 2;
     NoiseReduction.beta := lit 1 1;
     NoiseReduction.sample_rate := sample_rate cfg |}.

(** The positions that the loop before [localization_init] computes: a
    circle of radius [mic_spacing / 1000] in the plane [z = 0]. *)
Definition init_position (cfg : micarray_config F) (i : nat)
  : Localization.microphone_position F :=
  let angle := of_int 2 * M_PI * of_int (Z.of_nat i) / of_int (num_microphones cfg) in
  {| Localization.pos_x := mic_spacing cfg * cosf angle / of_int 1000;
     Localization.pos_y := mic_spacing cfg * sinf angle / of_int 1000;
     Localization.pos_z := of_int 0 |}.

Definition init_positions (cfg : micarray_config F)
  : list (Localization.microphone_position F) :=
  map (init_position cfg) (seq 0 (Z.to_nat (num_microphones cfg))).

(** [localization_config_t loc_config = { ... }]. *)
Definition loc_config_of (cfg : micarray_config F) : Localization.localization_config F :=
  {| Localization.num_microphones := num_microphones cfg;
     Localization.mic_spacing := mic_spacing cfg / of_int 1000;
     Localization.sample_rate := sample_rate cfg;
     Localization.speed_of_sound := of_int 343;
     Localization.correlation_window_size := 1024;
     Localization.min_confidence_threshold := lit 3 1 |}.

(** [audio_output_config_t audio_config = { ... }]. *)
Definition audio_config_of (cfg : micarray_config F) : AudioOutput.audio_output_config F :=
  {| AudioOutput.sample_rate := sample_rate cfg;
     AudioOutput.channels := 2;
     AudioOutput.bits_per_sample := 16;
     AudioOutput.buffer_size := dma_buffer_size cfg;
     AudioOutput.volume := volume cfg |}.

(** The localizer that [micarray_init] makes; [delays] and [confidences]
    stand for the two blocks that [localization_init] allocates. *)
Definition localizer_of (cfg : micarray_config F) (delays confidences : list F)
  : Localization.localization_context F :=
  Localization.localization_init (loc_config_of cfg) (Some (init_positions cfg))
                            delays confidences.

(** *** One round of [processing_thread_func] *)

(** [for (i = 0; i < num_microphones; i++)
       noise_reduction_process (noise_ctx, mic_buffers[i], mic_buffers[i], buffer_size)]:
    every lane is processed in place, through the one shared context. *)
Fixpoint denoise_lanes (fuel : nat) (lanes : list nat)
  (nctx : NoiseReduction.noise_reduction_context F) (buffers : list (list Z))
  (buffer_size : Z)
  : option (NoiseReduction.noise_reduction_context F * list (list Z)) :=
  match lanes with
  | [] => Some (nctx, buffers)
  | i :: rest =>
      match NoiseReduction.noise_reduction_process
              fuel true nctx (nth i buffers []) (nth i buffers []) buffer_size with
      | None => None
      | Some (_, nctx', lane') =>
          denoise_lanes fuel rest nctx' (upd i lane' buffers) buffer_size
      end
  end.

(** The body of [while (ctx->running && !g_shutdown_requested)].
    [frames_written] is what [snd_pcm_writei] returns for the frame. The
    result codes of the three calls are not looked at. *)
Definition processing_round (fuel : nat) (ctx : micarray_context) (frames_written : Z)
  : option micarray_context :=
  let buffer_size := to_size_t (dma_buffer_size (config ctx)) in
  let denoised :=
    match noise_ctx ctx with
    | Some nctx =>
        if noise_reduction_enable (config ctx)
        then match denoise_lanes fuel (seq 0 (Z.to_nat (num_microphones (config ctx))))
                                 nctx (mic_buffers ctx) buffer_size with
             | None => None
             | Some (nctx', buffers') => Some (Some nctx', buffers')
             end
        else Some (Some nctx, mic_buffers ctx)
    | None => Some (None, mic_buffers ctx)
    end in
  match denoised with
  | None => None
  | Some (noise', buffers') =>
      let '(loc', location') :=
        match loc_ctx ctx with
        | Some lctx =>
            let '(_, lctx', location) :=
              Localization.localization_process lctx buffers' buffer_size in
            (Some lctx', location)
        | None => (None, current_location ctx)
        end in
      let processed' :=
        Downmix.downmix (num_microphones (config ctx)) (Z.to_nat buffer_size)
                        buffers' (processed_buffer ctx) in
      let audio' :=
        match audio_ctx ctx with
        | Some actx =>
            Some (snd (AudioOutput.audio_output_write_localized
                         actx processed' buffer_size location' frames_written))
        | None => None
        end in
      Some {| config := config ctx;
              i2s_ctx := i2s_ctx ctx;
              noise_ctx := noise';
              loc_ctx := loc';
              audio_ctx := audio';
              mic_buffers := buffers';
              processed_buffer := processed';
              current_location := location';
              running := running ctx |}
  end.

(** *** Starting and stopping *)

(** What the operating system answers during a start or a stop. *)
Record outcomes : Type := mk_outcomes {
  i2s_thread_created : bool;
  prepare_err : Z;
  processing_thread_created : bool;
  processing_thread_joined : bool;
  drop_err : Z;
  i2s_thread_joined : bool
}.

Definition with_devices (ctx : micarray_context)
  (i2s : option I2SDevice.i2s_device)
  (audio : option (AudioOutput.audio_output_context F)) (run : bool)
  : micarray_context :=
  {| config := config ctx; i2s_ctx := i2s; noise_ctx := noise_ctx ctx;
     loc_ctx := loc_ctx ctx; audio_ctx := audio; mic_buffers := mic_buffers ctx;
     processed_buffer := processed_buffer ctx;
     current_location := current_location ctx; running := run |}.

(** [audio_output_start] and [audio_output_stop] on the handle of the
    context, which may be null. *)
Definition start_audio (audio : option (AudioOutput.audio_output_context F)) (err : Z)
  : Z * option (AudioOutput.audio_output_context F) :=
  match audio with
  | None => (MICARRAY_ERROR_INVALID_PARAM, None)
  | Some a => let '(code, a') := AudioOutput.audio_output_start a err in (code, Some a')
  end.

Definition stop_audio (audio : option (AudioOutput.audio_output_context F)) (err : Z)
  : Z * option (AudioOutput.audio_output_context F) :=
  match audio with
  | None => (MICARRAY_ERROR_INVALID_PARAM, None)
  | Some a => let '(code, a') := AudioOutput.audio_output_stop a err in (code, Some a')
  end.

(** [micarray_start], for a non-null context. *)
Definition micarray_start (ctx : micarray_context) (os : outcomes)
  : Z * micarray_context :=
  if running ctx then (MICARRAY_SUCCESS, ctx)
  else
    let '(r1, i2s1) := I2SDevice.i2s_start (i2s_ctx ctx) (i2s_thread_created os) in
    if negb (r1 =? MICARRAY_SUCCESS)%Z
    then (r1, with_devices ctx i2s1 (audio_ctx ctx) false)
    else
      let '(r2, audio1) := start_audio (audio_ctx ctx) (prepare_err os) in
      if negb (r2 =? MICARRAY_SUCCESS)%Z
      then (r2, with_devices ctx (snd (I2SDevice.i2s_stop i2s1 (i2s_thread_joined os)))
                             audio1 false)
      else if processing_thread_created os
           then (MICARRAY_SUCCESS, with_devices ctx i2s1 audio1 true)
           else (MICARRAY_ERROR_INIT,
                 with_devices ctx
                   (snd (I2SDevice.i2s_stop i2s1 (i2s_thread_joined os)))
                   (snd (stop_audio audio1 (drop_err os))) false).

(** [micarray_stop], for a non-null context. *)
Definition micarray_stop (ctx : micarray_context) (os : outcomes)
  : Z * micarray_context :=
  if negb (running ctx) then (MICARRAY_SUCCESS, ctx)
  else (MICARRAY_SUCCESS,
        with_devices ctx
          (snd (I2SDevice.i2s_stop (i2s_ctx ctx) (i2s_thread_joined os)))
          (snd (stop_audio (audio_ctx ctx) (drop_err os))) false).

(** [micarray_get_location], for valid pointers. *)
Definition micarray_get_location (ctx : micarray_context) : Z * sound_location F :=
  (MICARRAY_SUCCESS, current_location ctx).

(** *** What a caller sees of a context *)

(** The three running flags: of the context, of the capture device and of
    the sink. *)
Definition flags (ctx : micarray_context) : bool * bool * bool :=
  (running ctx, I2SDevice.i2s_is_running (i2s_ctx ctx),
   AudioOutput.audio_output_is_running (audio_ctx ctx)).

(** Both handles are set, as after a [micarray_init] that succeeded. *)
Definition devices_present (ctx : micarray_context) : Prop :=
  i2s_ctx ctx <> None /\ audio_ctx ctx <> None.

(** The samples that the capture ring holds. *)
Definition buffered (ctx : micarray_context) : list Z :=
  match i2s_ctx ctx with
  | Some d => I2S.contents (I2SDevice.ring d)
  | None => []
  end.

End WithFloat.

Arguments micarray_context F : clear implicits.

(** *** A small array, in exact arithmetic *)

Import Exact.
#[local] Existing Instance NoiseReduction.R_fftw.

(** Four microphones with blocks of two samples; the denoiser passes frames
    of four samples through, the localizer is the square of
    [Localization.quad_context], and the sink holds two stereo frames. *)
Definition sample_config : micarray_config R :=
  set_dma_buffer_size 2 (set_num_microphones 4 default_config).

Definition idle_context : micarray_context R :=
  {| config := sample_config;
     i2s_ctx := Some (I2SDevice.mk_device (I2S.i2s_init 2) false);
     noise_ctx := Some NoiseReduction.passthrough_context;
     loc_ctx := Some Localization.quad_context;
     audio_ctx :=
       Some {| AudioOutput.config := audio_config_of sample_config;
               AudioOutput.running := false;
               AudioOutput.output_buffer := [0; 0; 0; 0];
               AudioOutput.buffer_frames := 2 |};
     mic_buffers := [[100; 200]; [300; 400]; [-100; -200]; [-300; -400]];
     processed_buffer := [0; 0];
     current_location := Localization.origin 0%R;
     running := false |}.

(** Every call to the operating system succeeds. *)
Definition all_well : outcomes :=
  {| i2s_thread_created := true; prepare_err := 0; processing_thread_created := true;
     processing_thread_joined := true; drop_err := 0; i2s_thread_joined := true |}.

Definition live_context : micarray_context R := snd (micarray_start idle_context all_well).

(** The sink of [live_context]. *)
Definition live_sink : AudioOutput.audio_output_context R :=
  {| AudioOutput.config := audio_config_of sample_config;
     AudioOutput.running := true;
     AudioOutput.output_buffer := [0; 0; 0; 0];
     AudioOutput.buffer_frames := 2 |}.

End MicArray.


(** * Properties *)

Module CIntFacts.

Import CInt.

Lemma to_int16_id (x : Z) : -32768 <= x <= 32767 -> to_int16 x = x.
Proof.
  intros H. unfold to_int16, wrap_signed.
  change (2 ^ (16 - 1)) with 32768. change (2 ^ 16) with 65536.
  rewrite Z.mod_small; lia.
Qed.

Lemma to_int32_id (x : Z) : -2147483648 <= x <= 2147483647 -> to_int32 x = x.
Proof.
  intros H. unfold to_int32, wrap_signed.
  change (2 ^ (32 - 1)) with 2147483648. change (2 ^ 32) with 4294967296.
  rewrite Z.mod_small; lia.
Qed.

Lemma to_size_t_id (x : Z) : 0 <= x < 2 ^ 64 -> to_size_t x = x.
Proof. intros H. unfold to_size_t, wrap_unsigned. now apply Z.mod_small. Qed.

Lemma to_int16_range (x : Z) : -32768 <= to_int16 x <= 32767.
Proof.
  unfold to_int16, wrap_signed.
  change (2 ^ (16 - 1)) with 32768. change (2 ^ 16) with 65536.
  pose proof (Z.mod_pos_bound (x + 32768) 65536 ltac:(lia)). lia.
Qed.

End CIntFacts.

Import CIntFacts.

Lemma length_upd {A} (i : nat) (v : A) (l : list A) :
  length (upd i v l) = length l.
Proof.
  revert i; induction l as [|h t IH]; intros [|i]; simpl; auto.
Qed.

Lemma nth_upd_same {A} (i : nat) (v d : A) (l : list A) :
  (i < length l)%nat -> nth i (upd i v l) d = v.
Proof.
  revert i; induction l as [|h t IH]; intros [|i] H; simpl in *; try lia; auto.
  apply IH; lia.
Qed.

Lemma nth_upd_other {A} (i j : nat) (v d : A) (l : list A) :
  i <> j -> nth j (upd i v l) d = nth j l d.
Proof.
  revert i j; induction l as [|h t IH]; intros [|i] [|j] H; simpl; auto; try lia.
Qed.

Lemma upd_split {A} (i : nat) (v : A) (l : list A) :
  (i < length l)%nat -> upd i v l = firstn i l ++ v :: skipn (S i) l.
Proof.
  revert i; induction l as [|h t IH]; intros [|i] H; simpl in *; try lia; auto.
  f_equal. apply IH. lia.
Qed.

Module DownmixFacts.

Import Downmix.

Lemma length_downmix_body M p lane j : length (downmix_body M p lane j) = length p.
Proof. apply length_upd. Qed.

Lemma length_downmix_lane M B p lane : length (downmix_lane M B p lane) = length p.
Proof.
  unfold downmix_lane. generalize (seq 0 B) as js. intros js; revert p.
  induction js as [|j js IH]; intros p; simpl; auto.
  rewrite IH. apply length_downmix_body.
Qed.

Lemma length_memset0 n l : length (memset0 n l) = length l.
Proof.
  unfold memset0. rewrite length_app, repeat_length, length_skipn. lia.
Qed.

Lemma nth_memset0 n l j : (j < n)%nat -> (j < length l)%nat -> nth j (memset0 n l) 0 = 0.
Proof.
  intros Hn Hl. unfold memset0.
  rewrite app_nth1 by (rewrite repeat_length; lia).
  apply nth_repeat.
Qed.

(** The inner loop over a set of indices touches exactly those indices. *)
Lemma nth_fold_body M lane (js : list nat) p j :
  NoDup js -> (forall k, In k js -> (k < length p)%nat) ->
  nth j (fold_left (fun p j => downmix_body M p lane j) js p) 0 =
  if in_dec Nat.eq_dec j js
  then to_int16 (Z.quot (to_int32 (nth j p 0 + nth j lane 0)) M)
  else nth j p 0.
Proof.
  revert p. induction js as [|k js IH]; intros p Hnd Hlen; simpl fold_left.
  - destruct (in_dec Nat.eq_dec j []) as [[]|]; reflexivity.
  - inversion Hnd as [|? ? Hk Hnd']; subst.
    rewrite IH; auto.
    2:{ intros k' Hk'. rewrite length_downmix_body. apply Hlen. now right. }
    destruct (in_dec Nat.eq_dec j js) as [Hin|Hnin];
      destruct (in_dec Nat.eq_dec j (k :: js)) as [Hin'|Hnin']; simpl in *.
    + assert (k <> j) by (intros ->; contradiction).
      unfold downmix_body. now rewrite nth_upd_other.
    + exfalso. apply Hnin'. now right.
    + destruct Hin' as [->|Hin']; [|contradiction].
      unfold downmix_body. rewrite nth_upd_same by (apply Hlen; now left).
      reflexivity.
    + assert (k <> j) by (intros ->; apply Hnin'; now left).
      unfold downmix_body. now rewrite nth_upd_other.
Qed.

Lemma nth_downmix_lane M B p lane j :
  (B <= length p)%nat -> (j < B)%nat ->
  nth j (downmix_lane M B p lane) 0 =
  to_int16 (Z.quot (to_int32 (nth j p 0 + nth j lane 0)) M).
Proof.
  intros HB Hj. unfold downmix_lane. rewrite nth_fold_body.
  - destruct (in_dec Nat.eq_dec j (seq 0 B)) as [|Hn]; auto.
    exfalso. apply Hn. apply in_seq. lia.
  - apply seq_NoDup.
  - intros k Hk. apply in_seq in Hk. lia.
Qed.

Lemma nth_fold_lanes M B mic_buffers (idxs : list nat) p acc j :
  (B <= length p)%nat -> (j < B)%nat -> nth j p 0 = acc ->
  nth j (fold_left (fun p i => downmix_lane M B p (nth i mic_buffers [])) idxs p) 0 =
  fold_left (fun acc i =>
               to_int16 (Z.quot (to_int32 (acc + nth j (nth i mic_buffers []) 0)) M))
            idxs acc.
Proof.
  revert p acc. induction idxs as [|i idxs IH]; intros p acc HB Hj Hacc; simpl; auto.
  apply IH; auto.
  - now rewrite length_downmix_lane.
  - rewrite nth_downmix_lane by lia. now rewrite Hacc.
Qed.

(** The loop computes the running quotient in every slot of the block. *)
Lemma downmix_running_quotient M B mic_buffers processed j :
  (B <= length processed)%nat -> (j < B)%nat ->
  nth j (downmix M B mic_buffers processed) 0 = running_quotient M mic_buffers j.
Proof.
  intros HB Hj. unfold downmix, running_quotient.
  apply nth_fold_lanes; auto.
  - rewrite length_memset0; lia.
  - apply nth_memset0; lia.
Qed.

(** With a single microphone the loop is the identity on the lane, so the
    mean is met there. *)
Lemma downmix_single_lane B lane processed j :
  (B <= length processed)%nat -> (j < B)%nat ->
  -32768 <= nth j lane 0 <= 32767 ->
  nth j (downmix 1 B [lane] processed) 0 = mean_at 1 [lane] j.
Proof.
  intros HB Hj Hr. rewrite downmix_running_quotient by assumption.
  unfold running_quotient, mean_at, lane_sum. simpl.
  rewrite to_int32_id by lia. rewrite !Z.quot_1_r. now rewrite to_int16_id.
Qed.

(** C1 (code defect): with two microphones that both hold the sample 100 the
    processing loop stores 75 in the mono buffer, whereas the arithmetic mean
    of the two lanes is 100: the loop divides the running value by the number
    of microphones after every lane instead of dividing the sum once. *)
Theorem downmix_is_not_the_mean :
  downmix 2 1 [[100]; [100]] [0] = [75] /\
  running_quotient 2 [[100]; [100]] 0 = 75 /\
  mean_at 2 [[100]; [100]] 0 = 100.
Proof. repeat split; vm_compute; reflexivity. Qed.


(** *** The range of the downmix *)

Lemma quot_halves (v lo hi M : Z) :
  2 <= M -> lo <= 0 <= hi -> 2 * lo <= v <= 2 * hi -> lo <= Z.quot v M <= hi.
Proof.
  intros HM Hr Hv. destruct (Z.le_gt_cases 0 v) as [Hp|Hn].
  - rewrite Z.quot_div_nonneg by lia. split.
    + pose proof (Z.div_pos v M Hp ltac:(lia)). lia.
    + apply Z.div_le_upper_bound; nia.
  - replace v with (- (- v)) by lia. rewrite Z.quot_opp_l by lia.
    rewrite Z.quot_div_nonneg by lia. split.
    + assert (- v / M <= - lo); [|lia]. apply Z.div_le_upper_bound; nia.
    + pose proof (Z.div_pos (- v) M ltac:(lia) ltac:(lia)). lia.
Qed.

Lemma running_quotient_range (M : Z) (mic_buffers : list (list Z)) (j : nat) (lo hi : Z) :
  1 <= M -> -32768 <= lo <= 0 -> 0 <= hi <= 32767 ->
  (forall i, (i < Z.to_nat M)%nat -> lo <= nth j (nth i mic_buffers []) 0 <= hi) ->
  lo <= running_quotient M mic_buffers j <= hi.
Proof.
  intros HM Hlo Hhi Hin. unfold running_quotient.
  destruct (Z.eq_dec M 1) as [->|HM1].
  - change (seq 0 (Z.to_nat 1)) with [0%nat]. cbn [fold_left].
    specialize (Hin 0%nat ltac:(simpl; lia)). rewrite ?Z.add_0_l.
    rewrite to_int32_id by lia. rewrite Z.quot_1_r. rewrite to_int16_id; lia.
  - assert (H : forall n, (n <= Z.to_nat M)%nat ->
                lo <= fold_left (fun acc i =>
                          to_int16 (Z.quot (to_int32 (acc + nth j (nth i mic_buffers []) 0)) M))
                        (seq 0 n) 0 <= hi).
    { induction n as [|n IH]; intros Hn; [simpl; lia|].
      rewrite seq_S, fold_left_app. cbn [fold_left Nat.add].
      specialize (IH ltac:(lia)). specialize (Hin n ltac:(lia)).
      set (acc := fold_left _ (seq 0 n) 0) in *.
      rewrite to_int32_id by lia.
      pose proof (quot_halves (acc + nth j (nth n mic_buffers []) 0) lo hi M
                    ltac:(lia) ltac:(lia) ltac:(lia)).
      rewrite to_int16_id; lia. }
    apply H. lia.
Qed.

Lemma nth_downmix_beyond (M : Z) (B : nat) (mic_buffers : list (list Z))
  (processed : list Z) (j : nat) :
  (B <= j)%nat -> nth j (downmix M B mic_buffers processed) 0 = nth j processed 0.
Proof.
  intros Hj. unfold downmix.
  assert (H0 : nth j (memset0 B processed) 0 = nth j processed 0).
  { unfold memset0. destruct (Nat.le_gt_cases (length processed) j) as [Hl|Hl].
    - rewrite !nth_overflow; auto. rewrite length_app, repeat_length, length_skipn. lia.
    - rewrite app_nth2 by (rewrite repeat_length; lia).
      rewrite repeat_length, Nat.min_l by lia. rewrite nth_skipn. f_equal. lia. }
  rewrite <- H0. generalize (memset0 B processed) as p.
  generalize (seq 0 (Z.to_nat M)) as lanes.
  induction lanes as [|i lanes IH]; intros p; [reflexivity|].
  cbn [fold_left]. rewrite IH. unfold downmix_lane.
  assert (H : forall js p0, (forall k, In k js -> k <> j) ->
            nth j (fold_left (fun p1 j0 => downmix_body M p1 (nth i mic_buffers []) j0)
                             js p0) 0 = nth j p0 0).
  { induction js as [|k js IHj]; intros p0 Hk; [reflexivity|].
    cbn [fold_left]. rewrite IHj by (intros k' Hk'; apply Hk; now right).
    unfold downmix_body. apply nth_upd_other. apply Hk. now left. }
  apply H. intros k Hk. apply in_seq in Hk. lia.
Qed.

(** X1: the downmix loop of [processing_thread_func] keeps the size of
    [processed_buffer]; for one microphone and more, every cell [j] below the
    block size lies in any range [lo .. hi] around 0 that holds sample [j] of
    every lane, so that the narrowing to [int16_t] never wraps; the cells from
    the block size on are left as they were. *)
Theorem downmix_within_input_range (M : Z) (B : nat) (mic_buffers : list (list Z))
  (processed : list Z) (j : nat) (lo hi : Z) :
  1 <= M -> (B <= length processed)%nat ->
  -32768 <= lo <= 0 -> 0 <= hi <= 32767 ->
  (forall i, (i < Z.to_nat M)%nat -> lo <= nth j (nth i mic_buffers []) 0 <= hi) ->
  length (downmix M B mic_buffers processed) = length processed /\
  ((j < B)%nat -> lo <= nth j (downmix M B mic_buffers processed) 0 <= hi) /\
  ((B <= j)%nat -> nth j (downmix M B mic_buffers processed) 0 = nth j processed 0).
Proof.
  intros HM HB Hlo Hhi Hin. split; [|split].
  - unfold downmix. rewrite <- (length_memset0 B processed).
    generalize (memset0 B processed) as p. generalize (seq 0 (Z.to_nat M)) as lanes.
    induction lanes as [|i lanes IH]; intros p; [reflexivity|].
    cbn [fold_left]. rewrite IH. apply length_downmix_lane.
  - intros Hj. rewrite downmix_running_quotient by assumption.
    now apply running_quotient_range.
  - apply nth_downmix_beyond.
Qed.

Lemma downmix_within_input_range_witness :
  1 <= 2 /\ (2 <= length [9; 9; 9])%nat /\
  -32768 <= -100 <= 0 /\ 0 <= 300 <= 32767 /\
  (forall i, (i < Z.to_nat 2)%nat ->
             -100 <= nth 0 (nth i [[300; 5]; [-100; 6]] []) 0 <= 300) /\
  -100 <= nth 0 (downmix 2 2 [[300; 5]; [-100; 6]] [9; 9; 9]) 0 <= 300.
Proof.
  assert (H1 : 1 <= 2) by lia.
  assert (H2 : (2 <= length [9; 9; 9])%nat) by (simpl; lia).
  assert (H3 : -32768 <= -100 <= 0) by lia.
  assert (H4 : 0 <= 300 <= 32767) by lia.
  assert (H5 : forall i, (i < Z.to_nat 2)%nat ->
                         -100 <= nth 0 (nth i [[300; 5]; [-100; 6]] []) 0 <= 300).
  { intros [|[|i]] Hi; simpl in *; lia. }
  split; [exact H1|split; [exact H2|split; [exact H3|split; [exact H4|split; [exact H5|]]]]].
  refine (proj1 (proj2 (downmix_within_input_range 2 2 [[300; 5]; [-100; 6]] [9; 9; 9]
                          0 (-100) 300 H1 H2 H3 H4 H5)) _).
  lia.
Defined.

End DownmixFacts.

Module I2SFacts.

Import I2S.

(** *** Arithmetic of positions on the ring *)

Lemma mod_wrap (n a : Z) :
  0 < n -> 0 <= a < 2 * n -> a mod n = if a <? n then a else a - n.
Proof.
  intros Hn Ha. destruct (a <? n) eqn:E.
  - apply Z.ltb_lt in E. apply Z.mod_small. lia.
  - apply Z.ltb_ge in E.
    replace a with ((a - n) + 1 * n) at 1 by lia.
    rewrite Z.mod_add by lia. apply Z.mod_small. lia.
Qed.

Lemma firstn_upd_S {A} (i : nat) (x : A) (l : list A) :
  (i < length l)%nat -> firstn (S i) (upd i x l) = firstn i l ++ [x].
Proof.
  revert i. induction l as [|h t IH]; intros [|i] H; simpl in *; try lia; auto.
  f_equal. apply IH. lia.
Qed.

Lemma skipn_upd_lt {A} (i k : nat) (x : A) (l : list A) :
  (i < k)%nat -> skipn k (upd i x l) = skipn k l.
Proof.
  revert i k. induction l as [|h t IH]; intros [|i] [|k] H; simpl; auto; try lia.
  apply IH. lia.
Qed.

Lemma length_contents ctx :
  length (contents ctx) = Z.to_nat (available_samples ctx).
Proof. unfold contents. now rewrite length_map, length_seq. Qed.

(** *** One sample in, one sample out *)

Lemma push_sample_ok (x : Z) (ctx : i2s_context) :
  ring_ok ctx -> available_samples ctx < ring_buffer_size ctx ->
  ring_ok (push_sample x ctx) /\
  contents (push_sample x ctx) = contents ctx ++ [x] /\
  available_samples (push_sample x ctx) = available_samples ctx + 1.
Proof.
  intros [Hs Hl Hr Ha Hw] Hlt. unfold INT_MAX in Hs.
  assert (Hwr : 0 <= write_pos ctx < ring_buffer_size ctx)
    by (rewrite Hw; apply Z.mod_pos_bound; lia).
  assert (E1 : to_size_t (write_pos ctx + 1) = write_pos ctx + 1)
    by (apply to_size_t_id; change (2 ^ 64) with 18446744073709551616; lia).
  assert (E2 : to_size_t (available_samples ctx + 1) = available_samples ctx + 1)
    by (apply to_size_t_id; change (2 ^ 64) with 18446744073709551616; lia).
  split; [|split].
  - constructor; simpl; rewrite ?E1, ?E2; unfold INT_MAX; try lia.
    + rewrite length_upd. exact Hl.
    + rewrite Hw, Zplus_mod_idemp_l. f_equal. lia.
  - unfold contents; simpl. rewrite E2.
    replace (Z.to_nat (available_samples ctx + 1))
      with (Z.to_nat (available_samples ctx) + 1)%nat by lia.
    rewrite seq_app, map_app. simpl. f_equal.
    + apply map_ext_in. intros k Hk. apply in_seq in Hk.
      apply nth_upd_other. rewrite Hw.
      rewrite (mod_wrap _ (read_pos ctx + available_samples ctx)) by lia.
      rewrite (mod_wrap _ (read_pos ctx + Z.of_nat k)) by lia.
      destruct (Z.ltb_spec (read_pos ctx + available_samples ctx) (ring_buffer_size ctx));
        destruct (Z.ltb_spec (read_pos ctx + Z.of_nat k) (ring_buffer_size ctx)); lia.
    + f_equal. rewrite Z2Nat.id by lia. rewrite <- Hw.
      apply nth_upd_same. lia.
  - simpl. exact E2.
Qed.

Lemma pop_sample_ok (i : nat) (buffer : list Z) (ctx : i2s_context) :
  ring_ok ctx -> 0 < available_samples ctx ->
  ring_ok (snd (pop_sample i (buffer, ctx))) /\
  contents ctx =
    nth (Z.to_nat (read_pos ctx)) (ring_buffer ctx) 0
      :: contents (snd (pop_sample i (buffer, ctx))) /\
  available_samples (snd (pop_sample i (buffer, ctx))) = available_samples ctx - 1.
Proof.
  intros [Hs Hl Hr Ha Hw] Hlt. unfold INT_MAX in Hs.
  assert (E1 : to_size_t (read_pos ctx + 1) = read_pos ctx + 1)
    by (apply to_size_t_id; change (2 ^ 64) with 18446744073709551616; lia).
  assert (E2 : to_size_t (available_samples ctx - 1) = available_samples ctx - 1)
    by (apply to_size_t_id; change (2 ^ 64) with 18446744073709551616; lia).
  split; [|split].
  - constructor; simpl; rewrite ?E1, ?E2; unfold INT_MAX; try lia; auto.
    + apply Z.mod_pos_bound. lia.
    + rewrite Hw, Zplus_mod_idemp_l. f_equal. lia.
  - unfold contents; simpl. rewrite E1, E2.
    replace (Z.to_nat (available_samples ctx))
      with (S (Z.to_nat (available_samples ctx - 1))) by lia.
    rewrite <- cons_seq, <- seq_shift, map_cons, map_map. f_equal.
    + rewrite Z.add_0_r, Z.mod_small by lia. reflexivity.
    + apply map_ext. intros k. rewrite Zplus_mod_idemp_l. do 3 f_equal. lia.
  - simpl. exact E2.
Qed.

(** *** The two loops *)

Lemma ring_push_ok (temp : list Z) (ctx : i2s_context) :
  ring_ok ctx ->
  ring_ok (ring_push temp ctx) /\
  contents (ring_push temp ctx) =
    contents ctx
      ++ firstn (Z.to_nat (ring_buffer_size ctx - available_samples ctx)) temp /\
  available_samples (ring_push temp ctx) =
    Z.min (ring_buffer_size ctx) (available_samples ctx + Z.of_nat (length temp)) /\
  ring_buffer_size (ring_push temp ctx) = ring_buffer_size ctx.
Proof.
  revert ctx. induction temp as [|x rest IH]; intros ctx Hok; simpl.
  - pose proof (ok_avail _ Hok).
    split; [exact Hok|split; [|split]]; try lia.
    now rewrite firstn_nil, app_nil_r.
  - destruct (available_samples ctx <? ring_buffer_size ctx) eqn:E.
    + apply Z.ltb_lt in E.
      destruct (push_sample_ok x ctx Hok E) as (Hok' & Hc & Hav).
      destruct (IH _ Hok') as (Hok'' & Hc' & Hav' & Hsz').
      split; [exact Hok''|split; [|split]].
      * change (ring_buffer_size (push_sample x ctx)) with (ring_buffer_size ctx) in Hc'.
        rewrite Hav in Hc'. rewrite Hc', Hc, <- app_assoc. f_equal.
        replace (Z.to_nat (ring_buffer_size ctx - available_samples ctx))
          with (S (Z.to_nat (ring_buffer_size ctx - (available_samples ctx + 1))))
          by lia.
        reflexivity.
      * change (ring_buffer_size (push_sample x ctx)) with (ring_buffer_size ctx) in Hav'.
        rewrite Hav', Hav. lia.
      * rewrite Hsz'. reflexivity.
    + apply Z.ltb_ge in E. pose proof (ok_avail _ Hok).
      split; [exact Hok|split; [|split]]; try lia.
      replace (ring_buffer_size ctx - available_samples ctx) with 0 by lia.
      simpl. now rewrite app_nil_r.
Qed.

Lemma read_loop_ok (n i : nat) (buffer : list Z) (ctx : i2s_context) :
  ring_ok ctx -> Z.of_nat n <= available_samples ctx ->
  ring_ok (snd (read_loop n i (buffer, ctx))) /\
  contents (snd (read_loop n i (buffer, ctx))) = skipn n (contents ctx) /\
  available_samples (snd (read_loop n i (buffer, ctx))) =
    available_samples ctx - Z.of_nat n /\
  ring_buffer_size (snd (read_loop n i (buffer, ctx))) = ring_buffer_size ctx /\
  ((i + n <= length buffer)%nat ->
   fst (read_loop n i (buffer, ctx)) =
     firstn i buffer ++ firstn n (contents ctx) ++ skipn (i + n) buffer).
Proof.
  revert i buffer ctx. induction n as [|n IH]; intros i buffer ctx Hok Hn.
  - simpl. split; [exact Hok|split; [|split; [|split]]]; auto; try lia.
    intros _. rewrite Nat.add_0_r. now rewrite firstn_skipn.
  - change (read_loop (S n) i (buffer, ctx))
      with (read_loop n (S i) (pop_sample i (buffer, ctx))).
    destruct (pop_sample_ok i buffer ctx Hok ltac:(lia)) as (Hok' & Hc & Hav).
    destruct (pop_sample i (buffer, ctx)) as [b1 c1] eqn:Ep.
    assert (Eb : b1 = upd i (nth (Z.to_nat (read_pos ctx)) (ring_buffer ctx) 0) buffer)
      by (unfold pop_sample in Ep; now inversion Ep).
    assert (Es : ring_buffer_size c1 = ring_buffer_size ctx)
      by (unfold pop_sample in Ep; inversion Ep; reflexivity).
    simpl in Hok', Hc, Hav.
    destruct (IH (S i) b1 c1 Hok' ltac:(lia)) as (Hok'' & Hc' & Hav' & Hsz' & Hb').
    split; [exact Hok''|split; [|split; [|split]]].
    + rewrite Hc', Hc. reflexivity.
    + lia.
    + congruence.
    + intros Hlen. rewrite Hb' by (rewrite Eb, length_upd; lia).
      rewrite Hc, Eb.
      rewrite firstn_upd_S by lia. rewrite skipn_upd_lt by lia.
      rewrite <- app_assoc, firstn_cons.
      replace (i + S n)%nat with (S i + n)%nat by lia. reflexivity.
Qed.

Lemma ring_ok_start (B : Z) : 0 < B <= 8192 -> ring_ok (i2s_start (i2s_init B)).
Proof.
  intros HB.
  assert (E : to_size_t (to_int32 (B * 4)) = B * 4).
  { rewrite to_int32_id by lia. apply to_size_t_id.
    change (2 ^ 64) with 18446744073709551616. lia. }
  constructor; unfold i2s_start, i2s_init; simpl; rewrite ?E; unfold INT_MAX; try lia.
  - rewrite repeat_length. lia.
  - rewrite Z.mod_0_l; lia.
Qed.

Lemma ring_step_ok (ctx : i2s_context) (op : ring_op) :
  ring_ok ctx ->
  ring_ok (ring_step ctx op) /\
  ring_buffer_size (ring_step ctx op) = ring_buffer_size ctx.
Proof.
  intros Hok. destruct op as [temp | buffer samples]; simpl.
  - destruct (ring_push_ok temp ctx Hok) as (H1 & _ & _ & H2). auto.
  - unfold i2s_read_samples.
    set (n := if samples <? available_samples ctx then samples
              else available_samples ctx).
    assert (Hn : Z.of_nat (Z.to_nat n) <= available_samples ctx).
    { pose proof (ok_avail _ Hok). subst n.
      destruct (samples <? available_samples ctx) eqn:E;
        [apply Z.ltb_lt in E|]; lia. }
    destruct (read_loop_ok (Z.to_nat n) 0 buffer ctx Hok Hn) as (H1 & _ & _ & H2 & _).
    destruct (read_loop (Z.to_nat n) 0 (buffer, ctx)) as [b c]. simpl in *. auto.
Qed.

Lemma ring_trace_ok (ops : list ring_op) (ctx : i2s_context) :
  ring_ok ctx ->
  Forall (fun c => ring_ok c /\ ring_buffer_size c = ring_buffer_size ctx)
         (ring_trace ops ctx).
Proof.
  revert ctx. induction ops as [|op ops IH]; intros ctx Hok; simpl; constructor.
  - now apply ring_step_ok.
  - destruct (ring_step_ok ctx op Hok) as [H1 H2].
    eapply Forall_impl; [|apply IH; exact H1].
    intros c [Hc Hs]. split; auto. congruence.
Qed.

(** Pushing chunk after chunk: what is buffered and what is lost. *)
Lemma push_chunks_account (chunks : list (list Z)) (ctx : i2s_context) :
  ring_ok ctx ->
  available_samples (ring_run (map Push chunks) ctx) =
    Z.min (ring_buffer_size ctx)
          (available_samples ctx + Z.of_nat (length (concat chunks))) /\
  available_samples (ring_run (map Push chunks) ctx) + dropped chunks ctx =
    available_samples ctx + Z.of_nat (length (concat chunks)).
Proof.
  revert ctx. induction chunks as [|c rest IH]; intros ctx Hok; simpl.
  - pose proof (ok_avail _ Hok). split; lia.
  - destruct (ring_push_ok c ctx Hok) as (Hok' & _ & Hav & Hsz).
    destruct (IH _ Hok') as [H1 H2]. unfold ring_run in *. simpl.
    rewrite length_app, Nat2Z.inj_add. unfold accepted.
    pose proof (ok_avail _ Hok). split; [rewrite H1, Hsz, Hav|]; lia.
Qed.

(** C5: on the ring that [i2s_init] makes for a frame size [B] (capacity
    [4 * B]), after every operation of every sequence of pushes and pops the
    count of buffered samples lies between 0 and the capacity; and when
    [10 * capacity] samples are pushed, in whatever chunks, with no pop, the
    ring holds exactly [capacity] samples and [9 * capacity] were dropped. *)
Theorem ring_available_bounded (B : Z) (ops : list ring_op) (chunks : list (list Z)) :
  0 < B <= 8192 ->
  ring_buffer_size (i2s_start (i2s_init B)) = 4 * B /\
  Forall (fun c => 0 <= available_samples c <= ring_buffer_size c /\
                   ring_buffer_size c = 4 * B)
         (ring_trace ops (i2s_start (i2s_init B))) /\
  (Z.of_nat (length (concat chunks)) = 10 * (4 * B) ->
   available_samples (ring_run (map Push chunks) (i2s_start (i2s_init B))) = 4 * B /\
   dropped chunks (i2s_start (i2s_init B)) = 9 * (4 * B)).
Proof.
  intros HB. pose proof (ring_ok_start B HB) as Hok.
  assert (Hsz : ring_buffer_size (i2s_start (i2s_init B)) = 4 * B).
  { unfold i2s_start, i2s_init; cbn [ring_buffer_size].
    rewrite to_int32_id by lia. rewrite to_size_t_id; [lia|].
    change (2 ^ 64) with 18446744073709551616. lia. }
  split; [exact Hsz|split].
  - eapply Forall_impl; [|apply ring_trace_ok; exact Hok].
    intros c [Hc Hs]. pose proof (ok_avail _ Hc). split; [lia|congruence].
  - intros Hlen. destruct (push_chunks_account chunks _ Hok) as [H1 H2].
    rewrite Hlen, Hsz in *. change (available_samples (i2s_start (i2s_init B))) with 0 in *.
    lia.
Qed.

Lemma ring_available_bounded_witness :
  0 < 1 <= 8192 /\
  ring_buffer_size (i2s_start (i2s_init 1)) = 4 * 1 /\
  Forall (fun c => 0 <= available_samples c <= ring_buffer_size c /\
                   ring_buffer_size c = 4 * 1)
         (ring_trace [Push [1; 2; 3; 4; 5; 6]; Pop [0; 0; 0] 3; Push [7; 8]]
                     (i2s_start (i2s_init 1))) /\
  (Z.of_nat (length (concat [repeat 7 30; repeat 9 10])) = 10 * (4 * 1) ->
   available_samples
     (ring_run (map Push [repeat 7 30; repeat 9 10]) (i2s_start (i2s_init 1))) = 4 * 1 /\
   dropped [repeat 7 30; repeat 9 10] (i2s_start (i2s_init 1)) = 9 * (4 * 1)).
Proof.
  split; [lia|].
  apply (ring_available_bounded 1
           [Push [1; 2; 3; 4; 5; 6]; Pop [0; 0; 0] 3; Push [7; 8]]
           [repeat 7 30; repeat 9 10]).
  lia.
Defined.

(** C8: on a well-formed ring, [i2s_read_samples] returns
    [min (samples, available)]; the samples it stores at the front of the
    caller's buffer are the oldest buffered ones in the order in which they
    were pushed (a push appends to the buffered sequence, a read takes its
    prefix and leaves the rest), the rest of the caller's buffer is untouched,
    and [available_samples] decreases by the returned count. *)
Theorem i2s_read_samples_fifo (ctx : i2s_context) (buffer : list Z) (samples : Z) :
  ring_ok ctx -> 0 <= samples <= Z.of_nat (length buffer) ->
  let n := Z.min samples (available_samples ctx) in
  let '(ret, buffer', ctx') := i2s_read_samples ctx buffer samples in
  ret = n /\
  buffer' = firstn (Z.to_nat n) (contents ctx) ++ skipn (Z.to_nat n) buffer /\
  contents ctx' = skipn (Z.to_nat n) (contents ctx) /\
  available_samples ctx' = available_samples ctx - n /\
  ring_ok ctx' /\
  (forall temp,
     contents (ring_push temp ctx) =
       contents ctx
         ++ firstn (Z.to_nat (ring_buffer_size ctx - available_samples ctx)) temp).
Proof.
  intros Hok Hs n. unfold i2s_read_samples.
  pose proof (ok_avail _ Hok) as Ha. pose proof (ok_size _ Hok) as Hsz.
  unfold INT_MAX in Hsz.
  assert (En : (if samples <? available_samples ctx then samples
                else available_samples ctx) = n).
  { subst n. destruct (Z.ltb_spec samples (available_samples ctx)); lia. }
  rewrite En.
  destruct (read_loop_ok (Z.to_nat n) 0 buffer ctx Hok ltac:(lia))
    as (H1 & H2 & H3 & _ & H5).
  destruct (read_loop (Z.to_nat n) 0 (buffer, ctx)) as [b c]. simpl in *.
  split; [|split; [|split; [|split; [|split]]]]; auto.
  - apply to_int32_id. lia.
  - apply H5. lia.
  - lia.
  - intros temp. apply ring_push_ok. exact Hok.
Qed.

Lemma i2s_read_samples_fifo_witness :
  let ctx := ring_push [11; 12; 13] (i2s_start (i2s_init 1)) in
  let buffer := [0; 0; 0] in
  ring_ok ctx /\ 0 <= 2 <= Z.of_nat (length buffer) /\
  (let n := Z.min 2 (available_samples ctx) in
   let '(ret, buffer', ctx') := i2s_read_samples ctx buffer 2 in
   ret = n /\
   buffer' = firstn (Z.to_nat n) (contents ctx) ++ skipn (Z.to_nat n) buffer /\
   contents ctx' = skipn (Z.to_nat n) (contents ctx) /\
   available_samples ctx' = available_samples ctx - n /\
   ring_ok ctx' /\
   (forall temp,
      contents (ring_push temp ctx) =
        contents ctx
          ++ firstn (Z.to_nat (ring_buffer_size ctx - available_samples ctx)) temp)).
Proof.
  intros ctx buffer.
  assert (Hok : ring_ok ctx).
  { apply ring_push_ok. apply ring_ok_start. lia. }
  assert (Hs : 0 <= 2 <= Z.of_nat (length buffer)) by (simpl; lia).
  split; [exact Hok|split; [exact Hs|]].
  exact (i2s_read_samples_fifo ctx buffer 2 Hok Hs).
Defined.

Example i2s_read_samples_run :
  i2s_read_samples (ring_push [11; 12; 13] (i2s_start (i2s_init 1))) [0; 0; 0] 2 =
  (2, [11; 12; 0],
   {| ring_buffer := [11; 12; 13; 0]; ring_buffer_size := 4;
      write_pos := 3; read_pos := 2; available_samples := 1 |}).
Proof. vm_compute. reflexivity. Qed.

(** *** Whole runs *)

Lemma ring_push_stored (temp : list Z) (ctx : i2s_context) :
  ring_ok ctx ->
  contents (ring_push temp ctx) =
  contents ctx ++ firstn (Z.to_nat (accepted temp ctx)) temp.
Proof.
  intros Hok. destruct (ring_push_ok temp ctx Hok) as (_ & Hc & Ha & _).
  rewrite Hc. unfold accepted. rewrite Ha. pose proof (ok_avail _ Hok) as Hav.
  destruct (Z.min_spec (ring_buffer_size ctx)
              (available_samples ctx + Z.of_nat (length temp))) as [[Hl ->]|[Hl ->]].
  - reflexivity.
  - f_equal. rewrite !firstn_all2; auto; lia.
Qed.

Lemma read_samples_ok (ctx : i2s_context) (buffer : list Z) (samples : Z) :
  ring_ok ctx -> 0 <= samples <= Z.of_nat (length buffer) ->
  let n := Z.min samples (available_samples ctx) in
  fst (fst (i2s_read_samples ctx buffer samples)) = n /\
  snd (fst (i2s_read_samples ctx buffer samples)) =
    firstn (Z.to_nat n) (contents ctx) ++ skipn (Z.to_nat n) buffer /\
  contents (snd (i2s_read_samples ctx buffer samples)) =
    skipn (Z.to_nat n) (contents ctx) /\
  ring_ok (snd (i2s_read_samples ctx buffer samples)).
Proof.
  intros Hok Hs n. unfold i2s_read_samples.
  pose proof (ok_avail _ Hok) as Ha. pose proof (ok_size _ Hok) as Hsz.
  unfold INT_MAX in Hsz.
  assert (En : (if samples <? available_samples ctx then samples
                else available_samples ctx) = n).
  { subst n. destruct (Z.ltb_spec samples (available_samples ctx)); lia. }
  rewrite En.
  destruct (read_loop_ok (Z.to_nat n) 0 buffer ctx Hok ltac:(lia))
    as (H1 & H2 & _ & _ & H5).
  destruct (read_loop (Z.to_nat n) 0 (buffer, ctx)) as [b c]. cbn [fst snd] in *.
  split; [apply to_int32_id; lia|]. split; [apply H5; lia|]. split; assumption.
Qed.

(** X2: over every sequence of pushes and reads on a well-formed ring, the
    samples buffered at the start followed by the samples that the pushes
    stored are the samples that the reads returned followed by the samples
    still buffered: nothing is reordered, duplicated or lost between the push
    loop and [i2s_read_samples]. The level that [i2s_get_buffer_level] reports
    afterwards is the count stored minus the count returned, added to the
    count buffered at the start. *)
Theorem ring_fifo_over_runs (ops : list ring_op) (ctx : i2s_context) :
  ring_ok ctx -> Forall pop_fits ops ->
  contents ctx ++ fst (ring_io ops ctx) =
  snd (ring_io ops ctx) ++ contents (ring_run ops ctx) /\
  i2s_get_buffer_level (ring_run ops ctx) =
  Z.of_nat (length (contents ctx)) + Z.of_nat (length (fst (ring_io ops ctx)))
  - Z.of_nat (length (snd (ring_io ops ctx))).
Proof.
  intros Hok Hfit.
  assert (H : contents ctx ++ fst (ring_io ops ctx) =
              snd (ring_io ops ctx) ++ contents (ring_run ops ctx) /\
              ring_ok (ring_run ops ctx)).
  { revert ctx Hok. induction Hfit as [|op ops Hop Hops IH]; intros ctx Hok.
    - simpl. split; [now rewrite app_nil_r|exact Hok].
    - destruct op as [temp|buffer samples]; cbn [ring_io ring_run fold_left ring_step].
      + destruct (ring_push_ok temp ctx Hok) as (Hok' & _).
        destruct (IH _ Hok') as [IH1 IH2]. fold (ring_run ops (ring_push temp ctx)).
        destruct (ring_io ops (ring_push temp ctx)) as [stored returned].
        cbn [fst snd] in *. split; [|exact IH2].
        rewrite app_assoc, <- ring_push_stored by exact Hok. exact IH1.
      + simpl in Hop.
        pose proof (read_samples_ok ctx buffer samples Hok Hop) as Hr.
        cbv zeta in Hr.
        destruct (i2s_read_samples ctx buffer samples) as [[ret buffer'] ctx'].
        cbn [fst snd] in Hr. destruct Hr as (Hret & Hbuf & Hc & Hok').
        destruct (IH _ Hok') as [IH1 IH2]. cbn [snd].
        fold (ring_run ops ctx').
        destruct (ring_io ops ctx') as [stored returned].
        cbn [fst snd] in *. split; [|exact IH2].
        rewrite <- app_assoc, <- IH1, Hc, app_assoc. f_equal.
        rewrite Hbuf, Hret.
        pose proof (ok_avail _ Hok) as Hav.
        rewrite firstn_app, firstn_firstn, Nat.min_id.
        rewrite length_firstn, length_contents.
        replace (Z.to_nat (Z.min samples (available_samples ctx))
                 - Nat.min (Z.to_nat (Z.min samples (available_samples ctx)))
                           (Z.to_nat (available_samples ctx)))%nat with 0%nat by lia.
        rewrite firstn_O, app_nil_r. symmetry. apply firstn_skipn. }
  destruct H as [H1 H2]. split; [exact H1|].
  apply (f_equal (@length Z)) in H1. rewrite !length_app in H1.
  unfold i2s_get_buffer_level. pose proof (ok_avail _ H2) as Hav.
  pose proof (ok_size _ H2) as Hsz. unfold INT_MAX in Hsz.
  rewrite to_int32_id by lia.
  rewrite (length_contents (ring_run ops ctx)) in H1. lia.
Qed.

Lemma ring_fifo_over_runs_witness :
  let ctx := i2s_start (i2s_init 1) in
  let ops := [Push [1; 2; 3; 4; 5; 6]; Pop [0; 0; 0] 3; Push [7; 8]] in
  ring_ok ctx /\ Forall pop_fits ops /\
  contents ctx ++ fst (ring_io ops ctx) =
  snd (ring_io ops ctx) ++ contents (ring_run ops ctx) /\
  i2s_get_buffer_level (ring_run ops ctx) =
  Z.of_nat (length (contents ctx)) + Z.of_nat (length (fst (ring_io ops ctx)))
  - Z.of_nat (length (snd (ring_io ops ctx))).
Proof.
  intros ctx ops.
  assert (Hok : ring_ok ctx) by (apply ring_ok_start; lia).
  assert (Hfit : Forall pop_fits ops).
  { repeat constructor; simpl; lia. }
  split; [exact Hok|split; [exact Hfit|]].
  exact (ring_fifo_over_runs ops ctx Hok Hfit).
Defined.

Example ring_io_run :
  ring_io [Push [1; 2; 3; 4; 5; 6]; Pop [0; 0; 0] 3; Push [7; 8]]
          (i2s_start (i2s_init 1)) =
  ([1; 2; 3; 4; 7; 8], [1; 2; 3]).
Proof. vm_compute. reflexivity. Qed.

End I2SFacts.

Module ExactFacts.

Import Exact.

Local Open Scope R_scope.

Lemma Rltb_true (a b : R) : a < b -> Rltb a b = true.
Proof. intros H. unfold Rltb. destruct (Rlt_dec a b); [reflexivity|contradiction]. Qed.

Lemma Rltb_false (a b : R) : b <= a -> Rltb a b = false.
Proof. intros H. unfold Rltb. destruct (Rlt_dec a b); [lra|reflexivity]. Qed.

Lemma Rltb_spec (a b : R) : Rltb a b = true <-> a < b.
Proof.
  unfold Rltb. destruct (Rlt_dec a b); split; intros; auto; discriminate.
Qed.

Lemma Int_part_eq (x : R) (z : Z) : IZR z <= x < IZR z + 1 -> Int_part x = z.
Proof.
  intros [H1 H2]. unfold Int_part.
  assert (E : (z + 1)%Z = up x).
  { apply tech_up; rewrite plus_IZR; simpl; lra. }
  rewrite <- E. lia.
Qed.

Lemma Rtrunc_nonneg (x : R) (z : Z) : 0 <= x -> IZR z <= x < IZR z + 1 -> Rtrunc x = z.
Proof.
  intros H0 H. unfold Rtrunc. destruct (Rle_dec 0 x); [|contradiction].
  now apply Int_part_eq.
Qed.

Lemma Rtrunc_IZR (z : Z) : Rtrunc (IZR z) = z.
Proof.
  unfold Rtrunc. destruct (Rle_dec 0 (IZR z)) as [H|H].
  - apply Int_part_eq. lra.
  - rewrite <- opp_IZR. rewrite (Int_part_eq (IZR (- z)) (- z)) by lra. lia.
Qed.

End ExactFacts.

Module LocalizationFacts.

Import Localization.

Section WithFloat.
Context {F : Type} {FO : FloatOps F}.
Local Open Scope float_scope.

Lemma num_equations_bound (ctx : localization_context F) (delays : list F) :
  (snd (build_equations ctx delays)
   <= Z.max 0 (num_microphones (config ctx) - 1))%Z.
Proof.
  unfold build_equations.
  assert (H : forall (l : list nat) (st : matrix F * Z),
             (snd (fold_left
                     (fun (st : matrix F * Z) i =>
                        let '(A, num_equations) := st in
                        if (num_equations <? 3)%Z
                        then (upd (Z.to_nat num_equations) (equation_row ctx delays i) A,
                              (num_equations + 1)%Z)
                        else st) l st)
              <= snd st + Z.of_nat (length l))%Z).
  { induction l as [|i l IH]; intros [A ne]; simpl; [lia|].
    destruct (ne <? 3)%Z; eapply Z.le_trans; try apply IH; simpl; lia. }
  eapply Z.le_trans; [apply H|]. rewrite length_seq. simpl. lia.
Qed.

Lemma gauss_from_app (l1 l2 : list nat) (A : matrix F) :
  gauss_from (l1 ++ l2) A =
  match gauss_from l1 A with
  | None => None
  | Some A' => gauss_from l2 A'
  end.
Proof.
  revert A. induction l1 as [|i l1 IH]; intros A; simpl; auto.
  destruct (gauss_step A i); auto.
Qed.

Lemma small_pivot_stops (A Ai : matrix F) (i : nat) :
  (i < 3)%nat -> stage A i = Some Ai -> pivot_small Ai i = true -> gauss A = None.
Proof.
  intros Hi Hs Hp. unfold gauss.
  replace [0; 1; 2]%nat with (seq 0 i ++ i :: seq (S i) (2 - i)).
  - rewrite gauss_from_app. unfold stage in Hs. rewrite Hs. simpl.
    unfold gauss_step. now rewrite Hp.
  - destruct i as [|[|[|i]]]; try reflexivity; lia.
Qed.

Lemma gauss_None_small_pivot (A : matrix F) :
  gauss A = None ->
  exists i Ai, (i < 3)%nat /\ stage A i = Some Ai /\ pivot_small Ai i = true.
Proof.
  unfold gauss. simpl. unfold gauss_step at 1.
  destruct (pivot_small A 0) eqn:E0.
  { intros _. exists 0%nat, A. repeat split; auto. }
  set (A1 := eliminate (swap_rows A 0 (pivot_row A 0)) 0).
  unfold gauss_step at 1. destruct (pivot_small A1 1) eqn:E1.
  { intros _. exists 1%nat, A1. repeat split; auto.
    unfold stage; simpl. unfold gauss_step. now rewrite E0. }
  set (A2 := eliminate (swap_rows A1 1 (pivot_row A1 1)) 1).
  unfold gauss_step at 1. destruct (pivot_small A2 2) eqn:E2.
  { intros _. exists 2%nat, A2. repeat split; auto.
    unfold stage; simpl. unfold gauss_step. rewrite E0. fold A1. now rewrite E1. }
  discriminate.
Qed.

Lemma trilaterate_degenerate (ctx : localization_context F) (delays : list F) :
  degenerate ctx delays -> trilaterate_3d ctx delays = origin (of_int 0).
Proof.
  intros Hd. unfold trilaterate_3d.
  pose proof (num_equations_bound ctx delays) as Hb.
  destruct (build_equations ctx delays) as [A ne] eqn:E. simpl in *.
  destruct (Z.ltb_spec ne 3); [reflexivity|].
  destruct Hd as [Hm | (i & Ai & Hi & Hs & Hp)]; [lia|].
  rewrite E in Hs. simpl in Hs.
  now rewrite (small_pivot_stops A Ai i Hi Hs Hp).
Qed.

(** C9: a call whose [samples] is below the correlation window returns
    success, writes the location (0, 0, 0) with confidence 0, and leaves the
    context (delay estimates, confidence values) as it was: no correlation
    and no trilateration is run. *)
Theorem short_block_returns_origin (ctx : localization_context F)
  (mic_data : list (list Z)) (samples : Z) :
  (0 <= samples)%Z ->
  (correlation_window_size (config ctx) <= INT_MAX)%Z ->
  (samples < correlation_window_size (config ctx))%Z ->
  localization_process ctx mic_data samples =
  (MICARRAY_SUCCESS, ctx, origin (of_int 0)).
Proof.
  intros H0 Hmax Hlt. unfold localization_process, INT_MAX in *.
  rewrite to_size_t_id.
  - apply Z.ltb_lt in Hlt. now rewrite Hlt.
  - change (2 ^ 64)%Z with 18446744073709551616%Z. lia.
Qed.

(** C2 (as amended): when a call passes the window check and the confidence
    gate and the trilateration system is degenerate (fewer than four
    microphones, or a pivot below [1e-10] in some round of the elimination),
    the location written is the origin with confidence 0; the average
    confidence is not reported. *)
Theorem degenerate_system_zero_confidence (ctx : localization_context F)
  (mic_data : list (list Z)) (samples : Z) :
  let ctx1 := estimate_all ctx mic_data samples in
  let ctx2 := delays_in_seconds ctx1 in
  (samples <? to_size_t (correlation_window_size (config ctx)))%Z = false ->
  below_threshold ctx1 = false ->
  degenerate ctx2 (delay_estimates ctx2) ->
  localization_process ctx mic_data samples =
  (MICARRAY_SUCCESS, ctx2, origin (of_int 0)).
Proof.
  intros ctx1 ctx2 Hw Hg Hd. unfold localization_process.
  rewrite Hw. fold ctx1. rewrite Hg. fold ctx2.
  now rewrite (trilaterate_degenerate _ _ Hd).
Qed.

(** *** What the first loop leaves in the context *)

Lemma estimate_all_frame (ctx : localization_context F)
  (mic_data : list (list Z)) (samples : Z) :
  config (estimate_all ctx mic_data samples) = config ctx /\
  mic_positions (estimate_all ctx mic_data samples) = mic_positions ctx.
Proof.
  unfold estimate_all.
  generalize (max_delay_of (config ctx)) as md. intros md.
  generalize (seq 0 (Z.to_nat (num_microphones (config ctx)))) as js.
  intros js. revert ctx. induction js as [|j js IH]; intros ctx; [split; reflexivity|].
  cbn [fold_left].
  match goal with |- context [fold_left ?f js ?c] => destruct (IH c) as [H1 H2] end.
  rewrite H1, H2. destruct j; split; reflexivity.
Qed.

Lemma estimate_all_values (ctx : localization_context F)
  (mic_data : list (list Z)) (samples : Z) (k : nat) (d : F) :
  let ctx1 := estimate_all ctx mic_data samples in
  let md := max_delay_of (config ctx) in
  (k < Z.to_nat (num_microphones (config ctx)))%nat ->
  length (confidence_values ctx1) = length (confidence_values ctx) /\
  length (delay_estimates ctx1) = length (delay_estimates ctx) /\
  ((k < length (confidence_values ctx))%nat ->
   nth k (confidence_values ctx1) d =
   match k with
   | O => of_int 1
   | S _ => peak_correlation (nth 0 mic_data []) (nth k mic_data []) samples md
   end) /\
  ((k < length (delay_estimates ctx))%nat ->
   nth k (delay_estimates ctx1) d =
   match k with
   | O => of_int 0
   | S _ => estimate_delay (nth 0 mic_data []) (nth k mic_data []) samples md
   end).
Proof.
  cbv zeta. unfold estimate_all.
  set (md := max_delay_of (config ctx)). set (ref := nth 0 mic_data []).
  generalize (Z.to_nat (num_microphones (config ctx))) as n.
  induction n as [|n IH]; intros Hk; [lia|].
  rewrite seq_S, fold_left_app. cbn [fold_left Nat.add].
  set (c := fold_left _ (seq 0 n) ctx) in *.
  assert (HL : length (confidence_values c) = length (confidence_values ctx) /\
               length (delay_estimates c) = length (delay_estimates ctx)).
  { clear IH Hk. subst c. induction n as [|m IHm]; [split; reflexivity|].
    rewrite seq_S, fold_left_app. cbn [fold_left Nat.add].
    destruct m; cbn [confidence_values delay_estimates]; rewrite !length_upd; exact IHm. }
  destruct HL as [HLc HLd].
  destruct (Nat.eq_dec k n) as [->|Hne].
  - destruct n; cbn [confidence_values delay_estimates]; rewrite !length_upd;
      (split; [exact HLc|split; [exact HLd|split]]); intros Hlen;
      rewrite nth_upd_same by lia; reflexivity.
  - destruct (IH ltac:(lia)) as (_ & _ & Hc & Hd).
    destruct n; cbn [confidence_values delay_estimates]; rewrite !length_upd;
      (split; [exact HLc|split; [exact HLd|split]]); intros Hlen;
      rewrite nth_upd_other by lia; auto.
Qed.

(** X3: the delay that [estimate_delay] returns is one of the integer delays
    it searched, so its magnitude is at most [max_delay]; when the range is
    empty (a negative [max_delay]) it is 0. *)
Theorem estimate_delay_searched (r t : list Z) (samples max_delay : Z) :
  exists d, estimate_delay r t samples max_delay = of_int d /\
            (Z.abs d <= Z.max 0 max_delay)%Z.
Proof.
  unfold estimate_delay.
  assert (H : forall (ds : list Z) (st : F * F),
             (forall d, In d ds -> (Z.abs d <= Z.max 0 max_delay)%Z) ->
             (exists d, snd st = of_int d /\ (Z.abs d <= Z.max 0 max_delay)%Z) ->
             exists d,
               snd (fold_left
                      (fun (st : F * F) delay =>
                         let correlation := cross_correlate r t samples delay in
                         if fgt correlation (fst st) then (correlation, of_int delay)
                         else st)
                      ds st) = of_int d /\ (Z.abs d <= Z.max 0 max_delay)%Z).
  { induction ds as [|d0 ds IH]; intros st Hds Hst; [exact Hst|].
    cbn [fold_left]. apply IH; [intros d Hd; apply Hds; now right|].
    cbv zeta. destruct (fgt _ _); [|exact Hst].
    exists d0. split; [reflexivity|]. apply Hds. now left. }
  apply H.
  - intros d Hd. unfold delay_range in Hd. apply in_map_iff in Hd.
    destruct Hd as (k & <- & Hk). apply in_seq in Hk. lia.
  - exists 0%Z. split; [reflexivity|]. lia.
Qed.

End WithFloat.

Import Exact.
Local Open Scope R_scope.

Import ExactFacts.

Lemma correlate_sums_constant (a b : Z) (n : nat) :
  (Z.of_nat n < 2 ^ 31)%Z ->
  correlate_sums (repeat a n) (repeat b n) (Z.of_nat n) 0 =
  (INR n * (IZR a / 32768 * (IZR b / 32768)),
   INR n * (IZR a / 32768 * (IZR a / 32768)),
   INR n * (IZR b / 32768 * (IZR b / 32768))).
Proof.
  intros Hn. unfold correlate_sums.
  change (2 ^ 31)%Z with 2147483648%Z in Hn.
  rewrite Z.sub_0_r, to_size_t_id, Nat2Z.id
    by (change (2 ^ 64)%Z with 18446744073709551616%Z; lia).
  assert (H : forall k, (k <= n)%nat ->
            fold_left (correlate_body (repeat a n) (repeat b n) (Z.of_nat n) 0)
                      (map Z.of_nat (seq 0 k)) (of_int 0, of_int 0, of_int 0) =
            (INR k * (IZR a / 32768 * (IZR b / 32768)),
             INR k * (IZR a / 32768 * (IZR a / 32768)),
             INR k * (IZR b / 32768 * (IZR b / 32768)))).
  { induction k as [|k IH]; intros Hk.
    - simpl. f_equal; [f_equal|]; lra.
    - rewrite seq_S, map_app, fold_left_app, IH by lia. simpl fold_left.
      unfold correlate_body. simpl (0 <=? 0)%Z. cbv iota.
      rewrite Z.add_0_r.
      rewrite (to_size_t_id (Z.of_nat k))
        by (change (2 ^ 64)%Z with 18446744073709551616%Z; lia).
      rewrite (to_int32_id (Z.of_nat k)) by lia.
      rewrite (to_size_t_id (Z.of_nat k))
        by (change (2 ^ 64)%Z with 18446744073709551616%Z; lia).
      replace (0 <=? Z.of_nat k)%Z with true by (symmetry; apply Z.leb_le; lia).
      replace (Z.of_nat k <? Z.of_nat n)%Z with true by (symmetry; apply Z.ltb_lt; lia).
      simpl andb. cbv iota. rewrite Nat2Z.id.
      rewrite !nth_repeat_lt by lia.
      rewrite S_INR. cbn [fadd fmul fdiv of_int R_float].
      f_equal; [f_equal|]; lra. }
  apply H. lia.
Qed.

(** The normalized correlation of two constant blocks at delay 0 is the
    sign of the product of their values. *)
Lemma cross_correlate_constant (a b : Z) (n : nat) :
  (Z.of_nat n < 2 ^ 31)%Z ->
  cross_correlate (repeat a n) (repeat b n) (Z.of_nat n) 0 =
  let x := INR n * (IZR a / 32768 * (IZR b / 32768)) in
  if Rlt_dec 0 (Rabs x) then x / Rabs x else 0.
Proof.
  intros Hn. unfold cross_correlate. rewrite correlate_sums_constant by assumption.
  cbn [fadd fmul fdiv of_int sqrtf flt R_float fgt]. cbv zeta.
  replace (INR n * (IZR a / 32768 * (IZR a / 32768)) *
           (INR n * (IZR b / 32768 * (IZR b / 32768))))
    with (Rsqr (INR n * (IZR a / 32768 * (IZR b / 32768))))
    by (unfold Rsqr; lra).
  rewrite sqrt_Rsqr_abs. unfold Rltb.
  destruct (Rlt_dec 0 _); reflexivity.
Qed.

Lemma cross_correlate_aligned (a : Z) :
  a <> 0%Z ->
  cross_correlate (constant_block a) (constant_block a) 1024 0 = 1.
Proof.
  intros Ha. unfold constant_block. change 1024%Z with (Z.of_nat 1024).
  rewrite (cross_correlate_constant a a 1024) by (vm_compute; reflexivity).
  cbv zeta. assert (Hz : IZR a <> 0) by (now apply not_0_IZR).
  assert (Hp : 0 < INR 1024 * (IZR a / 32768 * (IZR a / 32768))).
  { replace (INR 1024) with 1024 by (rewrite INR_IZR_INZ; reflexivity).
    assert (0 < IZR a * IZR a) by nra. nra. }
  rewrite Rabs_pos_eq by lra.
  destruct (Rlt_dec 0 _); [|contradiction].
  unfold Rdiv at 1. apply Rinv_r. apply Rgt_not_eq. exact Hp.
Qed.

Lemma cross_correlate_opposed (a : Z) :
  a <> 0%Z ->
  cross_correlate (constant_block a) (constant_block (- a)) 1024 0 = -1.
Proof.
  intros Ha. unfold constant_block. change 1024%Z with (Z.of_nat 1024).
  rewrite (cross_correlate_constant a (- a) 1024) by (vm_compute; reflexivity).
  cbv zeta. assert (Hz : IZR a <> 0) by (now apply not_0_IZR).
  rewrite opp_IZR.
  assert (Hp : INR 1024 * (IZR a / 32768 * (- IZR a / 32768)) < 0).
  { replace (INR 1024) with 1024 by (rewrite INR_IZR_INZ; reflexivity).
    assert (0 < IZR a * IZR a) by nra. nra. }
  rewrite Rabs_left by lra.
  destruct (Rlt_dec 0 _) as [_|Hn]; [|exfalso; apply Hn; lra].
  set (x := INR 1024 * (IZR a / 32768 * (- IZR a / 32768))) in *.
  assert (Hx : x <> 0) by (apply Rlt_not_eq; exact Hp).
  field. lra.
Qed.

Lemma max_delay_of_test_config : max_delay_of test_config = 0%Z.
Proof.
  unfold max_delay_of, test_config, cast_int.
  cbn [mic_spacing speed_of_sound sample_rate fmul fdiv of_int to_int fminf R_float].
  rewrite (Rtrunc_nonneg (1 / 100 * 2 / 343 * 16000) 0) by lra.
  change (to_int32 0) with 0%Z.
  unfold MAX_DELAY_SAMPLES. rewrite Rmin_left by lra.
  now rewrite Rtrunc_IZR.
Qed.

Lemma estimate_delay_no_search {F} {FO : FloatOps F} (r t : list Z) (samples : Z) :
  estimate_delay r t samples 0 = of_int 0.
Proof.
  unfold estimate_delay, delay_range. simpl.
  destruct (fgt (cross_correlate r t samples 0) (fneg (of_int 1))); reflexivity.
Qed.

Lemma peak_correlation_no_search {F} {FO : FloatOps F} (r t : list Z) (samples : Z) :
  peak_correlation r t samples 0 =
  if fgt (cross_correlate r t samples 0) (fneg (of_int 1))
  then cross_correlate r t samples 0 else fneg (of_int 1).
Proof. reflexivity. Qed.

Lemma estimate_all_three {F} {FO : FloatOps F} (ctx : localization_context F)
  (d0 d1 d2 : list Z) (e0 e1 e2 c0 c1 c2 : F) (samples : Z) :
  num_microphones (config ctx) = 3%Z ->
  delay_estimates ctx = [e0; e1; e2] ->
  confidence_values ctx = [c0; c1; c2] ->
  estimate_all ctx [d0; d1; d2] samples =
  {| config := config ctx; mic_positions := mic_positions ctx;
     delay_estimates :=
       [ of_int 0; estimate_delay d0 d1 samples (max_delay_of (config ctx));
         estimate_delay d0 d2 samples (max_delay_of (config ctx)) ];
     confidence_values :=
       [ of_int 1; peak_correlation d0 d1 samples (max_delay_of (config ctx));
         peak_correlation d0 d2 samples (max_delay_of (config ctx)) ] |}.
Proof.
  intros HM He Hc. unfold estimate_all. rewrite HM.
  change (seq 0 (Z.to_nat 3)) with [0; 1; 2]%nat.
  cbn [fold_left config mic_positions delay_estimates confidence_values nth].
  rewrite He, Hc. reflexivity.
Qed.

Lemma estimate_all_aligned :
  estimate_all test_context aligned_data 1024 =
  {| config := test_config; mic_positions := mic_positions test_context;
     delay_estimates := [0; 0; 0]; confidence_values := [1; 1; 1] |}.
Proof.
  unfold aligned_data.
  rewrite (estimate_all_three test_context _ _ _ 0 0 0 0 0 0) by reflexivity.
  cbn [config test_context]. rewrite max_delay_of_test_config.
  rewrite !estimate_delay_no_search, !peak_correlation_no_search.
  rewrite cross_correlate_aligned by discriminate.
  unfold fgt. cbn [flt fneg of_int R_float]. rewrite Rltb_true by lra.
  reflexivity.
Qed.

Lemma estimate_all_opposed :
  estimate_all test_context opposed_data 1024 =
  {| config := test_config; mic_positions := mic_positions test_context;
     delay_estimates := [0; 0; 0]; confidence_values := [1; -1; -1] |}.
Proof.
  unfold opposed_data.
  rewrite (estimate_all_three test_context _ _ _ 0 0 0 0 0 0) by reflexivity.
  cbn [config test_context]. rewrite max_delay_of_test_config.
  rewrite !estimate_delay_no_search, !peak_correlation_no_search.
  change (-16384)%Z with (- 16384)%Z.
  rewrite cross_correlate_opposed by discriminate.
  unfold fgt. cbn [flt fneg of_int R_float]. rewrite Rltb_false by lra.
  reflexivity.
Qed.

Lemma average_confidence_three (c0 c1 c2 : R) :
  average_confidence 3 [c0; c1; c2] = (c0 + c1 + c2) / 3.
Proof.
  unfold average_confidence. change (seq 0 (Z.to_nat 3)) with [0; 1; 2]%nat.
  cbn [fold_left nth fadd fdiv of_int R_float]. f_equal. lra.
Qed.

Lemma window_reached :
  (1024 <? to_size_t (correlation_window_size test_config))%Z = false.
Proof. vm_compute. reflexivity. Qed.

Lemma below_threshold_aligned :
  below_threshold (estimate_all test_context aligned_data 1024) = false.
Proof.
  rewrite estimate_all_aligned. unfold below_threshold.
  cbn [config confidence_values num_microphones min_confidence_threshold test_config].
  rewrite average_confidence_three. cbn [flt R_float]. apply Rltb_false. lra.
Qed.

Lemma below_threshold_opposed :
  below_threshold (estimate_all test_context opposed_data 1024) = true.
Proof.
  rewrite estimate_all_opposed. unfold below_threshold.
  cbn [config confidence_values num_microphones min_confidence_threshold test_config].
  rewrite average_confidence_three. cbn [flt R_float]. apply Rltb_true. lra.
Qed.

Lemma degenerate_three_microphones :
  let ctx2 := delays_in_seconds (estimate_all test_context aligned_data 1024) in
  degenerate ctx2 (delay_estimates ctx2).
Proof.
  left. rewrite estimate_all_aligned. vm_compute. reflexivity.
Qed.

Lemma degenerate_system_zero_confidence_witness :
  let ctx2 := delays_in_seconds (estimate_all test_context aligned_data 1024) in
  (1024 <? to_size_t (correlation_window_size (config test_context)))%Z = false /\
  below_threshold (estimate_all test_context aligned_data 1024) = false /\
  degenerate ctx2 (delay_estimates ctx2) /\
  localization_process test_context aligned_data 1024 =
  (MICARRAY_SUCCESS, ctx2, origin (of_int 0)).
Proof.
  intros ctx2.
  split; [exact window_reached|].
  split; [exact below_threshold_aligned|].
  split; [exact degenerate_three_microphones|].
  exact (degenerate_system_zero_confidence test_context aligned_data 1024
           window_reached below_threshold_aligned degenerate_three_microphones).
Defined.

(** C2 (counterexample): three microphones that hear the same block pass
    the confidence gate with an average confidence of 1; the system has only
    two equations, and the location written has confidence 0, not 1. *)
Lemma degenerate_confidence_is_not_average :
  (num_microphones test_config < 4)%Z /\
  below_threshold (estimate_all test_context aligned_data 1024) = false /\
  average_confidence
    (num_microphones test_config)
    (confidence_values (estimate_all test_context aligned_data 1024)) = 1 /\
  confidence (snd (localization_process test_context aligned_data 1024)) = 0 /\
  confidence (snd (localization_process test_context aligned_data 1024)) <>
  average_confidence
    (num_microphones test_config)
    (confidence_values (estimate_all test_context aligned_data 1024)).
Proof.
  assert (Havg : average_confidence
                   (num_microphones test_config)
                   (confidence_values (estimate_all test_context aligned_data 1024)) = 1).
  { rewrite estimate_all_aligned. cbn [confidence_values num_microphones test_config].
    rewrite average_confidence_three. lra. }
  assert (Hc : confidence (snd (localization_process test_context aligned_data 1024)) = 0).
  { unfold localization_process. cbn [config test_context].
    rewrite window_reached, below_threshold_aligned.
    rewrite (trilaterate_degenerate _ _ degenerate_three_microphones).
    reflexivity. }
  split; [vm_compute; reflexivity|].
  split; [exact below_threshold_aligned|].
  split; [exact Havg|]. split; [exact Hc|].
  rewrite Hc, Havg. lra.
Qed.

Lemma short_block_returns_origin_witness :
  (0 <= 512)%Z /\
  (correlation_window_size (config test_context) <= INT_MAX)%Z /\
  (512 < correlation_window_size (config test_context))%Z /\
  localization_process test_context aligned_data 512 =
  (MICARRAY_SUCCESS, test_context, origin (of_int 0)).
Proof.
  assert (H0 : (0 <= 512)%Z) by lia.
  assert (H1 : (correlation_window_size (config test_context) <= INT_MAX)%Z)
    by (vm_compute; discriminate).
  assert (H2 : (512 < correlation_window_size (config test_context))%Z)
    by (vm_compute; reflexivity).
  split; [exact H0|split; [exact H1|split; [exact H2|]]].
  exact (short_block_returns_origin test_context aligned_data 512 H0 H1 H2).
Defined.

(** *** The range of the confidence in exact arithmetic *)

Lemma two_products_bound (u v w : R) :
  0 <= u -> 0 <= v -> w * w <= u * v -> 2 * w <= u + v.
Proof.
  intros Hu Hv Hw.
  destruct (Rle_dec (2 * w) (u + v)) as [H|H]; [exact H|].
  exfalso. assert (H' : u + v < 2 * w) by lra.
  pose proof (Rle_0_sqr (u - v)) as Hsq. unfold Rsqr in Hsq.
  assert (Hlt : (u + v) * (u + v) < (2 * w) * (2 * w)).
  { apply Rmult_le_0_lt_compat; lra. }
  lra.
Qed.

Lemma correlate_body_ok (sig1 sig2 : list Z) (len delay : Z) (acc : R * R * R) (i : Z) :
  sums_ok acc -> sums_ok (correlate_body sig1 sig2 len delay acc i).
Proof.
  destruct acc as [[c n1] n2]. intros (H1 & H2 & H3). unfold correlate_body.
  destruct (_ && _)%bool; [|repeat split; assumption].
  cbn [fadd fmul fdiv of_int R_float].
  set (a := IZR (nth _ sig1 0%Z) / 32768). set (b := IZR (nth _ sig2 0%Z) / 32768).
  unfold sums_ok.
  assert (Ha : 0 <= a * a) by nra. assert (Hb : 0 <= b * b) by nra.
  split; [lra|]. split; [lra|].
  assert (Hw : (a * b * c) * (a * b * c) <= (n1 * (b * b)) * (n2 * (a * a))).
  { replace (a * b * c * (a * b * c)) with ((a * a) * (b * b) * (c * c)) by ring.
    replace (n1 * (b * b) * (n2 * (a * a))) with ((a * a) * (b * b) * (n1 * n2)) by ring.
    apply Rmult_le_compat_l; [nra|exact H3]. }
  pose proof (two_products_bound (n1 * (b * b)) (n2 * (a * a)) (a * b * c)
                ltac:(nra) ltac:(nra) Hw).
  nra.
Qed.

Lemma correlate_sums_ok (sig1 sig2 : list Z) (len delay : Z) :
  sums_ok (correlate_sums sig1 sig2 len delay).
Proof.
  unfold correlate_sums.
  assert (H0 : sums_ok (of_int 0, of_int 0, of_int 0)).
  { cbn [of_int R_float]. unfold sums_ok. repeat split; lra. }
  revert H0. generalize (of_int 0, of_int 0, of_int 0) as acc.
  generalize (map Z.of_nat (seq 0 (Z.to_nat (to_size_t (len - Z.abs delay))))) as js.
  induction js as [|j js IH]; intros acc H; simpl; auto.
  apply IH. now apply correlate_body_ok.
Qed.

Lemma cross_correlate_range (sig1 sig2 : list Z) (len delay : Z) :
  -1 <= cross_correlate sig1 sig2 len delay <= 1.
Proof.
  unfold cross_correlate. pose proof (correlate_sums_ok sig1 sig2 len delay) as H.
  destruct (correlate_sums sig1 sig2 len delay) as [[c n1] n2].
  destruct H as (H1 & H2 & H3).
  unfold fgt. cbn [flt sqrtf fmul fdiv of_int R_float]. unfold Rltb.
  destruct (Rlt_dec 0 (sqrt (n1 * n2))) as [Hd|Hd]; [|lra].
  set (d := sqrt (n1 * n2)) in *.
  assert (Hdd : d * d = n1 * n2) by (apply sqrt_sqrt; nra).
  assert (Hc : - d <= c <= d) by (split; nra).
  split.
  - apply Rmult_le_reg_r with d; [exact Hd|].
    unfold Rdiv. rewrite Rmult_assoc, Rinv_l by lra. lra.
  - apply Rmult_le_reg_r with d; [exact Hd|].
    unfold Rdiv. rewrite Rmult_assoc, Rinv_l by lra. lra.
Qed.

Lemma peak_correlation_range (r t : list Z) (samples max_delay : Z) :
  -1 <= peak_correlation r t samples max_delay <= 1.
Proof.
  unfold peak_correlation.
  assert (H0 : -1 <= fneg (of_int 1) <= 1) by (cbn [fneg of_int R_float]; lra).
  revert H0. generalize (fneg (of_int 1)) as m. generalize (delay_range max_delay) as ds.
  induction ds as [|dl ds IH]; intros m Hm; simpl; auto.
  apply IH. destruct (Rltb m (cross_correlate r t samples dl));
    [apply cross_correlate_range|exact Hm].
Qed.

Lemma estimate_all_confidences (ctx : localization_context R)
  (mic_data : list (list Z)) (samples : Z) :
  let ctx1 := estimate_all ctx mic_data samples in
  config ctx1 = config ctx /\
  length (confidence_values ctx1) = length (confidence_values ctx) /\
  forall k, (k < Z.to_nat (num_microphones (config ctx)))%nat ->
            (k < length (confidence_values ctx))%nat ->
            -1 <= nth k (confidence_values ctx1) 0 <= 1.
Proof.
  unfold estimate_all.
  set (md := max_delay_of (config ctx)). set (ref := nth 0 mic_data []).
  generalize (Z.to_nat (num_microphones (config ctx))) as n.
  induction n as [|n IH]; [simpl; repeat split; intros; lia|].
  cbv zeta in *. rewrite seq_S, fold_left_app. cbn [fold_left Nat.add].
  destruct IH as (Hc & Hl & Hk).
  set (c := fold_left _ (seq 0 n) ctx) in *.
  split; [|split].
  - destruct n; cbn [config]; exact Hc.
  - destruct n; cbn [confidence_values]; rewrite length_upd; exact Hl.
  - intros k Hkn Hkl. destruct (Nat.eq_dec k n) as [->|Hne].
    + destruct n; cbn [confidence_values]; rewrite nth_upd_same by lia.
      * cbn [of_int R_float]. lra.
      * apply peak_correlation_range.
    + destruct n; cbn [confidence_values]; rewrite nth_upd_other by lia;
        apply Hk; lia.
Qed.

Lemma average_confidence_range (num_mics : Z) (confidences : list R) :
  (1 <= num_mics)%Z ->
  (forall k, (k < Z.to_nat num_mics)%nat -> -1 <= nth k confidences 0 <= 1) ->
  -1 <= average_confidence num_mics confidences <= 1.
Proof.
  intros HM Hk. unfold average_confidence.
  assert (Hs : forall n, (n <= Z.to_nat num_mics)%nat ->
               - INR n <=
               fold_left (fun avg i => fadd avg (nth i confidences (of_int 0)))
                         (seq 0 n) (of_int 0) <= INR n).
  { induction n as [|n IH]; intros Hn.
    - simpl. lra.
    - rewrite seq_S, fold_left_app, S_INR. cbn [fold_left Nat.add fadd of_int R_float].
      specialize (IH ltac:(lia)). specialize (Hk n ltac:(lia)).
      cbn [fadd of_int R_float] in IH. lra. }
  specialize (Hs (Z.to_nat num_mics) ltac:(lia)).
  rewrite INR_IZR_INZ, Z2Nat.id in Hs by lia.
  revert Hs.
  generalize (fold_left (fun avg i => fadd avg (nth i confidences (of_int 0)))
                        (seq 0 (Z.to_nat num_mics)) (of_int 0)) as total.
  intros total Hs. cbn [fdiv of_int R_float].
  assert (HM' : 0 < IZR num_mics) by (apply IZR_lt; lia).
  split.
  - apply Rmult_le_reg_r with (IZR num_mics); [exact HM'|].
    unfold Rdiv. rewrite Rmult_assoc, Rinv_l by lra. lra.
  - apply Rmult_le_reg_r with (IZR num_mics); [exact HM'|].
    unfold Rdiv. rewrite Rmult_assoc, Rinv_l by lra. lra.
Qed.

(** X4: in exact arithmetic the confidence that [localization_process] writes
    lies between -1 and 1 for every input, on each of its four ways out. *)
Lemma confidence_range (ctx : localization_context R) (mic_data : list (list Z))
  (samples : Z) :
  (1 <= num_microphones (config ctx))%Z ->
  (Z.to_nat (num_microphones (config ctx)) <= length (confidence_values ctx))%nat ->
  -1 <= confidence (snd (localization_process ctx mic_data samples)) <= 1.
Proof.
  intros HM Hlen. unfold localization_process.
  destruct (_ <? _)%Z; [cbn [snd confidence origin of_int R_float]; lra|].
  destruct (estimate_all_confidences ctx mic_data samples) as (Hc & Hl & Hk).
  set (ctx1 := estimate_all ctx mic_data samples) in *.
  assert (Havg : -1 <= average_confidence (num_microphones (config ctx1))
                                          (confidence_values ctx1) <= 1).
  { rewrite Hc. apply average_confidence_range; [exact HM|].
    intros k Hk'. apply Hk; lia. }
  destruct (below_threshold ctx1); [cbn [snd confidence origin]; exact Havg|].
  cbn [snd]. unfold trilaterate_3d.
  destruct (build_equations _ _) as [A ne].
  destruct (ne <? 3)%Z; [cbn [confidence origin of_int R_float]; lra|].
  destruct (gauss A); [|cbn [confidence origin of_int R_float]; lra].
  destruct (back_substitute m) as [[x0 x1] x2]. cbn [confidence].
  exact Havg.
Qed.

(** C6 (code defect): with the configuration of
    [test_localization_mic_positions] and three blocks of which the second
    and the third are the inverted reference, every peak correlation is -1,
    the average confidence is (1 - 1 - 1) / 3, the gate rejects it, and the
    location written carries the confidence -1/3, which is below 0. *)
Theorem confidence_can_be_negative :
  fst (fst (localization_process test_context opposed_data 1024)) = MICARRAY_SUCCESS /\
  confidence (snd (localization_process test_context opposed_data 1024)) = - (1 / 3) /\
  confidence (snd (localization_process test_context opposed_data 1024)) < 0.
Proof.
  assert (Hc : localization_process test_context opposed_data 1024 =
               (MICARRAY_SUCCESS, estimate_all test_context opposed_data 1024,
                origin (- (1 / 3)))).
  { unfold localization_process. cbn [config test_context].
    rewrite window_reached, below_threshold_opposed.
    rewrite estimate_all_opposed.
    cbn [config confidence_values num_microphones test_config].
    rewrite average_confidence_three. do 2 f_equal. lra. }
  rewrite Hc. cbn [fst snd confidence origin]. repeat split; lra.
Qed.

(** *** Microphones at one height *)

Lemma swap_rows_flat (A : matrix R) (i j : nat) :
  flat A -> (i < 3)%nat -> (j < 3)%nat -> flat (swap_rows A i j).
Proof.
  intros (r0 & r1 & r2 & -> & (a0 & b0 & c0 & ->) & (a1 & b1 & c1 & ->)
          & (a2 & b2 & c2 & ->)) Hi Hj.
  destruct i as [|[|[|i]]]; try lia; destruct j as [|[|[|j]]]; try lia;
    unfold swap_rows; cbn [Nat.eqb];
    cbn [fold_left seq A_get A_set upd nth];
    (eexists; eexists; eexists; split; [reflexivity|]);
    repeat split; eexists; eexists; eexists; reflexivity.
Qed.

Lemma eliminate_flat (A : matrix R) (i : nat) :
  flat A -> (i < 2)%nat -> flat (eliminate A i).
Proof.
  intros (r0 & r1 & r2 & -> & (a0 & b0 & c0 & ->) & (a1 & b1 & c1 & ->)
          & (a2 & b2 & c2 & ->)) Hi.
  destruct i as [|[|i]]; try lia; unfold eliminate;
    cbn [fold_left seq Nat.sub A_get A_set upd nth fsub fmul fdiv R_float];
    (eexists; eexists; eexists; split; [reflexivity|]);
    repeat split; eexists; eexists; eexists; repeat f_equal; ring.
Qed.

Lemma pivot_row_bounds (A : matrix R) (i : nat) :
  (i < 3)%nat -> (pivot_row A i < 3)%nat.
Proof.
  intros Hi. destruct i as [|[|[|i]]]; try lia; unfold pivot_row;
    cbn [fold_left seq Nat.sub];
    repeat match goal with |- context [if ?c then _ else _] => destruct c end; lia.
Qed.

Lemma tiny_positive : 0 < lit 1 10.
Proof.
  unfold lit. cbn [fdiv of_int R_float].
  change (10 ^ Z.of_nat 10)%Z with 10000000000%Z. lra.
Qed.

Lemma flat_last_pivot (A : matrix R) : flat A -> pivot_small A 2 = true.
Proof.
  intros (r0 & r1 & r2 & -> & _ & _ & (a2 & b2 & c2 & ->)).
  unfold pivot_small, pivot, pivot_row, swap_rows.
  cbn [fold_left seq Nat.sub Nat.eqb A_get nth flt fabsf R_float].
  apply Rltb_true. rewrite Rabs_R0. exact tiny_positive.
Qed.

Lemma gauss_step_flat (A A' : matrix R) (i : nat) :
  flat A -> (i < 2)%nat -> gauss_step A i = Some A' -> flat A'.
Proof.
  intros HA Hi. unfold gauss_step. destruct (pivot_small A i); [discriminate|].
  intros E. inversion E; subst.
  apply eliminate_flat; [|exact Hi].
  apply swap_rows_flat; [exact HA|lia|apply pivot_row_bounds; lia].
Qed.

Lemma gauss_flat (A : matrix R) : flat A -> gauss A = None.
Proof.
  intros HA. unfold gauss. cbn [gauss_from].
  destruct (gauss_step A 0) as [A1|] eqn:E0; [|reflexivity].
  pose proof (gauss_step_flat A A1 0 HA ltac:(lia) E0) as H1.
  destruct (gauss_step A1 1) as [A2|] eqn:E1; [|reflexivity].
  pose proof (gauss_step_flat A1 A2 1 H1 ltac:(lia) E1) as H2.
  unfold gauss_step. now rewrite (flat_last_pivot A2 H2).
Qed.

Lemma equation_row_flat (ctx : localization_context R) (delays : list R) (i : nat) :
  coplanar ctx -> (i < length (mic_positions ctx))%nat ->
  flat_row (equation_row ctx delays i).
Proof.
  intros [z Hz] Hi. unfold equation_row, flat_row.
  rewrite Forall_forall in Hz.
  assert (H0 : pos_z (nth 0 (mic_positions ctx) (mk_position (of_int 0) (of_int 0) (of_int 0))) = z).
  { apply Hz. apply nth_In. lia. }
  assert (H1 : pos_z (nth i (mic_positions ctx) (mk_position (of_int 0) (of_int 0) (of_int 0))) = z).
  { apply Hz. apply nth_In. lia. }
  cbv zeta. rewrite H0, H1. cbn [fsub fmul of_int R_float].
  eexists. eexists. eexists. repeat f_equal. ring.
Qed.

Lemma build_equations_skip (ctx : localization_context R) (delays : list R)
  (l : list nat) (A : matrix R) (ne : Z) :
  (3 <= ne)%Z ->
  fold_left
    (fun (st : matrix R * Z) i =>
       let '(A, num_equations) := st in
       if (num_equations <? 3)%Z
       then (upd (Z.to_nat num_equations) (equation_row ctx delays i) A,
             (num_equations + 1)%Z)
       else st) l (A, ne) = (A, ne).
Proof.
  intros Hne. induction l as [|i l IH]; [reflexivity|].
  cbn [fold_left]. destruct (Z.ltb_spec ne 3); [lia|]. exact IH.
Qed.

Lemma build_equations_full (ctx : localization_context R) (delays : list R) :
  (4 <= num_microphones (config ctx))%Z ->
  build_equations ctx delays =
  ([equation_row ctx delays 1; equation_row ctx delays 2; equation_row ctx delays 3],
   3%Z).
Proof.
  intros HM. unfold build_equations.
  replace (Z.to_nat (num_microphones (config ctx) - 1))
    with (3 + Z.to_nat (num_microphones (config ctx) - 4))%nat by lia.
  rewrite seq_app, fold_left_app.
  cbn [seq fold_left Nat.add Z.ltb Z.compare Z.add Pos.add Pos.succ Z.to_nat Pos.to_nat
       Pos.iter_op Nat.add A_init repeat upd].
  apply build_equations_skip. lia.
Qed.

Lemma coplanar_trilateration (ctx : localization_context R) (delays : list R) :
  coplanar ctx ->
  (Z.to_nat (num_microphones (config ctx)) <= length (mic_positions ctx))%nat ->
  trilaterate_3d ctx delays = origin 0.
Proof.
  intros Hc Hlen.
  destruct (Z.ltb_spec (num_microphones (config ctx)) 4) as [Hlt|Hge].
  - change (origin 0) with (origin (F:=R) (of_int 0)).
    apply trilaterate_degenerate. now left.
  - unfold trilaterate_3d. rewrite build_equations_full by exact Hge.
    cbn [Z.ltb Z.compare Pos.compare Pos.compare_cont].
    rewrite gauss_flat; [reflexivity|].
    eexists. eexists. eexists. split; [reflexivity|].
    repeat split; apply equation_row_flat; auto; lia.
Qed.

Lemma coplanar_origin (ctx : localization_context R) (mic_data : list (list Z))
  (samples : Z) :
  coplanar ctx ->
  (Z.to_nat (num_microphones (config ctx)) <= length (mic_positions ctx))%nat ->
  exists c, snd (localization_process ctx mic_data samples) = origin c /\
            (c = 0 \/ c < min_confidence_threshold (config ctx)).
Proof.
  intros Hc Hlen. unfold localization_process.
  destruct (_ <? _)%Z; [exists 0; split; [reflexivity|now left]|].
  destruct (estimate_all_frame ctx mic_data samples) as [Hcfg Hpos].
  set (ctx1 := estimate_all ctx mic_data samples) in *.
  destruct (below_threshold ctx1) eqn:Eb.
  - eexists. split; [reflexivity|]. right.
    unfold below_threshold in Eb. cbn [flt R_float] in Eb.
    apply Rltb_spec in Eb. rewrite Hcfg in Eb. rewrite Hcfg. exact Eb.
  - exists 0. split; [|now left]. cbn [snd].
    apply coplanar_trilateration.
    + unfold delays_in_seconds, coplanar. cbn [mic_positions]. now rewrite Hpos.
    + unfold delays_in_seconds. cbn [mic_positions config]. rewrite Hpos, Hcfg. exact Hlen.
Qed.

(** X5: in exact arithmetic, when all microphones lie at one height the
    location that [localization_process] writes is always the origin: the
    third column of the trilateration system is zero, so the elimination meets
    a zero pivot in its last round at the latest. The confidence written with
    it is 0, or the average confidence when that is below the threshold. *)
Theorem coplanar_array_reports_origin (ctx : localization_context R)
  (mic_data : list (list Z)) (samples : Z) :
  coplanar ctx ->
  (Z.to_nat (num_microphones (config ctx)) <= length (mic_positions ctx))%nat ->
  exists c, snd (localization_process ctx mic_data samples) = origin c /\
            (c = 0 \/ c < min_confidence_threshold (config ctx)).
Proof. exact (coplanar_origin ctx mic_data samples). Qed.

Lemma coplanar_quad : coplanar quad_context.
Proof. exists 0. repeat constructor. Qed.

Lemma max_delay_of_quad_config : max_delay_of quad_config = 0%Z.
Proof.
  unfold max_delay_of, quad_config, cast_int.
  cbn [mic_spacing speed_of_sound sample_rate fmul fdiv of_int to_int fminf R_float].
  rewrite (Rtrunc_nonneg (1 / 100 * 2 / 343 * 16000) 0) by lra.
  change (to_int32 0) with 0%Z.
  unfold MAX_DELAY_SAMPLES. rewrite Rmin_left by lra.
  now rewrite Rtrunc_IZR.
Qed.

Lemma coplanar_array_reports_origin_witness :
  coplanar quad_context /\
  (Z.to_nat (num_microphones (config quad_context))
   <= length (mic_positions quad_context))%nat /\
  exists c, snd (localization_process quad_context silent_data 1024) = origin c /\
            (c = 0 \/ c < min_confidence_threshold (config quad_context)).
Proof.
  assert (H : (Z.to_nat (num_microphones (config quad_context))
               <= length (mic_positions quad_context))%nat) by (simpl; lia).
  split; [exact coplanar_quad|split; [exact H|]].
  exact (coplanar_array_reports_origin quad_context silent_data 1024 coplanar_quad H).
Defined.

(** *** The geometry that [localization_init] builds *)

Lemma init_num_microphones (cfg : localization_config R)
  (positions : option (list (microphone_position R))) (delays confidences : list R) :
  num_microphones (config (localization_init cfg positions delays confidences)) =
  num_microphones cfg.
Proof.
  unfold localization_init. cbn [config]. destruct (fle _ _); reflexivity.
Qed.

(** X6: a context that [localization_init] makes for a configuration without
    positions has [num_microphones] microphones on the circle of radius
    [mic_spacing] in the plane [z = 0] and a positive speed of sound; in exact
    arithmetic it reports the origin for every input, never a position. *)
Theorem default_array_never_localizes (cfg : localization_config R)
  (delays confidences : list R) (mic_data : list (list Z)) (samples : Z) :
  let ctx := localization_init cfg None delays confidences in
  length (mic_positions ctx) = Z.to_nat (num_microphones cfg) /\
  (forall i, (i < Z.to_nat (num_microphones cfg))%nat ->
     let p := nth i (mic_positions ctx) (mk_position 0 0 0) in
     pos_z p = 0 /\
     pos_x p * pos_x p + pos_y p * pos_y p = mic_spacing cfg * mic_spacing cfg) /\
  0 < speed_of_sound (config ctx) /\
  exists c, snd (localization_process ctx mic_data samples) = origin c.
Proof.
  intros ctx.
  assert (Hlen : length (mic_positions ctx) = Z.to_nat (num_microphones cfg)).
  { subst ctx. unfold localization_init. cbn [mic_positions].
    now rewrite length_map, length_seq. }
  split; [exact Hlen|]. split; [|split].
  - intros i Hi p. subst p ctx. unfold localization_init. cbn [mic_positions].
    rewrite (nth_indep _ _ (default_position cfg 0))
      by (rewrite length_map, length_seq; exact Hi).
    rewrite (map_nth (default_position cfg)), seq_nth by exact Hi.
    unfold default_position. cbn [pos_x pos_y pos_z of_int fmul R_float Nat.add].
    split; [reflexivity|].
    set (a := cosf _). set (b := sinf _).
    assert (Hab : b * b + a * a = 1) by (apply sin2_cos2).
    replace (mic_spacing cfg * a * (mic_spacing cfg * a)
             + mic_spacing cfg * b * (mic_spacing cfg * b))
      with (mic_spacing cfg * mic_spacing cfg * (b * b + a * a)) by ring.
    rewrite Hab. ring.
  - subst ctx. unfold localization_init. cbn [config fle R_le]. unfold Rleb.
    destruct (Rle_dec (speed_of_sound cfg) (of_int 0)) as [H|H];
      cbn [speed_of_sound]; unfold DEFAULT_SPEED_OF_SOUND; cbn [of_int R_float] in *; lra.
  - destruct (coplanar_origin ctx mic_data samples) as (c & Hc & _).
    + exists 0. subst ctx. unfold localization_init. cbn [mic_positions].
      apply Forall_forall. intros p Hp. apply in_map_iff in Hp.
      destruct Hp as (i & <- & _). reflexivity.
    + rewrite Hlen. subst ctx. rewrite init_num_microphones. lia.
    + exists c. exact Hc.
Qed.

(** *** Silence *)

Lemma correlate_sums_silent (sig1 sig2 : list Z) (len delay : Z) :
  (forall k, nth k sig1 0%Z = 0%Z) -> (forall k, nth k sig2 0%Z = 0%Z) ->
  correlate_sums sig1 sig2 len delay = (0, 0, 0).
Proof.
  intros H1 H2. unfold correlate_sums.
  change (of_int 0, of_int 0, of_int 0) with (0, 0, 0).
  generalize (map Z.of_nat (seq 0 (Z.to_nat (to_size_t (len - Z.abs delay))))) as js.
  induction js as [|j js IH]; [reflexivity|].
  cbn [fold_left]. replace (correlate_body sig1 sig2 len delay (0, 0, 0) j) with (0, 0, 0);
    [exact IH|].
  unfold correlate_body. destruct (_ && _)%bool; [|reflexivity].
  rewrite H1, H2. cbn [fadd fmul fdiv of_int R_float].
  f_equal; [f_equal|]; unfold Rdiv; ring.
Qed.

Lemma cross_correlate_silent (sig1 sig2 : list Z) (len delay : Z) :
  (forall k, nth k sig1 0%Z = 0%Z) -> (forall k, nth k sig2 0%Z = 0%Z) ->
  cross_correlate sig1 sig2 len delay = 0.
Proof.
  intros H1 H2. unfold cross_correlate. rewrite correlate_sums_silent by assumption.
  unfold fgt. cbn [flt sqrtf fmul fdiv of_int R_float].
  rewrite Rmult_0_l, sqrt_0. rewrite Rltb_false by lra. reflexivity.
Qed.

Lemma peak_correlation_silent (r t : list Z) (samples max_delay : Z) :
  (forall k, nth k r 0%Z = 0%Z) -> (forall k, nth k t 0%Z = 0%Z) ->
  (0 <= max_delay)%Z ->
  peak_correlation r t samples max_delay = 0.
Proof.
  intros H1 H2 Hm. unfold peak_correlation, delay_range.
  replace (Z.to_nat (2 * max_delay + 1)) with (S (Z.to_nat (2 * max_delay))) by lia.
  cbn [seq map fold_left]. rewrite cross_correlate_silent by assumption.
  unfold fgt. cbn [flt fneg of_int R_float]. rewrite Rltb_true by lra.
  generalize (map (fun k : nat => (- max_delay + Z.of_nat k)%Z)
                  (seq 1 (Z.to_nat (2 * max_delay)))) as ds.
  induction ds as [|d ds IH]; [reflexivity|].
  cbn [fold_left]. rewrite cross_correlate_silent by assumption.
  rewrite Rltb_false by lra. exact IH.
Qed.

Lemma estimate_delay_silent (r t : list Z) (samples max_delay : Z) :
  (forall k, nth k r 0%Z = 0%Z) -> (forall k, nth k t 0%Z = 0%Z) ->
  (0 <= max_delay)%Z ->
  estimate_delay r t samples max_delay = IZR (- max_delay).
Proof.
  intros H1 H2 Hm. unfold estimate_delay, delay_range.
  replace (Z.to_nat (2 * max_delay + 1)) with (S (Z.to_nat (2 * max_delay))) by lia.
  cbn [seq map fold_left]. rewrite cross_correlate_silent by assumption.
  unfold fgt. cbn [flt fneg of_int fst R_float]. rewrite Rltb_true by lra.
  rewrite Z.add_0_r.
  generalize (map (fun k : nat => (- max_delay + Z.of_nat k)%Z)
                  (seq 1 (Z.to_nat (2 * max_delay)))) as ds.
  induction ds as [|d ds IH]; [reflexivity|].
  cbn [fold_left]. rewrite cross_correlate_silent by assumption.
  cbn [fst]. rewrite Rltb_false by lra. exact IH.
Qed.

Lemma sum_one_hot (confidences : list R) (n : nat) :
  (0 < n)%nat -> nth 0 confidences 0 = 1 ->
  (forall k, (0 < k < n)%nat -> nth k confidences 0 = 0) ->
  fold_left (fun avg i => fadd avg (nth i confidences (of_int 0))) (seq 0 n) (of_int 0) = 1.
Proof.
  intros Hn H0 Hk. induction n as [|n IH]; [lia|].
  rewrite seq_S, fold_left_app. cbn [fold_left Nat.add fadd of_int R_float].
  destruct n as [|n].
  - cbn [seq fold_left]. cbn [of_int R_float]. rewrite H0. lra.
  - cbn [fadd of_int R_float] in IH.
    rewrite IH; [|lia|intros k Hk'; apply Hk; lia].
    rewrite Hk by lia. lra.
Qed.

(** X7: in exact arithmetic, on blocks of silence that pass the window check
    every correlation is 0, so microphone 0 counts with confidence 1 and every
    other microphone with 0: the average confidence is [1 / num_microphones],
    not 0. When that is below the threshold the call writes the origin with
    this confidence. The delay estimated for every other microphone is [-
    max_delay], the first delay of the search. *)
Theorem silent_block_confidence (ctx : localization_context R)
  (mic_data : list (list Z)) (samples : Z) :
  let M := num_microphones (config ctx) in
  let ctx1 := estimate_all ctx mic_data samples in
  silent mic_data ->
  (1 <= M)%Z ->
  (Z.to_nat M <= length (confidence_values ctx))%nat ->
  (Z.to_nat M <= length (delay_estimates ctx))%nat ->
  (0 <= max_delay_of (config ctx))%Z ->
  (samples <? to_size_t (correlation_window_size (config ctx)))%Z = false ->
  1 / IZR M < min_confidence_threshold (config ctx) ->
  localization_process ctx mic_data samples =
    (MICARRAY_SUCCESS, ctx1, origin (1 / IZR M)) /\
  (forall k, (0 < k < Z.to_nat M)%nat ->
             nth k (delay_estimates ctx1) 0 = IZR (- max_delay_of (config ctx))).
Proof.
  intros M ctx1 Hs HM Hlc Hld Hmd Hw Hth.
  assert (Hsil : forall i k, nth k (nth i mic_data []) 0%Z = 0%Z) by exact Hs.
  assert (Hconf0 : nth 0 (confidence_values ctx1) 0 = 1).
  { destruct (estimate_all_values ctx mic_data samples 0 0 ltac:(fold M; lia))
      as (_ & _ & Hc & _). apply Hc. lia. }
  assert (Hconfk : forall k, (0 < k < Z.to_nat M)%nat ->
                             nth k (confidence_values ctx1) 0 = 0).
  { intros k Hk.
    destruct (estimate_all_values ctx mic_data samples k 0 ltac:(fold M; lia))
      as (_ & _ & Hc & _).
    fold ctx1 in Hc. rewrite Hc by lia. destruct k; [lia|].
    apply peak_correlation_silent; auto. }
  destruct (estimate_all_frame ctx mic_data samples) as [Hcfg _].
  assert (Havg : average_confidence (num_microphones (config ctx1))
                                    (confidence_values ctx1) = 1 / IZR M).
  { unfold average_confidence. fold ctx1 in Hcfg. rewrite Hcfg. fold M.
    rewrite sum_one_hot; auto; lia. }
  split.
  - unfold localization_process. rewrite Hw. fold ctx1.
    unfold below_threshold. rewrite Havg. fold ctx1 in Hcfg. rewrite Hcfg.
    cbn [flt R_float]. rewrite Rltb_true by exact Hth. reflexivity.
  - intros k Hk.
    destruct (estimate_all_values ctx mic_data samples k 0 ltac:(fold M; lia))
      as (_ & _ & _ & Hd).
    fold ctx1 in Hd. rewrite Hd by lia. destruct k; [lia|].
    apply estimate_delay_silent; auto.
Qed.

Lemma silent_silent_data : silent silent_data.
Proof.
  intros i k. unfold silent_data, constant_block.
  destruct i as [|[|[|[|i]]]]; cbn [nth]; try apply nth_repeat;
    destruct i, k; reflexivity.
Qed.

Lemma silent_block_confidence_witness :
  silent silent_data /\
  (1 <= num_microphones (config quad_context))%Z /\
  (Z.to_nat (num_microphones (config quad_context))
   <= length (confidence_values quad_context))%nat /\
  (Z.to_nat (num_microphones (config quad_context))
   <= length (delay_estimates quad_context))%nat /\
  (0 <= max_delay_of (config quad_context))%Z /\
  (1024 <? to_size_t (correlation_window_size (config quad_context)))%Z = false /\
  1 / IZR (num_microphones (config quad_context))
  < min_confidence_threshold (config quad_context) /\
  localization_process quad_context silent_data 1024 =
    (MICARRAY_SUCCESS, estimate_all quad_context silent_data 1024, origin (1 / 4)).
Proof.
  assert (H1 : (1 <= num_microphones (config quad_context))%Z) by (simpl; lia).
  assert (H2 : (Z.to_nat (num_microphones (config quad_context))
                <= length (confidence_values quad_context))%nat) by (simpl; lia).
  assert (H3 : (Z.to_nat (num_microphones (config quad_context))
                <= length (delay_estimates quad_context))%nat) by (simpl; lia).
  assert (H4 : (0 <= max_delay_of (config quad_context))%Z).
  { change (config quad_context) with quad_config.
    rewrite max_delay_of_quad_config. lia. }
  assert (H5 : (1024 <? to_size_t (correlation_window_size (config quad_context)))%Z
               = false) by (vm_compute; reflexivity).
  assert (H6 : 1 / IZR (num_microphones (config quad_context))
               < min_confidence_threshold (config quad_context)).
  { cbn [config quad_context quad_config num_microphones min_confidence_threshold]. lra. }
  split; [exact silent_silent_data|].
  split; [exact H1|]. split; [exact H2|]. split; [exact H3|]. split; [exact H4|].
  split; [exact H5|]. split; [exact H6|].
  exact (proj1 (silent_block_confidence quad_context silent_data 1024
                  silent_silent_data H1 H2 H3 H4 H5 H6)).
Defined.

Lemma confidence_range_witness :
  (1 <= num_microphones (config test_context))%Z /\
  (Z.to_nat (num_microphones (config test_context))
   <= length (confidence_values test_context))%nat /\
  -1 <= confidence (snd (localization_process test_context opposed_data 1024)) <= 1.
Proof.
  assert (H1 : (1 <= num_microphones (config test_context))%Z) by (simpl; lia).
  assert (H2 : (Z.to_nat (num_microphones (config test_context))
                <= length (confidence_values test_context))%nat) by (simpl; lia).
  split; [exact H1|split; [exact H2|]].
  exact (confidence_range test_context opposed_data 1024 H1 H2).
Defined.

End LocalizationFacts.

Module Binary32Facts.

(** The laws of [float_order] hold of the binary32 operations on the sample
    values, NaN, zeros and infinities among them. *)
Lemma order_holds_on_samples :
  Binary32.order_holds_on Binary32.sample_values = true.
Proof. vm_compute. reflexivity. Qed.

End Binary32Facts.

Module NoiseReductionFacts.

Import NoiseReduction.

Section WithFloat.
Context {F : Type} {FO : FloatOps F} {FT : FFTW F}.
Local Open Scope float_scope.

(** *** Loops that touch one cell per round *)

Lemma length_for_each (n : nat) (h : nat -> F -> F) (data : list F) :
  length (for_each n h data) = length data.
Proof.
  unfold for_each. generalize (seq 0 n) as js. intros js. revert data.
  induction js as [|j js IH]; intros data; simpl; auto.
  rewrite IH. apply length_upd.
Qed.

Lemma nth_for_each_list (h : nat -> F -> F) (js : list nat) (data : list F)
  (k : nat) (d : F) :
  NoDup js -> (k < length data)%nat ->
  nth k (fold_left (fun d i => upd i (h i (nth i d (of_int 0))) d) js data) d =
  if in_dec Nat.eq_dec k js then h k (nth k data (of_int 0)) else nth k data d.
Proof.
  revert data. induction js as [|j js IH]; intros data Hnd Hk; simpl fold_left.
  - destruct (in_dec Nat.eq_dec k []) as [[]|]; reflexivity.
  - inversion Hnd as [|? ? Hj Hnd']; subst.
    rewrite IH by (auto; rewrite length_upd; exact Hk).
    destruct (in_dec Nat.eq_dec k js) as [Hin|Hnin];
      destruct (in_dec Nat.eq_dec k (j :: js)) as [Hin'|Hnin']; simpl in *.
    + assert (j <> k) by (intros ->; contradiction).
      now rewrite nth_upd_other.
    + exfalso. apply Hnin'. now right.
    + destruct Hin' as [->|Hin']; [|contradiction].
      now rewrite nth_upd_same.
    + assert (j <> k) by (intros ->; apply Hnin'; now left).
      now rewrite nth_upd_other.
Qed.

Lemma nth_for_each (n : nat) (h : nat -> F -> F) (data : list F) (k : nat) (d : F) :
  (k < n)%nat -> (k < length data)%nat ->
  nth k (for_each n h data) d = h k (nth k data (of_int 0)).
Proof.
  intros Hn Hk. unfold for_each.
  rewrite nth_for_each_list by (auto using seq_NoDup).
  destruct (in_dec Nat.eq_dec k (seq 0 n)) as [|Hnin]; auto.
  exfalso. apply Hnin. apply in_seq. lia.
Qed.

Lemma length_blit {A} (src : list A) (n : nat) (dst : list A) :
  length (blit src n dst) = (Nat.min n (length src) + (length dst - n))%nat.
Proof. unfold blit. now rewrite length_app, length_firstn, length_skipn. Qed.

Lemma nth_zero_fill (n : nat) (dst : list F) (k : nat) (d : F) :
  (k < n)%nat -> (k < length dst)%nat -> nth k (zero_fill n dst) d = of_int 0.
Proof.
  intros Hn Hk. unfold zero_fill.
  rewrite app_nth1 by (rewrite repeat_length; lia).
  apply nth_repeat_lt. lia.
Qed.

Lemma zero_fill_all (n : nat) (dst : list F) :
  length dst = n -> zero_fill n dst = repeat (of_int 0) n.
Proof.
  intros <-. unfold zero_fill. rewrite Nat.min_id, skipn_all. apply app_nil_r.
Qed.

Lemma scaled_magnitude_same_profile c1 c2 i X :
  same_profile c1 c2 -> scaled_magnitude c1 i X = scaled_magnitude c2 i X.
Proof.
  intros (Hc & Hn & Hr). unfold scaled_magnitude. now rewrite Hc, Hn, Hr.
Qed.

Lemma subtract_bins (js : list nat) (ctx : noise_reduction_context F)
  (spectrum : list (F * F)) (k : nat) (d : F * F) :
  NoDup js -> (k < length spectrum)%nat ->
  same_profile (fst (fold_left subtract_bin js (ctx, spectrum))) ctx /\
  nth k (snd (fold_left subtract_bin js (ctx, spectrum))) d =
  if in_dec Nat.eq_dec k js
  then
    let X := nth k spectrum (of_int 0, of_int 0) in
    (scaled_magnitude ctx k X * cosf (bin_phase X),
     scaled_magnitude ctx k X * sinf (bin_phase X))
  else nth k spectrum d.
Proof.
  revert ctx spectrum. induction js as [|j js IH]; intros ctx spectrum Hnd Hk.
  - simpl. split; [repeat split|].
    destruct (in_dec Nat.eq_dec k []) as [[]|]; reflexivity.
  - inversion Hnd as [|? ? Hj Hnd']; subst.
    change (fold_left subtract_bin (j :: js) (ctx, spectrum))
      with (fold_left subtract_bin js (subtract_bin (ctx, spectrum) j)).
    assert (Hp1 : same_profile (fst (subtract_bin (ctx, spectrum) j)) ctx)
      by (repeat split).
    assert (Hs1 : snd (subtract_bin (ctx, spectrum) j) =
                  upd j (scaled_magnitude ctx j (nth j spectrum (of_int 0, of_int 0))
                         * cosf (bin_phase (nth j spectrum (of_int 0, of_int 0))),
                         scaled_magnitude ctx j (nth j spectrum (of_int 0, of_int 0))
                         * sinf (bin_phase (nth j spectrum (of_int 0, of_int 0))))
                      spectrum) by reflexivity.
    destruct (subtract_bin (ctx, spectrum) j) as [c1 s1]. simpl in Hp1, Hs1.
    destruct (IH c1 s1 Hnd' ltac:(rewrite Hs1, length_upd; exact Hk)) as [Hp Hn].
    split.
    + destruct Hp as (A1 & A2 & A3), Hp1 as (B1 & B2 & B3).
      repeat split; congruence.
    + rewrite Hn.
      destruct (in_dec Nat.eq_dec k js) as [Hin|Hnin];
        destruct (in_dec Nat.eq_dec k (j :: js)) as [Hin'|Hnin']; simpl in *.
      * assert (j <> k) by (intros ->; contradiction).
        rewrite Hs1, nth_upd_other by assumption.
        now rewrite (scaled_magnitude_same_profile c1 ctx).
      * exfalso. apply Hnin'. now right.
      * destruct Hin' as [->|Hin']; [|contradiction].
        rewrite Hs1. now rewrite nth_upd_same.
      * assert (j <> k) by (intros ->; apply Hnin'; now left).
        rewrite Hs1. now rewrite nth_upd_other.
Qed.

Lemma spectral_subtraction_bin (ctx : noise_reduction_context F)
  (spectrum : list (F * F)) (size : Z) (k : nat) (d : F * F) :
  (Z.of_nat k < Z.quot size 2 + 1)%Z -> (k < length spectrum)%nat ->
  nth k (snd (spectral_subtraction ctx spectrum size)) d =
  let X := nth k spectrum (of_int 0, of_int 0) in
  (scaled_magnitude ctx k X * cosf (bin_phase X),
   scaled_magnitude ctx k X * sinf (bin_phase X)).
Proof.
  intros Hk Hl. unfold spectral_subtraction.
  destruct (subtract_bins (seq 0 (Z.to_nat (Z.quot size 2 + 1))) ctx spectrum k d
              (seq_NoDup _ _) Hl) as [_ Hn].
  rewrite Hn. destruct (in_dec Nat.eq_dec k _) as [|Hnin]; auto.
  exfalso. apply Hnin. apply in_seq. lia.
Qed.

(** *** A noise segment shorter than one frame *)

(** C10: when [noise_reduction_update_noise_profile] is given fewer than
    [frame_size] samples it returns success after the [memset] alone: the
    training loop runs no round (whatever bound on its rounds), every bin of
    the stored noise spectrum is zero, and [noise_profile_ready] is what it
    was, so that a profile trained before reads as trained and is all zero. *)
Theorem short_segment_zeroes_profile (fuel : nat) (ctx : noise_reduction_context F)
  (noise_samples : list Z) (samples : Z) :
  (0 <= samples)%Z ->
  (frame_size (config ctx) <= INT_MAX)%Z ->
  (samples < frame_size (config ctx))%Z ->
  let bins := Z.to_nat (Z.quot (frame_size (config ctx)) 2 + 1) in
  let ctx' := set_noise (zero_fill bins (noise_spectrum ctx))
                        (noise_profile_ready ctx) ctx in
  noise_reduction_update_noise_profile fuel ctx noise_samples samples =
    Some (MICARRAY_SUCCESS, ctx') /\
  noise_profile_ready ctx' = noise_profile_ready ctx /\
  (forall k d, (k < bins)%nat -> (k < length (noise_spectrum ctx))%nat ->
               nth k (noise_spectrum ctx') d = of_int 0) /\
  (length (noise_spectrum ctx) = bins ->
   noise_spectrum ctx' = repeat (of_int 0) bins).
Proof.
  intros H0 Hmax Hlt bins ctx'. unfold INT_MAX in Hmax.
  split; [|split; [reflexivity|split]].
  - unfold noise_reduction_update_noise_profile. fold bins. fold ctx'.
    assert (E : profile_loop fuel noise_samples samples (ctx', 0%Z, 0%Z)
                = Some (ctx', 0%Z)).
    { destruct fuel; simpl;
        (rewrite to_size_t_id
           by (change (2 ^ 64)%Z with 18446744073709551616%Z; lia));
        destruct (Z.leb_spec (frame_size (config ctx)) samples); try lia; reflexivity. }
    rewrite E. reflexivity.
  - intros k d Hk Hl. simpl. now apply nth_zero_fill.
  - intros Hl. simpl. now apply zero_fill_all.
Qed.

Lemma other_algorithm_eqb (ctx : noise_reduction_context F) :
  other_algorithm ctx ->
  String.eqb (algorithm (config ctx)) spectral_subtraction_name = false.
Proof. intros H. now apply String.eqb_neq. Qed.

Lemma spectral_step_skipped (ctx : noise_reduction_context F) :
  other_algorithm ctx -> spectral_step ctx = ctx.
Proof. intros H. unfold spectral_step. now rewrite other_algorithm_eqb. Qed.

Lemma forget_profile_transform (ctx : noise_reduction_context F) :
  other_algorithm ctx ->
  forget_profile (transform_frame ctx) = transform_frame (forget_profile ctx) /\
  profile_of (transform_frame ctx) = profile_of ctx /\
  config (transform_frame ctx) = config ctx.
Proof.
  intros Halg. unfold transform_frame.
  assert (A : other_algorithm (execute_forward (window_frame (load_frame ctx))))
    by exact Halg.
  assert (B : other_algorithm
                (execute_forward (window_frame (load_frame (forget_profile ctx)))))
    by exact Halg.
  rewrite (spectral_step_skipped _ A), (spectral_step_skipped _ B).
  repeat split.
Qed.

Lemma process_round_forget (in_place : bool) (samples : Z) (st : process_state F) :
  other_algorithm (st_ctx st) ->
  forget_state (process_round in_place samples st) =
  process_round in_place samples (forget_state st) /\
  profile_of (st_ctx (process_round in_place samples st)) = profile_of (st_ctx st) /\
  algorithm (config (st_ctx (process_round in_place samples st))) =
  algorithm (config (st_ctx st)).
Proof.
  intros Halg. unfold process_round.
  change (round_copy samples (forget_state st)) with (round_copy samples st).
  set (to_copy := round_copy samples st).
  change (round_fill to_copy (forget_state st))
    with (forget_profile (round_fill to_copy st)).
  change (frame_size (config (st_ctx (forget_state st))))
    with (frame_size (config (st_ctx st))).
  change (buffer_pos (forget_profile (round_fill to_copy st)))
    with (buffer_pos (round_fill to_copy st)).
  change (st_processed (forget_state st)) with (st_processed st).
  change (st_mem (forget_state st)) with (st_mem st).
  assert (Halg1 : other_algorithm (round_fill to_copy st)) by exact Halg.
  destruct (forget_profile_transform _ Halg1) as (Hf & Hp & Hc).
  destruct (frame_size (config (st_ctx st)) <=? buffer_pos (round_fill to_copy st))%Z.
  - unfold round_emit.
    change (hop_size (forget_profile (round_fill to_copy st)))
      with (hop_size (round_fill to_copy st)).
    rewrite <- Hf. clear Hf Halg1. revert Hp Hc.
    change (algorithm (config (st_ctx st)))
      with (algorithm (config (round_fill to_copy st))).
    change (profile_of (st_ctx st)) with (profile_of (round_fill to_copy st)).
    generalize (transform_frame (round_fill to_copy st)) as T.
    generalize (round_fill to_copy st) as c1. intros c1 T Hp Hc.
    split; [reflexivity|]. cbn [st_ctx]. split.
    + change (profile_of (slide_accumulator (save_tail T))) with (profile_of T).
      exact Hp.
    + change (config (slide_accumulator (save_tail T))) with (config T).
      now rewrite Hc.
  - repeat split.
Qed.

Lemma process_loop_forget (fuel : nat) (in_place : bool) (samples : Z)
  (st : process_state F) :
  other_algorithm (st_ctx st) ->
  option_map forget_state (process_loop fuel in_place samples st) =
  process_loop fuel in_place samples (forget_state st) /\
  (forall st', process_loop fuel in_place samples st = Some st' ->
               profile_of (st_ctx st') = profile_of (st_ctx st)).
Proof.
  revert st. induction fuel as [|fuel IH]; intros st Halg; simpl;
    change (st_processed (forget_state st)) with (st_processed st);
    destruct (st_processed st <? samples)%Z.
  - split; [reflexivity|discriminate].
  - split; [reflexivity|]. intros st' E. now inversion E.
  - destruct (process_round_forget in_place samples st Halg) as (Hf & Hp & Ha).
    assert (Halg' : other_algorithm (st_ctx (process_round in_place samples st)))
      by (unfold other_algorithm in *; now rewrite Ha).
    destruct (IH _ Halg') as [H1 H2]. split.
    + rewrite H1, Hf. reflexivity.
    + intros st' E. rewrite (H2 _ E). exact Hp.
  - split; [reflexivity|]. intros st' E. now inversion E.
Qed.

(** Under an algorithm name other than "spectral_subtraction" the call
    neither reads nor writes the noise profile, its flag, the recorded
    spectra, the threshold, [alpha] or [beta]: run on the context without
    them it returns the same code and the same output samples, and it
    leaves them as they were. *)
Theorem other_algorithm_skips_subtraction (fuel : nat) (in_place : bool)
  (ctx : noise_reduction_context F) (input output : list Z) (samples : Z) :
  algorithm (config ctx) <> spectral_subtraction_name ->
  spectral_step ctx = ctx /\
  option_map (fun r => (fst (fst r), forget_profile (snd (fst r)), snd r))
             (noise_reduction_process fuel in_place ctx input output samples) =
  noise_reduction_process fuel in_place (forget_profile ctx) input output samples /\
  (forall code ctx' output',
     noise_reduction_process fuel in_place ctx input output samples =
       Some (code, ctx', output') ->
     code = MICARRAY_SUCCESS /\ profile_of ctx' = profile_of ctx).
Proof.
  intros Halg. split; [now apply spectral_step_skipped|].
  unfold noise_reduction_process.
  destruct (process_loop_forget fuel in_place samples
              {| st_ctx := ctx; st_mem := (input, output); st_processed := 0%Z |}
              Halg) as [H1 H2].
  change (forget_state {| st_ctx := ctx; st_mem := (input, output);
                          st_processed := 0%Z |})
    with {| st_ctx := forget_profile ctx; st_mem := (input, output);
            st_processed := 0%Z |} in H1.
  rewrite <- H1. split.
  - destruct (process_loop fuel in_place samples _) as [st'|]; reflexivity.
  - intros code ctx' output' E.
    destruct (process_loop fuel in_place samples _) as [st'|] eqn:El; [|discriminate].
    inversion E; subst. split; [reflexivity|]. now apply H2.
Qed.

(** *** Termination of the processing loop *)

Lemma subtract_bins_position (js : list nat)
  (st : noise_reduction_context F * list (F * F)) :
  config (fst (fold_left subtract_bin js st)) = config (fst st) /\
  buffer_pos (fst (fold_left subtract_bin js st)) = buffer_pos (fst st).
Proof.
  revert st. induction js as [|j js IH]; intros st; [split; reflexivity|].
  simpl fold_left. destruct (IH (subtract_bin st j)) as [H1 H2].
  rewrite H1, H2. destruct st as [c s]. split; reflexivity.
Qed.

Lemma spectral_step_position (ctx : noise_reduction_context F) :
  config (spectral_step ctx) = config ctx /\
  buffer_pos (spectral_step ctx) = buffer_pos ctx.
Proof.
  unfold spectral_step, spectral_subtraction.
  destruct (String.eqb _ _); [|split; reflexivity].
  pose proof (subtract_bins_position
                (seq 0 (Z.to_nat (Z.quot (frame_size (config ctx)) 2 + 1)))
                (ctx, fft_output ctx)) as H.
  destruct (fold_left subtract_bin _ _) as [c s]. exact H.
Qed.

Lemma transform_frame_position (ctx : noise_reduction_context F) :
  config (transform_frame ctx) = config ctx /\
  buffer_pos (transform_frame ctx) = buffer_pos ctx.
Proof.
  destruct (spectral_step_position (execute_forward (window_frame (load_frame ctx))))
    as [H1 H2].
  unfold transform_frame.
  set (X := execute_forward (window_frame (load_frame ctx))) in *.
  change (config ctx) with (config X). change (buffer_pos ctx) with (buffer_pos X).
  rewrite <- H1, <- H2. generalize (spectral_step X) as Y. intros Y.
  split; reflexivity.
Qed.

(** *** Termination of the training loop *)

Lemma profile_loop_returns (fuel : nat) (ns : list Z) (samples : Z)
  (ctx : noise_reduction_context F) (nf p : Z) :
  (2 <= frame_size (config ctx) <= INT_MAX)%Z ->
  (samples <= INT_MAX)%Z ->
  (0 <= p <= samples)%Z -> (0 <= nf <= p)%Z ->
  (samples - p <= Z.of_nat fuel)%Z ->
  exists ctx' nf',
    profile_loop fuel ns samples (ctx, nf, p) = Some (ctx', nf') /\
    stream_state ctx' = stream_state ctx /\
    noise_profile_ready ctx' = noise_profile_ready ctx /\
    (nf <= nf')%Z /\
    ((p + frame_size (config ctx) <= samples)%Z -> (nf < nf')%Z).
Proof.
  unfold INT_MAX. revert ctx nf p.
  induction fuel as [|fuel IH]; intros ctx nf p HF Hs Hp Hnf Hfuel.
  - cbn [profile_loop].
    rewrite to_size_t_id by (change (2 ^ 64)%Z with 18446744073709551616%Z; lia).
    destruct (Z.leb_spec (p + frame_size (config ctx)) samples) as [Hle|Hgt]; [lia|].
    exists ctx, nf. repeat split; lia.
  - cbn [profile_loop].
    rewrite to_size_t_id by (change (2 ^ 64)%Z with 18446744073709551616%Z; lia).
    destruct (Z.leb_spec (p + frame_size (config ctx)) samples) as [Hle|Hgt].
    + assert (Hh : (1 <= Z.quot (frame_size (config ctx)) 2 <= frame_size (config ctx))%Z).
      { split.
        - apply Z.quot_le_lower_bound; lia.
        - apply Z.quot_le_upper_bound; lia. }
      rewrite (to_int32_id (nf + 1)) by lia.
      rewrite (to_size_t_id (p + _))
        by (change (2 ^ 64)%Z with 18446744073709551616%Z; lia).
      destruct (IH (accumulate_frame ctx ns p) (nf + 1)%Z
                  (p + Z.quot (frame_size (config ctx)) 2)%Z
                  HF Hs ltac:(lia) ltac:(lia) ltac:(lia))
        as (ctx' & nf' & E & Hst & Hr & Hn & _).
      exists ctx', nf'. split; [exact E|]. split; [exact Hst|]. split; [exact Hr|].
      split; lia.
    + exists ctx, nf. repeat split; lia.
Qed.

(** X8: for a frame size of at least 2 and a noise segment of at least one
    frame, [noise_reduction_update_noise_profile] returns success within
    [samples] rounds of its loop and sets [noise_profile_ready]; it leaves the
    configuration, the input accumulator, the overlap tail and [buffer_pos] as
    they were. *)
Theorem long_segment_trains_profile (fuel : nat) (ctx : noise_reduction_context F)
  (noise_samples : list Z) (samples : Z) :
  (2 <= frame_size (config ctx) <= INT_MAX)%Z ->
  (frame_size (config ctx) <= samples <= INT_MAX)%Z ->
  (samples <= Z.of_nat fuel)%Z ->
  exists ctx',
    noise_reduction_update_noise_profile fuel ctx noise_samples samples =
      Some (MICARRAY_SUCCESS, ctx') /\
    noise_profile_ready ctx' = true /\
    stream_state ctx' = stream_state ctx.
Proof.
  intros HF Hs Hfuel. unfold noise_reduction_update_noise_profile.
  set (ctx0 := set_noise _ _ ctx).
  destruct (profile_loop_returns fuel noise_samples samples ctx0 0 0)
    as (ctx1 & nf & E & Hst & _ & _ & Hnf);
    try (cbn [config ctx0 set_noise]; lia).
  rewrite E. specialize (Hnf ltac:(cbn [config ctx0 set_noise]; lia)).
  replace (0 <? nf)%Z with true by (symmetry; apply Z.ltb_lt; lia).
  eexists. split; [reflexivity|]. split; [reflexivity|]. exact Hst.
Qed.

Lemma profile_loop_stuck (fuel : nat) (ns : list Z) (samples : Z)
  (ctx : noise_reduction_context F) (nf : Z) :
  (0 <= frame_size (config ctx) <= 1)%Z ->
  (frame_size (config ctx) <= samples)%Z ->
  profile_loop fuel ns samples (ctx, nf, 0%Z) = None.
Proof.
  intros HF Hs. revert ctx nf HF Hs.
  induction fuel as [|fuel IH]; intros ctx nf HF Hs; cbn [profile_loop];
    rewrite Z.add_0_l;
    rewrite (to_size_t_id (frame_size (config ctx)))
      by (change (2 ^ 64)%Z with 18446744073709551616%Z; lia);
    destruct (Z.leb_spec (frame_size (config ctx)) samples) as [Hle|Hgt];
    try lia; [reflexivity|].
  replace (Z.quot (frame_size (config ctx)) 2) with 0%Z
    by (symmetry; apply Z.quot_small; lia).
  change (to_size_t 0) with 0%Z. apply IH; assumption.
Qed.

(** X9: with a frame size of 0 or 1 the training loop advances by [frame_size
    / 2 = 0] samples per round: given at least [frame_size] samples,
    [noise_reduction_update_noise_profile] does not return, whatever the bound
    on the number of rounds. *)
Theorem tiny_frame_never_returns (fuel : nat) (ctx : noise_reduction_context F)
  (noise_samples : list Z) (samples : Z) :
  (0 <= frame_size (config ctx) <= 1)%Z ->
  (frame_size (config ctx) <= samples)%Z ->
  noise_reduction_update_noise_profile fuel ctx noise_samples samples = None.
Proof.
  intros HF Hs. unfold noise_reduction_update_noise_profile.
  rewrite profile_loop_stuck; [reflexivity| |]; assumption.
Qed.

End WithFloat.

(** *** The spectral gain, in every floating-point arithmetic *)

Section WithOrder.
Context {F : Type} {FO : FloatOps F} {FT : FFTW F} {FL : FloatLe F}.
Local Open Scope float_scope.

Lemma bin_gain_clamped (cfg : noise_reduction_config F) (noise magnitude : F) :
  float_order F ->
  number (beta cfg) -> fle (beta cfg) (of_int 1) = true ->
  fle (beta cfg) (bin_gain cfg noise magnitude) = true /\
  fle (bin_gain cfg noise magnitude) (of_int 1) = true /\
  (fgt (magnitude / (noise + lit 1 10)) (noise_threshold cfg) = false ->
   fle (bin_gain cfg noise magnitude) (beta cfg) = true).
Proof.
  intros L Hb Hb1. unfold bin_gain.
  set (g := if fgt (magnitude / (noise + lit 1 10)) (noise_threshold cfg)
            then of_int 1 - alpha cfg * (noise / magnitude) else beta cfg).
  split; [|split].
  - destruct (fminf_picks L (fmaxf g (beta cfg)) (of_int 1)) as [E|E]; rewrite E.
    + apply (fmaxf_above_right L). exact Hb.
    + exact Hb1.
  - apply (fminf_below_right L). apply (one_is_number L).
  - intros Hs. subst g. rewrite Hs.
    destruct (fmaxf_picks L (beta cfg) (beta cfg)) as [E|E]; rewrite E;
      apply (fminf_below_left L); exact Hb.
Qed.

(** C7 (as amended): with a trained noise profile, in every floating-point
    arithmetic whose order obeys [float_order], and for a noise floor
    [beta] that is a number not above 1: every bin [k] of the spectrum is
    replaced by [(mag * gain * cosf (phase), mag * gain * sinf (phase))],
    where [mag] and [phase] are the modulus and the argument of the bin
    before the call. The gain is [fminf (fmaxf (g, beta), 1.0f)]; it lies
    in [beta, 1], and it is not above [beta] when
    [mag / (noise[k] + 1e-10) > noise_threshold] is false. The scaled
    magnitude [mag * gain], as the arithmetic rounds it, is not above [mag]
    and not below the rounded [mag * beta], whenever the three are
    numbers. *)
Theorem spectral_gain_clamped (ctx : noise_reduction_context F)
  (spectrum : list (F * F)) (size : Z) (k : nat) :
  float_order F ->
  noise_profile_ready ctx = true ->
  number (beta (config ctx)) ->
  fle (beta (config ctx)) (of_int 1) = true ->
  (Z.of_nat k < Z.quot size 2 + 1)%Z ->
  (k < length spectrum)%nat ->
  let X := nth k spectrum (of_int 0, of_int 0) in
  let mag := bin_magnitude X in
  let phase := bin_phase X in
  let noise := nth k (noise_spectrum ctx) (of_int 0) in
  let gain := bin_gain (config ctx) noise mag in
  let X' := nth k (snd (spectral_subtraction ctx spectrum size)) (of_int 0, of_int 0) in
  X' = (mag * gain * cosf phase, mag * gain * sinf phase) /\
  mag = sqrtf (fst X * fst X + snd X * snd X) /\
  phase = atan2f (snd X) (fst X) /\
  gain = fminf (fmaxf (if fgt (mag / (noise + lit 1 10)) (noise_threshold (config ctx))
                       then of_int 1 - alpha (config ctx) * (noise / mag)
                       else beta (config ctx))
                      (beta (config ctx)))
               (of_int 1) /\
  fle (beta (config ctx)) gain = true /\
  fle gain (of_int 1) = true /\
  (fgt (mag / (noise + lit 1 10)) (noise_threshold (config ctx)) = false ->
   fle gain (beta (config ctx)) = true) /\
  (number mag -> number (mag * beta (config ctx)) -> number (mag * gain) ->
   fle (mag * beta (config ctx)) (mag * gain) = true /\
   fle (mag * gain) mag = true).
Proof.
  intros L Hr Hb Hb1 Hk Hl X mag phase noise gain X'.
  destruct (bin_gain_clamped (config ctx) noise mag L Hb Hb1) as (Hg0 & Hg1 & Hs).
  fold gain in Hg0, Hg1, Hs.
  split.
  { subst X'. rewrite spectral_subtraction_bin by assumption.
    cbv zeta. unfold scaled_magnitude. rewrite Hr. reflexivity. }
  split; [reflexivity|]. split; [reflexivity|]. split; [reflexivity|].
  split; [exact Hg0|]. split; [exact Hg1|]. split; [exact Hs|].
  intros Hm Hmb Hmg.
  assert (H0 : fle (of_int 0) mag = true) by (apply (sqrtf_not_negative L); exact Hm).
  split.
  - apply (fmul_keeps_order L); assumption.
  - rewrite <- (fmul_one L mag Hm) at 2.
    apply (fmul_keeps_order L); try assumption.
    unfold number. rewrite (fmul_one L mag Hm). exact Hm.
Qed.

End WithOrder.

Import Exact.
Local Open Scope R_scope.

Import ExactFacts.

Lemma polar_modulus (m phase : R) :
  0 <= m -> bin_magnitude (m * cos phase, m * sin phase) = m.
Proof.
  intros Hm. unfold bin_magnitude. cbn [fst snd sqrtf fadd fmul R_float].
  replace (m * cos phase * (m * cos phase) + m * sin phase * (m * sin phase))
    with (m * m * (Rsqr (sin phase) + Rsqr (cos phase))) by (unfold Rsqr; ring).
  rewrite sin2_cos2, Rmult_1_r. now apply sqrt_square.
Qed.

Lemma Rleb_true (a b : R) : a <= b -> Rleb a b = true.
Proof. intros H. unfold Rleb. destruct (Rle_dec a b); [reflexivity|contradiction]. Qed.

Lemma Rleb_le (a b : R) : Rleb a b = true -> a <= b.
Proof. unfold Rleb. destruct (Rle_dec a b); [auto|discriminate]. Qed.

(** The real numbers satisfy [float_order]. *)
Lemma float_order_exact : float_order R.
Proof.
  constructor; unfold number; cbn [fle R_le fmaxf fminf fmul of_int sqrtf R_float].
  - apply Rleb_true. lra.
  - intros a b. unfold Rmax. destruct (Rle_dec a b); auto.
  - intros a b _. apply Rleb_true. apply Rmax_r.
  - intros a b. unfold Rmin. destruct (Rle_dec a b); auto.
  - intros a b _. apply Rleb_true. apply Rmin_l.
  - intros a b _. apply Rleb_true. apply Rmin_r.
  - intros m _. change (IZR 1) with 1. ring.
  - intros x _. apply Rleb_true. change (IZR 0) with 0. apply sqrt_pos.
  - intros m a b Hm Hab _ _. apply Rleb_true. apply Rleb_le in Hm, Hab.
    change (IZR 0) with 0 in Hm. nra.
Qed.

Lemma spectral_gain_clamped_witness :
  let ctx := trained_context in
  let spectrum := [(3, 4); (0, 0); (1, 0); (0, 0)] in
  let X := nth 0 spectrum (0, 0) in
  let mag := bin_magnitude X in
  let phase := bin_phase X in
  let noise := nth 0 (noise_spectrum ctx) 0 in
  let gain := bin_gain (config ctx) noise mag in
  let X' := nth 0 (snd (spectral_subtraction ctx spectrum 4)) (0, 0) in
  float_order R /\
  noise_profile_ready ctx = true /\
  number (beta (config ctx)) /\
  fle (beta (config ctx)) 1 = true /\
  (Z.of_nat 0 < Z.quot 4 2 + 1)%Z /\
  (0 < length spectrum)%nat /\
  X' = (mag * gain * cos phase, mag * gain * sin phase) /\
  fle (beta (config ctx)) gain = true /\
  fle gain 1 = true /\
  fle (mag * beta (config ctx)) (mag * gain) = true /\
  fle (mag * gain) mag = true.
Proof.
  intros ctx spectrum X mag phase noise gain X'.
  assert (H1 : noise_profile_ready ctx = true) by reflexivity.
  assert (H2 : number (beta (config ctx))) by (apply Rleb_true; lra).
  assert (H3 : fle (beta (config ctx)) 1 = true) by (apply Rleb_true; simpl; lra).
  assert (H4 : (Z.of_nat 0 < Z.quot 4 2 + 1)%Z) by (vm_compute; reflexivity).
  assert (H5 : (0 < length spectrum)%nat) by (simpl; lia).
  destruct (spectral_gain_clamped ctx spectrum 4 0 float_order_exact H1 H2 H3 H4 H5)
    as (E & _ & _ & _ & G0 & G1 & _ & M).
  destruct (M ltac:(apply Rleb_true; lra) ltac:(apply Rleb_true; lra)
              ltac:(apply Rleb_true; lra)) as [M0 M1].
  split; [exact float_order_exact|]. split; [exact H1|]. split; [exact H2|].
  split; [exact H3|]. split; [exact H4|]. split; [exact H5|]. split; [exact E|].
  split; [exact G0|]. split; [exact G1|]. split; [exact M0|exact M1].
Defined.

(** C7 (counterexample): with a noise floor [beta] of 2, the bin (1, 0)
    over a noise of 1 has [mag / (noise + 1e-10)] below the threshold 10,
    yet its gain is 1 and not [beta]: the ceiling [fminf (gain, 1.0f)] is
    applied after the floor. The gain is outside [beta, 1], and the modulus
    of the new bin, 1, is below [beta * mag = 2]. *)
Lemma floor_above_one_is_cut :
  let ctx := high_floor_context in
  let spectrum := [(1, 0); (0, 0); (0, 0)] in
  let X := nth 0 spectrum (0, 0) in
  let mag := bin_magnitude X in
  let noise := nth 0 (noise_spectrum ctx) 0 in
  let gain := bin_gain (config ctx) noise mag in
  let X' := nth 0 (snd (spectral_subtraction ctx spectrum 4)) (0, 0) in
  noise_profile_ready ctx = true /\
  mag = 1 /\
  mag / (noise + lit 1 10) <= noise_threshold (config ctx) /\
  gain = 1 /\
  gain <> beta (config ctx) /\
  ~ (beta (config ctx) <= gain <= 1) /\
  bin_magnitude X' = 1 /\
  bin_magnitude X' < beta (config ctx) * mag.
Proof.
  intros ctx spectrum X mag noise gain X'.
  assert (Hmag : mag = 1).
  { subst mag X. unfold bin_magnitude. cbn [nth spectrum fst snd sqrtf fadd fmul R_float].
    replace (1 * 1 + 0 * 0) with 1 by ring. apply sqrt_1. }
  assert (Hnoise : noise = 1) by reflexivity.
  assert (Hlit : lit (F := R) 1 10 = 1 / 10000000000).
  { unfold lit. cbn [fdiv of_int R_float]. reflexivity. }
  assert (Hsnr : mag / (noise + lit 1 10) <= noise_threshold (config ctx)).
  { rewrite Hmag, Hnoise, Hlit. change (noise_threshold (config ctx)) with 10.
    apply Rmult_le_reg_r with (1 + 1 / 10000000000); [lra|]. field_simplify; lra. }
  assert (Hgain : gain = 1).
  { subst gain. unfold bin_gain, fgt.
    cbn [fmaxf fminf flt fsub fmul fdiv fadd of_int R_float].
    rewrite Rltb_false by exact Hsnr.
    change (beta (config ctx)) with 2.
    rewrite Rmax_left by lra. apply Rmin_right. lra. }
  assert (HX : bin_magnitude X' = 1).
  { subst X'. rewrite spectral_subtraction_bin by (simpl; lia || (vm_compute; reflexivity)).
    cbv zeta. unfold scaled_magnitude.
    change (noise_profile_ready ctx) with true. cbv iota.
    assert (Hm : bin_magnitude (nth 0 spectrum (of_int 0, of_int 0)) = 1)
      by exact Hmag.
    rewrite Hm.
    assert (Hg : bin_gain (config ctx) (nth 0 (noise_spectrum ctx) (of_int 0)) 1 = 1)
      by (rewrite <- Hmag at 1; exact Hgain).
    rewrite Hg.
    cbn [fmul cosf sinf R_float]. rewrite (polar_modulus (1 * 1)) by lra. ring. }
  split; [reflexivity|]. split; [exact Hmag|]. split; [exact Hsnr|].
  split; [exact Hgain|].
  change (beta (config ctx)) with 2.
  split; [rewrite Hgain; lra|]. split; [rewrite Hgain; lra|].
  split; [exact HX|]. rewrite HX, Hmag. lra.
Qed.

Lemma short_segment_zeroes_profile_witness :
  let ctx := trained_context in
  (0 <= 2)%Z /\
  (frame_size (config ctx) <= INT_MAX)%Z /\
  (2 < frame_size (config ctx))%Z /\
  noise_reduction_update_noise_profile 8 ctx [5; 6]%Z 2 =
    Some (MICARRAY_SUCCESS, set_noise [0; 0; 0] true ctx) /\
  noise_profile_ready ctx = true.
Proof.
  intros ctx.
  assert (H1 : (0 <= 2)%Z) by lia.
  assert (H2 : (frame_size (config ctx) <= INT_MAX)%Z) by (vm_compute; discriminate).
  assert (H3 : (2 < frame_size (config ctx))%Z) by (vm_compute; reflexivity).
  split; [exact H1|split; [exact H2|split; [exact H3|]]].
  split; [|reflexivity].
  exact (proj1 (short_segment_zeroes_profile 8 ctx [5; 6]%Z 2 H1 H2 H3)).
Defined.

Lemma other_algorithm_skips_subtraction_witness :
  let ctx := passthrough_context in
  algorithm (config ctx) <> spectral_subtraction_name /\
  spectral_step ctx = ctx /\
  option_map (fun r => (fst (fst r), forget_profile (snd (fst r)), snd r))
             (noise_reduction_process 1 false ctx [1000; 0; 0; 0]%Z [7; 7; 7; 7]%Z 4) =
  noise_reduction_process 1 false (forget_profile ctx) [1000; 0; 0; 0]%Z [7; 7; 7; 7]%Z 4.
Proof.
  intros ctx.
  assert (H : algorithm (config ctx) <> spectral_subtraction_name)
    by (vm_compute; discriminate).
  split; [exact H|].
  split; [exact (proj1 (other_algorithm_skips_subtraction
                          1 false ctx [1000; 0; 0; 0]%Z [7; 7; 7; 7]%Z 4 H))|].
  exact (proj1 (proj2 (other_algorithm_skips_subtraction
                         1 false ctx [1000; 0; 0; 0]%Z [7; 7; 7; 7]%Z 4 H))).
Defined.

(** *** The first sample of a first frame *)

Lemma fminf_of_int (a b : Z) : fminf (of_int a) (of_int b) = IZR (Z.min a b).
Proof.
  cbn [fminf of_int R_float].
  destruct (Z.min_spec a b) as [[Hl ->]|[Hl ->]].
  - apply Rmin_left. apply IZR_le. lia.
  - apply Rmin_right. now apply IZR_le.
Qed.

Lemma cast_size_t_fminf (a b : Z) :
  cast_size_t (fminf (of_int a) (of_int b)) = to_size_t (Z.min a b).
Proof.
  unfold cast_size_t. rewrite fminf_of_int. cbn [to_int R_float].
  now rewrite Rtrunc_IZR.
Qed.

Lemma hanning_first (size : Z) : hanning size 0 = 0.
Proof.
  unfold hanning, lit. cbn [fmul fsub fdiv of_int cosf M_PI R_float].
  change (IZR (Z.of_nat 0)) with 0.
  replace (2 * PI * 0 / IZR (size - 1)) with 0 by (unfold Rdiv; ring).
  rewrite cos_0. ring.
Qed.

Lemma to_pcm_silence : to_pcm 0 = 0%Z.
Proof.
  unfold to_pcm, cast_int16. cbn [fmaxf fminf fmul fneg of_int to_int R_float].
  rewrite Rmin_right by lra. rewrite Rmax_right by lra.
  rewrite Rmult_0_l. change 0 with (IZR 0). rewrite Rtrunc_IZR. reflexivity.
Qed.

(** Whatever the transforms return, the second window multiplies the first
    sample of the frame by [hanning 0 = 0]: after the overlap-add it is the
    first sample of the saved tail. *)
Lemma transform_frame_first (ctx : noise_reduction_context R) :
  other_algorithm ctx ->
  (0 < frame_size (config ctx))%Z -> (0 < overlap (config ctx))%Z ->
  (2 * Z.to_nat (frame_size (config ctx)) <= length (fft_input ctx))%nat ->
  length (input_buffer ctx) = Z.to_nat (frame_size (config ctx)) ->
  nth 0 (fft_input (transform_frame ctx)) 0 = nth 0 (overlap_buffer ctx) 0.
Proof.
  intros Halg Hn Hov Hfi Hib. unfold transform_frame.
  set (n := frame_size (config ctx)) in *.
  set (c2 := window_frame (load_frame ctx)).
  assert (L2 : (Z.to_nat n < length (fft_input c2))%nat).
  { subst c2. unfold window_frame, load_frame, apply_hanning_window, set_fft_input.
    cbn [fft_input config]. rewrite length_for_each, length_blit. fold n. lia. }
  assert (A3 : other_algorithm (execute_forward c2)) by exact Halg.
  rewrite (spectral_step_skipped _ A3).
  set (c5 := execute_inverse (execute_forward c2)).
  assert (L5 : (0 < length (fft_input c5))%nat).
  { subst c5. unfold execute_inverse, execute_forward.
    cbn [fft_input set_fft_input set_fft_output config]. rewrite length_blit.
    change (frame_size (config c2)) with n. lia. }
  unfold add_overlap, window_frame, scale_frame.
  cbn [fft_input set_fft_input overlap_buffer config set_fft_output].
  unfold overlap_add.
  rewrite nth_for_each.
  2:{ change (overlap (config c5)) with (overlap (config ctx)). lia. }
  2:{ unfold apply_hanning_window, normalize. rewrite !length_for_each. exact L5. }
  unfold apply_hanning_window at 1.
  rewrite nth_for_each.
  2:{ change (frame_size (config c5)) with n. lia. }
  2:{ unfold normalize. rewrite length_for_each. exact L5. }
  rewrite hanning_first. cbn [fadd fmul of_int R_float].
  change (overlap_buffer c5) with (overlap_buffer ctx).
  change (IZR 0) with 0. ring.
Qed.

Lemma length_fold_upd {A} (idx : nat -> nat) (val : nat -> A) (js : list nat)
  (l : list A) :
  length (fold_left (fun b i => upd (idx i) (val i) b) js l) = length l.
Proof.
  revert l. induction js as [|j js IH]; intros l; simpl; auto.
  rewrite IH. apply length_upd.
Qed.

Lemma nth_store_others (in_place : bool) (js : list nat) (idx : nat -> nat)
  (g : nat -> Z) (mem : list Z * list Z) (k : nat) (d : Z) :
  (forall j, In j js -> idx j <> k) ->
  nth k (snd (fold_left (fun m i => store_output in_place (idx i) (g i) m) js mem)) d =
  nth k (snd mem) d.
Proof.
  revert mem. induction js as [|j js IH]; intros mem H; simpl; auto.
  rewrite IH by (intros j' Hj'; apply H; now right).
  destruct mem as [input output]. simpl.
  apply nth_upd_other. apply H. now left.
Qed.

Lemma emit_samples_first (in_place : bool) (output_samples : Z) (frame : list R)
  (mem : list Z * list Z) (d : Z) :
  (0 < output_samples < 2 ^ 62)%Z -> (0 < length (snd mem))%nat ->
  nth 0 (snd (emit_samples in_place 0 output_samples frame mem)) d =
  to_pcm (nth 0 frame 0).
Proof.
  intros Hc Hl. unfold emit_samples.
  change (2 ^ 62)%Z with 4611686018427387904%Z in Hc.
  destruct (Z.to_nat output_samples) as [|m] eqn:Em; [lia|].
  rewrite <- cons_seq. cbn [fold_left].
  rewrite (nth_store_others in_place (seq 1 m)
             (fun i => Z.to_nat (to_size_t (0 + Z.of_nat i)))
             (fun i => to_pcm (nth i frame (of_int 0)))).
  - destruct mem as [input output]. simpl in Hl. cbn [store_output snd].
    change (Z.to_nat (to_size_t (0 + Z.of_nat 0))) with 0%nat.
    now apply nth_upd_same.
  - intros j Hj. apply in_seq in Hj.
    rewrite to_size_t_id
      by (change (2 ^ 64)%Z with 18446744073709551616%Z; lia).
    lia.
Qed.

(** A call that brings exactly one frame to a context whose accumulator is
    empty: the first output sample is the first sample of the saved tail,
    converted to PCM, whatever the input is. *)
Lemma first_frame_first_sample (in_place : bool) (ctx : noise_reduction_context R)
  (input output : list Z) (d : Z) :
  let n := frame_size (config ctx) in
  other_algorithm ctx ->
  buffer_pos ctx = 0%Z ->
  (0 < overlap (config ctx) < n)%Z -> (n < 2 ^ 30)%Z ->
  (2 * Z.to_nat n <= length (fft_input ctx))%nat ->
  length (input_buffer ctx) = Z.to_nat n ->
  (0 < length output)%nat ->
  option_map (fun r => nth 0 (snd r) d)
             (noise_reduction_process 1 in_place ctx input output n) =
  Some (to_pcm (nth 0 (overlap_buffer ctx) 0)).
Proof.
  intros n Halg Hpos Hov Hn Hfi Hib Hout.
  change (2 ^ 30)%Z with 1073741824%Z in Hn.
  set (st0 := {| st_ctx := ctx; st_mem := (input, output); st_processed := 0%Z |}).
  assert (Ecopy : round_copy n st0 = n).
  { unfold round_copy. rewrite cast_size_t_fminf. cbn [st_processed st_ctx st0].
    fold n. rewrite Hpos, !Z.sub_0_r.
    rewrite (to_size_t_id n)
      by (change (2 ^ 64)%Z with 18446744073709551616%Z; lia).
    rewrite to_int32_id by lia. rewrite Z.min_id.
    apply to_size_t_id. change (2 ^ 64)%Z with 18446744073709551616%Z. lia. }
  assert (Epos : buffer_pos (round_fill n st0) = n).
  { unfold round_fill. cbn [st_ctx st0 buffer_pos set_accumulator]. rewrite Hpos.
    rewrite Z.add_0_l.
    rewrite (to_size_t_id n)
      by (change (2 ^ 64)%Z with 18446744073709551616%Z; lia).
    apply to_int32_id. lia. }
  assert (Ehop : hop_size (round_fill n st0) = (n - overlap (config ctx))%Z).
  { unfold hop_size. change (config (round_fill n st0)) with (config ctx).
    fold n. apply to_int32_id. lia. }
  assert (Eround : process_round in_place n st0 =
                   round_emit in_place n n n (round_fill n st0) (input, output)).
  { unfold process_round. rewrite Ecopy, Epos.
    change (frame_size (config (st_ctx st0))) with n. rewrite Z.leb_refl.
    cbn [st_processed st_mem st0]. rewrite Z.add_0_l.
    rewrite (to_size_t_id n)
      by (change (2 ^ 64)%Z with 18446744073709551616%Z; lia).
    reflexivity. }
  unfold noise_reduction_process. fold st0.
  change (process_loop 1 in_place n st0)
    with (if (st_processed st0 <? n)%Z
          then process_loop 0 in_place n (process_round in_place n st0)
          else Some st0).
  change (st_processed st0) with 0%Z.
  replace (0 <? n)%Z with true by (symmetry; apply Z.ltb_lt; lia).
  rewrite Eround. unfold process_loop.
  change (st_processed (round_emit in_place n n n (round_fill n st0) (input, output)))
    with n.
  rewrite Z.ltb_irrefl. cbn [option_map snd].
  unfold round_emit. cbn [st_mem].
  rewrite Z.sub_diag. change (to_size_t 0) with 0%Z.
  rewrite Z.sub_0_r, cast_size_t_fminf, Ehop.
  rewrite (to_size_t_id n)
    by (change (2 ^ 64)%Z with 18446744073709551616%Z; lia).
  rewrite Z.min_l by lia.
  rewrite to_size_t_id
    by (change (2 ^ 64)%Z with 18446744073709551616%Z; lia).
  rewrite emit_samples_first
    by (try (change (2 ^ 62)%Z with 4611686018427387904%Z; lia); exact Hout).
  f_equal. f_equal.
  rewrite transform_frame_first.
  - reflexivity.
  - exact Halg.
  - change (config (round_fill n st0)) with (config ctx). fold n. lia.
  - change (config (round_fill n st0)) with (config ctx). lia.
  - exact Hfi.
  - unfold round_fill, set_accumulator. cbn [config input_buffer st_ctx st0].
    rewrite length_fold_upd. exact Hib.
Qed.

Lemma process_round_progress (in_place : bool) (samples : Z) (st : process_state R) :
  round_ready (st_ctx st) ->
  (0 <= st_processed st < samples)%Z -> (samples < 2 ^ 62)%Z ->
  round_ready (st_ctx (process_round in_place samples st)) /\
  (st_processed st < st_processed (process_round in_place samples st) <= samples)%Z.
Proof.
  intros (Hov & Hn & Hpos) Hp Hs.
  change (2 ^ 30)%Z with 1073741824%Z in Hn.
  change (2 ^ 62)%Z with 4611686018427387904%Z in Hs.
  set (n := frame_size (config (st_ctx st))) in *.
  set (bp := buffer_pos (st_ctx st)) in *.
  assert (Ecopy : round_copy samples st = Z.min (samples - st_processed st) (n - bp)).
  { unfold round_copy. rewrite cast_size_t_fminf. fold n. fold bp.
    rewrite (to_size_t_id (samples - st_processed st))
      by (change (2 ^ 64)%Z with 18446744073709551616%Z; lia).
    rewrite to_int32_id by lia.
    apply to_size_t_id. change (2 ^ 64)%Z with 18446744073709551616%Z. lia. }
  set (tc := round_copy samples st) in *.
  assert (Epos : buffer_pos (round_fill tc st) = (bp + tc)%Z).
  { unfold round_fill. cbn [buffer_pos set_accumulator]. fold bp.
    rewrite to_size_t_id
      by (change (2 ^ 64)%Z with 18446744073709551616%Z; lia).
    apply to_int32_id. lia. }
  assert (Eproc : to_size_t (st_processed st + tc) = (st_processed st + tc)%Z).
  { apply to_size_t_id. change (2 ^ 64)%Z with 18446744073709551616%Z. lia. }
  unfold process_round. fold tc. fold n. rewrite Epos, Eproc.
  destruct (Z.leb_spec n (bp + tc)) as [Hfull|Hpart].
  - unfold round_emit. cbn [st_ctx st_processed].
    destruct (transform_frame_position (round_fill tc st)) as [Hc Hb].
    revert Hc Hb. generalize (transform_frame (round_fill tc st)) as T.
    intros T Hc Hb.
    assert (Hcfg : config (slide_accumulator (save_tail T)) = config (st_ctx st)).
    { change (config (slide_accumulator (save_tail T))) with (config T).
      rewrite Hc. reflexivity. }
    assert (Hbp : buffer_pos (slide_accumulator (save_tail T)) =
                  overlap (config (st_ctx st))).
    { unfold slide_accumulator. cbn [buffer_pos set_accumulator].
      change (buffer_pos (save_tail T)) with (buffer_pos T).
      unfold hop_size. change (config (save_tail T)) with (config T).
      rewrite Hb, Hc, Epos.
      change (config (round_fill tc st)) with (config (st_ctx st)). fold n.
      rewrite (to_int32_id (n - overlap (config (st_ctx st)))) by lia.
      rewrite to_int32_id by lia. lia. }
    split; [|lia].
    unfold round_ready. rewrite Hcfg, Hbp. fold n.
    change (2 ^ 30)%Z with 1073741824%Z. lia.
  - cbn [st_ctx st_processed]. split; [|lia].
    unfold round_ready. rewrite Epos.
    change (config (round_fill tc st)) with (config (st_ctx st)). fold n.
    change (2 ^ 30)%Z with 1073741824%Z. lia.
Qed.

Lemma process_loop_returns (fuel : nat) (in_place : bool) (samples : Z)
  (st : process_state R) :
  round_ready (st_ctx st) ->
  (0 <= st_processed st)%Z -> (samples < 2 ^ 62)%Z ->
  (samples - st_processed st <= Z.of_nat fuel)%Z ->
  exists st', process_loop fuel in_place samples st = Some st'.
Proof.
  revert st. induction fuel as [|fuel IH]; intros st Hr Hp Hs Hf; simpl;
    destruct (Z.ltb_spec (st_processed st) samples) as [Hlt|Hge];
    try (eexists; reflexivity); [lia|].
  destruct (process_round_progress in_place samples st Hr ltac:(lia) Hs) as [Hr' Hp'].
  apply IH; auto; lia.
Qed.

(** With room for one round per sample, [noise_reduction_process] returns
    success for every block. *)
Lemma noise_reduction_process_returns (in_place : bool)
  (ctx : noise_reduction_context R) (input output : list Z) (samples : Z) :
  round_ready ctx -> (samples < 2 ^ 62)%Z ->
  exists ctx' output',
    noise_reduction_process (Z.to_nat samples) in_place ctx input output samples =
    Some (MICARRAY_SUCCESS, ctx', output').
Proof.
  intros Hr Hs. unfold noise_reduction_process.
  destruct (process_loop_returns (Z.to_nat samples) in_place samples
              {| st_ctx := ctx; st_mem := (input, output); st_processed := 0%Z |}
              Hr ltac:(simpl; lia) Hs ltac:(simpl; lia)) as [st' E].
  rewrite E. eexists. eexists. reflexivity.
Qed.


(** *** The conversion to PCM and the window *)

Lemma Rtrunc_bounds (x : R) (n : Z) :
  - IZR n <= x <= IZR n -> (- n <= Rtrunc x <= n)%Z.
Proof.
  intros [Hl Hu]. unfold Rtrunc. destruct (Rle_dec 0 x) as [H0|H0].
  - destruct (base_Int_part x) as [B1 B2].
    assert (H1 : IZR (Int_part x) <= IZR n) by lra.
    assert (H2 : IZR (-1) < IZR (Int_part x)) by (simpl; lra).
    apply le_IZR in H1. apply lt_IZR in H2. lia.
  - destruct (base_Int_part (- x)) as [B1 B2].
    assert (H1 : IZR (Int_part (- x)) <= IZR n) by lra.
    assert (H2 : IZR (-1) < IZR (Int_part (- x))) by (simpl; lra).
    apply le_IZR in H1. apply lt_IZR in H2. lia.
Qed.

(** X10: in exact arithmetic every sample that [noise_reduction_process]
    converts for its output lies between -32767 and 32767: the clamp to [-1,
    1] comes before the scaling by 32767, so the conversion to [int16_t] never
    wraps and never yields -32768. *)
Theorem to_pcm_range (sample : R) : (-32767 <= to_pcm sample <= 32767)%Z.
Proof.
  unfold to_pcm, cast_int16. cbn [fmaxf fminf fmul fneg of_int to_int R_float].
  set (c := Rmax (- (1)) (Rmin 1 sample)).
  assert (Hc : -1 <= c <= 1).
  { subst c. split; [apply Rmax_l|].
    apply Rmax_lub; [lra|apply Rmin_l]. }
  pose proof (Rtrunc_bounds (c * 32767) 32767 ltac:(simpl; lra)) as Hb.
  rewrite to_int16_id; lia.
Qed.

Lemma hanning_value (size : Z) (i : nat) :
  hanning size i = (1 - cos (2 * PI * INR i / IZR (size - 1))) / 2.
Proof.
  unfold hanning, lit. cbn [fmul fsub fdiv of_int cosf M_PI R_float].
  change (10 ^ Z.of_nat 1)%Z with 10%Z. rewrite <- INR_IZR_INZ. lra.
Qed.

(** X11: in exact arithmetic the window of [apply_hanning_window] for a size
    above 1 takes values in [0, 1], is 0 at the first and at the last index,
    and is symmetric about the middle of the frame. *)
Theorem hanning_window_shape (size : Z) (i : nat) :
  (1 < size)%Z -> (Z.of_nat i < size)%Z ->
  0 <= hanning size i <= 1 /\
  hanning size 0 = 0 /\
  hanning size (Z.to_nat (size - 1)) = 0 /\
  hanning size (Z.to_nat (size - 1) - i) = hanning size i.
Proof.
  intros Hs Hi. rewrite !hanning_value.
  assert (Hn : IZR (size - 1) <> 0) by (apply not_0_IZR; lia).
  assert (Elast : INR (Z.to_nat (size - 1)) = IZR (size - 1))
    by (rewrite INR_IZR_INZ, Z2Nat.id by lia; reflexivity).
  split; [|split; [|split]].
  - pose proof (COS_bound (2 * PI * INR i / IZR (size - 1))). lra.
  - replace (2 * PI * INR 0 / IZR (size - 1)) with 0 by (simpl; unfold Rdiv; ring).
    rewrite cos_0. lra.
  - rewrite Elast.
    replace (2 * PI * IZR (size - 1) / IZR (size - 1)) with (2 * PI) by (field; exact Hn).
    rewrite cos_2PI. lra.
  - rewrite minus_INR by lia. rewrite Elast.
    replace (2 * PI * (IZR (size - 1) - INR i) / IZR (size - 1))
      with (- (2 * PI * INR i / IZR (size - 1)) + 2 * INR 1 * PI)
      by (simpl; field; exact Hn).
    rewrite cos_period, cos_neg. reflexivity.
Qed.

(** *** Spectral subtraction without a profile *)

Lemma sqrt_slope (x y : R) :
  x <> 0 -> sqrt (1 + (y / x)²) = sqrt (x * x + y * y) / Rabs x.
Proof.
  intros Hx.
  assert (Hxx : 0 < x * x) by nra.
  replace (1 + (y / x)²) with ((x * x + y * y) * / (x * x))
    by (unfold Rsqr; field; exact Hx).
  rewrite sqrt_mult_alt by nra.
  rewrite sqrt_inv. fold (Rsqr x). rewrite sqrt_Rsqr_abs. reflexivity.
Qed.

Lemma polar_round_trip (x y : R) :
  let m := sqrt (x * x + y * y) in
  m * cos (Ratan2 y x) = x /\ m * sin (Ratan2 y x) = y.
Proof.
  intros m. unfold Ratan2.
  assert (Hm0 : 0 <= m) by apply sqrt_pos.
  destruct (Rlt_dec 0 x) as [Hx|Hx]; [|destruct (Rlt_dec x 0) as [Hx'|Hx']].
  - assert (Hmp : 0 < m) by (apply sqrt_lt_R0; nra).
    rewrite cos_atan, sin_atan, sqrt_slope by lra. fold m.
    rewrite Rabs_pos_eq by lra. split; field; lra.
  - assert (Hmp : 0 < m) by (apply sqrt_lt_R0; nra).
    assert (Hc : forall a, cos (a - PI) = - cos a).
    { intros a. rewrite cos_minus, cos_PI, sin_PI. ring. }
    assert (Hs : forall a, sin (a - PI) = - sin a).
    { intros a. rewrite sin_minus, cos_PI, sin_PI. ring. }
    destruct (Rle_dec 0 y); rewrite ?neg_cos, ?neg_sin, ?Hc, ?Hs;
      rewrite cos_atan, sin_atan, sqrt_slope by lra; fold m;
      rewrite Rabs_left by lra; split; field; lra.
  - assert (Ex : x = 0) by lra. subst x.
    assert (Em : m = Rabs y).
    { subst m. rewrite Rmult_0_l, Rplus_0_l. fold (Rsqr y). apply sqrt_Rsqr_abs. }
    destruct (Rlt_dec 0 y) as [Hy|Hy]; [|destruct (Rlt_dec y 0) as [Hy'|Hy']].
    + rewrite cos_PI2, sin_PI2, Em, Rabs_pos_eq by lra. split; ring.
    + rewrite cos_neg, sin_neg, cos_PI2, sin_PI2, Em, Rabs_left by lra. split; ring.
    + assert (Ey : y = 0) by lra. subst y.
      rewrite Em, Rabs_R0. split; ring.
Qed.

Lemma length_subtract_bins (js : list nat)
  (st : noise_reduction_context R * list (R * R)) :
  length (snd (fold_left subtract_bin js st)) = length (snd st).
Proof.
  revert st. induction js as [|j js IH]; intros st; [reflexivity|].
  cbn [fold_left]. rewrite IH. destruct st as [c s]. cbn [subtract_bin snd].
  apply length_upd.
Qed.

(** X12: in exact arithmetic, while no noise profile is ready
    [spectral_subtraction] leaves the spectrum as it is: every bin is taken to
    its modulus and argument and rebuilt from them unchanged. *)
Theorem untrained_subtraction_is_identity (ctx : noise_reduction_context R)
  (spectrum : list (R * R)) (size : Z) :
  noise_profile_ready ctx = false ->
  snd (spectral_subtraction ctx spectrum size) = spectrum.
Proof.
  intros Hr. unfold spectral_subtraction.
  set (js := seq 0 (Z.to_nat (Z.quot size 2 + 1))).
  - apply nth_ext with (d := (0, 0)) (d' := (0, 0)).
    + apply (length_subtract_bins js (ctx, spectrum)).
    + intros k Hk. rewrite (length_subtract_bins js (ctx, spectrum)) in Hk.
      cbn [snd] in Hk.
      destruct (subtract_bins js ctx spectrum k (0, 0) (seq_NoDup _ _) Hk) as [_ Hn].
      rewrite Hn. destruct (in_dec Nat.eq_dec k js); [|reflexivity].
      cbv zeta. unfold scaled_magnitude. rewrite Hr.
      destruct (nth k spectrum (of_int 0, of_int 0)) as [x y] eqn:E.
      change (of_int 0, of_int 0) with (0, 0) in E. rewrite E.
      unfold bin_magnitude, bin_phase.
      cbn [fst snd sqrtf atan2f cosf sinf fadd fmul R_float].
      destruct (polar_round_trip x y) as [H1 H2]. cbv zeta in H1, H2.
      now rewrite H1, H2.
Qed.

(** *** The output cells that a call writes *)

Lemma length_store_outputs (in_place : bool) (js : list nat) (idx : nat -> nat)
  (g : nat -> Z) (mem : list Z * list Z) :
  length (snd (fold_left (fun m i => store_output in_place (idx i) (g i) m) js mem)) =
  length (snd mem).
Proof.
  revert mem. induction js as [|j js IH]; intros mem; [reflexivity|].
  cbn [fold_left]. rewrite IH. destruct mem as [input output]. cbn [store_output snd].
  apply length_upd.
Qed.

Lemma emit_samples_outside (in_place : bool) (start output_samples : Z)
  (frame : list R) (mem : list Z * list Z) (k : nat) (d : Z) :
  (0 <= start)%Z -> (start + output_samples < 2 ^ 62)%Z ->
  (Z.of_nat k < start \/ start + output_samples <= Z.of_nat k)%Z ->
  nth k (snd (emit_samples in_place start output_samples frame mem)) d =
  nth k (snd mem) d.
Proof.
  intros H0 Hb Hk. change (2 ^ 62)%Z with 4611686018427387904%Z in Hb.
  unfold emit_samples.
  apply (nth_store_others in_place _
           (fun i => Z.to_nat (to_size_t (start + Z.of_nat i)))
           (fun i => to_pcm (nth i frame (of_int 0)))).
  intros j Hj. apply in_seq in Hj.
  rewrite to_size_t_id by (change (2 ^ 64)%Z with 18446744073709551616%Z; lia).
  lia.
Qed.

Lemma process_round_window (in_place : bool) (samples : Z) (st : process_state R)
  (k : nat) (d : Z) :
  round_ready (st_ctx st) ->
  (0 <= st_processed st < samples)%Z -> (samples < 2 ^ 62)%Z ->
  let hop := (frame_size (config (st_ctx st)) - overlap (config (st_ctx st)))%Z in
  length (snd (st_mem (process_round in_place samples st))) = length (snd (st_mem st)) /\
  ((Z.of_nat k < st_processed st \/
    st_processed st + Z.min hop (samples - st_processed st) <= Z.of_nat k)%Z ->
   nth k (snd (st_mem (process_round in_place samples st))) d =
   nth k (snd (st_mem st)) d).
Proof.
  intros (Hov & Hn & Hpos) Hp Hs hop.
  change (2 ^ 30)%Z with 1073741824%Z in Hn.
  change (2 ^ 62)%Z with 4611686018427387904%Z in Hs.
  set (n := frame_size (config (st_ctx st))) in *.
  set (bp := buffer_pos (st_ctx st)) in *.
  assert (Ecopy : round_copy samples st = Z.min (samples - st_processed st) (n - bp)).
  { unfold round_copy. rewrite cast_size_t_fminf. fold n. fold bp.
    rewrite (to_size_t_id (samples - st_processed st))
      by (change (2 ^ 64)%Z with 18446744073709551616%Z; lia).
    rewrite to_int32_id by lia.
    apply to_size_t_id. change (2 ^ 64)%Z with 18446744073709551616%Z. lia. }
  set (tc := round_copy samples st) in *.
  assert (Eproc : to_size_t (st_processed st + tc) = (st_processed st + tc)%Z).
  { apply to_size_t_id. change (2 ^ 64)%Z with 18446744073709551616%Z. lia. }
  unfold process_round. fold tc. fold n. rewrite Eproc.
  destruct (n <=? buffer_pos (round_fill tc st))%Z; [|split; reflexivity].
  unfold round_emit. cbn [st_mem].
  replace (st_processed st + tc - tc)%Z with (st_processed st) by lia.
  rewrite (to_size_t_id (st_processed st))
    by (change (2 ^ 64)%Z with 18446744073709551616%Z; lia).
  rewrite cast_size_t_fminf.
  assert (Ehop : hop_size (round_fill tc st) = hop).
  { unfold hop_size. change (config (round_fill tc st)) with (config (st_ctx st)).
    fold n. apply to_int32_id. subst hop. lia. }
  rewrite Ehop.
  rewrite (to_size_t_id (samples - st_processed st))
    by (change (2 ^ 64)%Z with 18446744073709551616%Z; lia).
  rewrite (to_size_t_id (Z.min _ _))
    by (change (2 ^ 64)%Z with 18446744073709551616%Z; subst hop; lia).
  generalize (fft_input (transform_frame (round_fill tc st))) as frame. intros frame.
  split.
  - unfold emit_samples. apply length_store_outputs.
  - intros Hk. apply emit_samples_outside; lia.
Qed.

Lemma round_emit_config (in_place : bool) (samples to_copy processed1 : Z)
  (ctx1 : noise_reduction_context R) (mem : list Z * list Z) :
  config (st_ctx (round_emit in_place samples to_copy processed1 ctx1 mem)) = config ctx1.
Proof.
  unfold round_emit. cbn [st_ctx].
  destruct (transform_frame_position ctx1) as [Hc _].
  revert Hc. generalize (transform_frame ctx1) as T. intros T Hc.
  change (config (slide_accumulator (save_tail T))) with (config T). exact Hc.
Qed.

Lemma process_round_config (in_place : bool) (samples : Z) (st : process_state R) :
  config (st_ctx (process_round in_place samples st)) = config (st_ctx st).
Proof.
  unfold process_round.
  destruct (_ <=? _)%Z; [|reflexivity].
  rewrite round_emit_config. reflexivity.
Qed.

Lemma process_loop_block (fuel : nat) (in_place : bool) (samples : Z)
  (st : process_state R) :
  round_ready (st_ctx st) ->
  (0 <= st_processed st)%Z -> (samples < 2 ^ 62)%Z ->
  (samples - st_processed st <= Z.of_nat fuel)%Z ->
  exists st',
    process_loop fuel in_place samples st = Some st' /\
    round_ready (st_ctx st') /\
    config (st_ctx st') = config (st_ctx st) /\
    length (snd (st_mem st')) = length (snd (st_mem st)) /\
    (forall k d, (samples <= Z.of_nat k)%Z ->
                 nth k (snd (st_mem st')) d = nth k (snd (st_mem st)) d).
Proof.
  assert (Hstop : forall st0 : process_state R,
             round_ready (st_ctx st0) ->
             exists st',
               Some st0 = Some st' /\
               round_ready (st_ctx st') /\
               config (st_ctx st') = config (st_ctx st0) /\
               length (snd (st_mem st')) = length (snd (st_mem st0)) /\
               (forall k d, (samples <= Z.of_nat k)%Z ->
                            nth k (snd (st_mem st')) d = nth k (snd (st_mem st0)) d)).
  { intros st0 H. exists st0. split; [reflexivity|]. split; [exact H|].
    split; [reflexivity|]. split; reflexivity. }
  revert st. induction fuel as [|fuel IH]; intros st Hr Hp Hs Hf; simpl;
    destruct (Z.ltb_spec (st_processed st) samples) as [Hlt|Hge];
    [lia|now apply Hstop| |now apply Hstop].
  destruct (process_round_progress in_place samples st Hr ltac:(lia) Hs) as [Hr' Hp'].
  destruct (IH _ Hr' ltac:(lia) Hs ltac:(lia)) as (st' & E & Hr'' & Hc & Hl & Hk).
  exists st'. split; [exact E|]. split; [exact Hr''|].
  split; [now rewrite Hc, process_round_config|].
  destruct (process_round_window in_place samples st 0 0%Z Hr ltac:(lia) Hs) as [Hl' _].
  split; [now rewrite Hl, Hl'|].
  intros k d Hkd. rewrite Hk by exact Hkd.
  apply (process_round_window in_place samples st k d Hr ltac:(lia) Hs). right. lia.
Qed.

Lemma process_block (in_place : bool)
  (ctx : noise_reduction_context R) (input output : list Z) (samples : Z) :
  round_ready ctx -> (samples < 2 ^ 62)%Z ->
  exists ctx' output',
    noise_reduction_process (Z.to_nat samples) in_place ctx input output samples =
      Some (MICARRAY_SUCCESS, ctx', output') /\
    round_ready ctx' /\ config ctx' = config ctx /\
    length output' = length output /\
    (forall k d, (samples <= Z.of_nat k)%Z -> nth k output' d = nth k output d).
Proof.
  intros Hr Hs. unfold noise_reduction_process.
  destruct (process_loop_block (Z.to_nat samples) in_place samples
              {| st_ctx := ctx; st_mem := (input, output); st_processed := 0%Z |}
              Hr ltac:(simpl; lia) Hs ltac:(simpl; lia))
    as (st' & E & Hr' & Hc & Hl & Hk).
  rewrite E. exists (st_ctx st'), (snd (st_mem st')).
  split; [reflexivity|]. split; [exact Hr'|]. split; [exact Hc|]. split; assumption.
Qed.

(** X13: in exact arithmetic, for a context between two rounds (an overlap
    below the frame size, [buffer_pos] below the frame size)
    [noise_reduction_process] returns success within [samples] rounds, leaves
    the context in such a state with its configuration unchanged, keeps the
    length of the output array and writes no output cell at or beyond index
    [samples]. *)
Theorem process_stays_within_block (in_place : bool)
  (ctx : noise_reduction_context R) (input output : list Z) (samples : Z) :
  round_ready ctx -> (samples < 2 ^ 62)%Z ->
  exists ctx' output',
    noise_reduction_process (Z.to_nat samples) in_place ctx input output samples =
      Some (MICARRAY_SUCCESS, ctx', output') /\
    round_ready ctx' /\ config ctx' = config ctx /\
    length output' = length output /\
    (forall k d, (samples <= Z.of_nat k)%Z -> nth k output' d = nth k output d).
Proof. exact (process_block in_place ctx input output samples). Qed.

(** X14: in exact arithmetic, a call whose samples do not complete a frame
    ([buffer_pos + samples < frame_size]) returns success after one round and
    writes nothing: the output array comes back as it was given, the samples
    are kept in the accumulator ([buffer_pos] grows by [samples]) and the
    overlap tail is untouched. *)
Theorem short_call_writes_nothing (fuel : nat) (in_place : bool)
  (ctx : noise_reduction_context R) (input output : list Z) (samples : Z) :
  round_ready ctx -> (0 < samples)%Z ->
  (buffer_pos ctx + samples < frame_size (config ctx))%Z ->
  exists ctx',
    noise_reduction_process (S fuel) in_place ctx input output samples =
      Some (MICARRAY_SUCCESS, ctx', output) /\
    buffer_pos ctx' = (buffer_pos ctx + samples)%Z /\
    overlap_buffer ctx' = overlap_buffer ctx.
Proof.
  intros (Hov & Hn & Hpos) H0 Hshort.
  change (2 ^ 30)%Z with 1073741824%Z in Hn.
  set (st0 := {| st_ctx := ctx; st_mem := (input, output); st_processed := 0%Z |}).
  assert (Ecopy : round_copy samples st0 = samples).
  { unfold round_copy. rewrite cast_size_t_fminf. cbn [st_processed st_ctx st0].
    rewrite Z.sub_0_r.
    rewrite (to_size_t_id samples)
      by (change (2 ^ 64)%Z with 18446744073709551616%Z; lia).
    rewrite to_int32_id by lia. rewrite Z.min_l by lia.
    apply to_size_t_id. change (2 ^ 64)%Z with 18446744073709551616%Z. lia. }
  assert (Epos : buffer_pos (round_fill samples st0) = (buffer_pos ctx + samples)%Z).
  { unfold round_fill. cbn [st_ctx st0 buffer_pos set_accumulator].
    rewrite to_size_t_id
      by (change (2 ^ 64)%Z with 18446744073709551616%Z; lia).
    apply to_int32_id. lia. }
  assert (Eround : process_round in_place samples st0 =
                   {| st_ctx := round_fill samples st0; st_mem := (input, output);
                      st_processed := samples |}).
  { unfold process_round. rewrite Ecopy, Epos.
    change (frame_size (config (st_ctx st0))) with (frame_size (config ctx)).
    destruct (Z.leb_spec (frame_size (config ctx)) (buffer_pos ctx + samples)); [lia|].
    cbn [st_processed st_mem st0]. rewrite Z.add_0_l.
    rewrite (to_size_t_id samples)
      by (change (2 ^ 64)%Z with 18446744073709551616%Z; lia).
    reflexivity. }
  unfold noise_reduction_process. fold st0.
  change (process_loop (S fuel) in_place samples st0)
    with (if (st_processed st0 <? samples)%Z
          then process_loop fuel in_place samples (process_round in_place samples st0)
          else Some st0).
  change (st_processed st0) with 0%Z.
  replace (0 <? samples)%Z with true by (symmetry; apply Z.ltb_lt; lia).
  rewrite Eround.
  assert (Eend : process_loop fuel in_place samples
                   {| st_ctx := round_fill samples st0; st_mem := (input, output);
                      st_processed := samples |} =
                 Some {| st_ctx := round_fill samples st0; st_mem := (input, output);
                         st_processed := samples |}).
  { destruct fuel; cbn [process_loop st_processed]; rewrite Z.ltb_irrefl; reflexivity. }
  rewrite Eend. exists (round_fill samples st0). cbn [st_ctx st_mem snd].
  split; [reflexivity|]. split; [exact Epos|reflexivity].
Qed.

(** X15: in exact arithmetic, a call that brings exactly one frame to an empty
    accumulator returns after one round having written at most the first
    [frame_size - overlap] output cells: every cell from that index on is as
    it was before the call (in place, it still holds the input), and
    [buffer_pos] is left at [overlap]. *)
Theorem full_frame_writes_one_hop (in_place : bool)
  (ctx : noise_reduction_context R) (input output : list Z) :
  let n := frame_size (config ctx) in
  let hop := (n - overlap (config ctx))%Z in
  round_ready ctx -> buffer_pos ctx = 0%Z ->
  exists ctx' output',
    noise_reduction_process 1 in_place ctx input output n =
      Some (MICARRAY_SUCCESS, ctx', output') /\
    buffer_pos ctx' = overlap (config ctx) /\
    (forall k d, (hop <= Z.of_nat k)%Z -> nth k output' d = nth k output d).
Proof.
  intros n hop Hr Hpos. pose proof Hr as (Hov & Hn & _).
  change (2 ^ 30)%Z with 1073741824%Z in Hn. fold n in Hov, Hn.
  set (st0 := {| st_ctx := ctx; st_mem := (input, output); st_processed := 0%Z |}).
  assert (Hs : (n < 2 ^ 62)%Z) by (change (2 ^ 62)%Z with 4611686018427387904%Z; lia).
  assert (Hp0 : (0 <= st_processed st0 < n)%Z) by (cbn [st_processed st0]; lia).
  destruct (process_round_progress in_place n st0 Hr Hp0 Hs) as [Hr1 Hp1].
  cbn [st_processed st0] in Hp1.
  assert (Ecopy : round_copy n st0 = n).
  { unfold round_copy. rewrite cast_size_t_fminf. cbn [st_processed st_ctx st0].
    fold n. rewrite Hpos, !Z.sub_0_r.
    rewrite (to_size_t_id n)
      by (change (2 ^ 64)%Z with 18446744073709551616%Z; lia).
    rewrite to_int32_id by lia. rewrite Z.min_id.
    apply to_size_t_id. change (2 ^ 64)%Z with 18446744073709551616%Z. lia. }
  assert (Epos : buffer_pos (round_fill n st0) = n).
  { unfold round_fill. cbn [st_ctx st0 buffer_pos set_accumulator]. rewrite Hpos.
    rewrite Z.add_0_l.
    rewrite (to_size_t_id n)
      by (change (2 ^ 64)%Z with 18446744073709551616%Z; lia).
    apply to_int32_id. lia. }
  assert (Eround : process_round in_place n st0 =
                   round_emit in_place n n n (round_fill n st0) (input, output)).
  { unfold process_round. rewrite Ecopy, Epos.
    change (frame_size (config (st_ctx st0))) with n. rewrite Z.leb_refl.
    cbn [st_processed st_mem st0]. rewrite Z.add_0_l.
    rewrite (to_size_t_id n)
      by (change (2 ^ 64)%Z with 18446744073709551616%Z; lia).
    reflexivity. }
  assert (Eproc : st_processed (process_round in_place n st0) = n)
    by (rewrite Eround; reflexivity).
  assert (Ebp : buffer_pos (st_ctx (process_round in_place n st0)) = overlap (config ctx)).
  { rewrite Eround. unfold round_emit. cbn [st_ctx].
    destruct (transform_frame_position (round_fill n st0)) as [Hc Hb].
    revert Hc Hb. generalize (transform_frame (round_fill n st0)) as T. intros T Hc Hb.
    unfold slide_accumulator. cbn [buffer_pos set_accumulator].
    change (buffer_pos (save_tail T)) with (buffer_pos T).
    unfold hop_size. change (config (save_tail T)) with (config T).
    rewrite Hb, Hc, Epos.
    change (config (round_fill n st0)) with (config ctx). fold n.
    rewrite (to_int32_id (n - overlap (config ctx))) by lia.
    rewrite to_int32_id by lia. lia. }
  unfold noise_reduction_process. fold st0.
  change (process_loop 1 in_place n st0)
    with (if (st_processed st0 <? n)%Z
          then process_loop 0 in_place n (process_round in_place n st0)
          else Some st0).
  change (st_processed st0) with 0%Z.
  replace (0 <? n)%Z with true by (symmetry; apply Z.ltb_lt; lia).
  unfold process_loop. rewrite Eproc, Z.ltb_irrefl.
  eexists. eexists. split; [reflexivity|]. split; [exact Ebp|].
  intros k d Hk.
  destruct (process_round_window in_place n st0 k d Hr Hp0 Hs) as [_ Hw].
  apply Hw. right. cbn [st_processed st_ctx st0]. fold n. fold hop. lia.
Qed.

(** *** The trained profile *)

Lemma bin_magnitude_nonneg (X : R * R) : 0 <= bin_magnitude X.
Proof. unfold bin_magnitude. cbn [sqrtf R_float]. apply sqrt_pos. Qed.

Lemma accumulate_frame_nonneg (ctx : noise_reduction_context R) (ns : list Z) (p : Z) :
  bins_nonnegative ctx ->
  bins_nonnegative (accumulate_frame ctx ns p) /\
  length (noise_spectrum (accumulate_frame ctx ns p)) = length (noise_spectrum ctx).
Proof.
  intros H. unfold accumulate_frame. cbv zeta.
  set (c2 := execute_forward _).
  change (fold_left
            (fun ns0 i =>
               upd i (fadd (nth i ns0 (of_int 0))
                           (bin_magnitude (nth i (fft_output c2) (of_int 0, of_int 0)))) ns0)
            (seq 0 (Z.to_nat (Z.quot (frame_size (config ctx)) 2 + 1)))
            (noise_spectrum c2))
    with (for_each (Z.to_nat (Z.quot (frame_size (config ctx)) 2 + 1))
            (fun i x => fadd x (bin_magnitude (nth i (fft_output c2) (of_int 0, of_int 0))))
            (noise_spectrum ctx)).
  split.
  - intros k Hk Hl. cbn [noise_spectrum set_noise config] in *.
    rewrite length_for_each in Hl.
    change (config c2) with (config ctx) in Hk.
    rewrite nth_for_each by assumption.
    specialize (H k Hk Hl). cbn [fadd of_int R_float].
    pose proof (bin_magnitude_nonneg (nth k (fft_output c2) (IZR 0, IZR 0))). lra.
  - cbn [noise_spectrum set_noise]. apply length_for_each.
Qed.

Lemma profile_loop_nonneg (fuel : nat) (ns : list Z) (samples : Z)
  (ctx ctx' : noise_reduction_context R) (nf nf' p : Z) :
  profile_loop fuel ns samples (ctx, nf, p) = Some (ctx', nf') ->
  bins_nonnegative ctx ->
  bins_nonnegative ctx' /\
  length (noise_spectrum ctx') = length (noise_spectrum ctx) /\
  config ctx' = config ctx.
Proof.
  revert ctx nf p. induction fuel as [|fuel IH]; intros ctx nf p E H;
    cbn [profile_loop] in E; destruct (_ <=? _)%Z; try discriminate;
    try (inversion E; subst; repeat split; auto; fail).
  destruct (accumulate_frame_nonneg ctx ns p H) as [H1 H2].
  destruct (IH _ _ _ E H1) as (H3 & H4 & H5).
  split; [exact H3|]. split; [now rewrite H4|exact H5].
Qed.

(** X16: in exact arithmetic, for a frame size of at least 2
    [noise_reduction_update_noise_profile] returns success within [samples]
    rounds and every bin of the noise profile it leaves is at least 0. *)
Theorem trained_profile_is_nonnegative (fuel : nat) (ctx : noise_reduction_context R)
  (noise_samples : list Z) (samples : Z) :
  (2 <= frame_size (config ctx) <= INT_MAX)%Z ->
  (0 <= samples <= INT_MAX)%Z ->
  (samples <= Z.of_nat fuel)%Z ->
  exists ctx',
    noise_reduction_update_noise_profile fuel ctx noise_samples samples =
      Some (MICARRAY_SUCCESS, ctx') /\
    forall k, (k < Z.to_nat (Z.quot (frame_size (config ctx)) 2 + 1))%nat ->
              (k < length (noise_spectrum ctx))%nat ->
              0 <= nth k (noise_spectrum ctx') 0.
Proof.
  intros HF Hs Hfuel. unfold noise_reduction_update_noise_profile.
  set (bins := Z.to_nat (Z.quot (frame_size (config ctx)) 2 + 1)).
  set (ctx0 := set_noise _ _ ctx).
  assert (H0 : bins_nonnegative ctx0).
  { intros k Hk Hl. subst ctx0. cbn [noise_spectrum set_noise config] in *.
    unfold zero_fill in Hl. rewrite length_app, repeat_length, length_skipn in Hl.
    rewrite nth_zero_fill by (fold bins in Hk; lia). cbn [of_int R_float]. lra. }
  assert (L0 : length (noise_spectrum ctx0) = length (noise_spectrum ctx)).
  { subst ctx0. cbn [noise_spectrum set_noise]. unfold zero_fill.
    rewrite length_app, repeat_length, length_skipn. lia. }
  destruct (profile_loop_returns fuel noise_samples samples ctx0 0 0
              HF ltac:(lia) ltac:(lia) ltac:(lia) ltac:(lia))
    as (ctx1 & nf & E & _).
  rewrite E. destruct (profile_loop_nonneg _ _ _ _ _ _ _ _ E H0) as (H1 & L1 & C1).
  destruct (Z.ltb_spec 0 nf) as [Hnf|Hnf].
  - eexists. split; [reflexivity|]. intros k Hk Hl.
    cbn [noise_spectrum set_noise].
    change (fold_left (fun ns0 i => upd i (fdiv (nth i ns0 (of_int 0)) (of_int nf)) ns0)
                      (seq 0 bins) (noise_spectrum ctx1))
      with (for_each bins (fun _ x => fdiv x (of_int nf)) (noise_spectrum ctx1)).
    rewrite nth_for_each by (fold bins in Hk; lia).
    cbn [fdiv of_int R_float].
    assert (Hp : 0 < IZR nf) by (apply IZR_lt; exact Hnf).
    specialize (H1 k). rewrite C1 in H1. specialize (H1 Hk ltac:(lia)).
    apply Rmult_le_pos; [exact H1|]. left. now apply Rinv_0_lt_compat.
  - exists ctx1. split; [reflexivity|]. intros k Hk Hl.
    specialize (H1 k). rewrite C1 in H1. apply H1; [exact Hk|lia].
Qed.

(** *** Runs on the sample contexts *)

Lemma round_ready_passthrough : round_ready passthrough_context.
Proof. unfold round_ready. simpl. lia. Qed.

Lemma long_segment_trains_profile_witness :
  (2 <= frame_size (config passthrough_context) <= INT_MAX)%Z /\
  (frame_size (config passthrough_context) <= 4 <= INT_MAX)%Z /\
  (4 <= Z.of_nat 4)%Z /\
  exists ctx',
    noise_reduction_update_noise_profile 4 passthrough_context [1000; 0; 0; 0]%Z 4 =
      Some (MICARRAY_SUCCESS, ctx') /\
    noise_profile_ready ctx' = true /\
    stream_state ctx' = stream_state passthrough_context.
Proof.
  assert (H1 : (2 <= frame_size (config passthrough_context) <= INT_MAX)%Z)
    by (unfold INT_MAX; simpl; lia).
  assert (H2 : (frame_size (config passthrough_context) <= 4 <= INT_MAX)%Z)
    by (unfold INT_MAX; simpl; lia).
  assert (H3 : (4 <= Z.of_nat 4)%Z) by (simpl; lia).
  split; [exact H1|split; [exact H2|split; [exact H3|]]].
  exact (long_segment_trains_profile 4 passthrough_context [1000; 0; 0; 0]%Z 4 H1 H2 H3).
Defined.

Lemma tiny_frame_never_returns_witness :
  (0 <= frame_size (config tiny_context) <= 1)%Z /\
  (frame_size (config tiny_context) <= 1)%Z /\
  noise_reduction_update_noise_profile 5 tiny_context [7]%Z 1 = None.
Proof.
  assert (H1 : (0 <= frame_size (config tiny_context) <= 1)%Z) by (simpl; lia).
  assert (H2 : (frame_size (config tiny_context) <= 1)%Z) by (simpl; lia).
  split; [exact H1|split; [exact H2|]].
  exact (tiny_frame_never_returns 5 tiny_context [7]%Z 1 H1 H2).
Defined.

Lemma hanning_window_shape_witness :
  (1 < 4)%Z /\ (Z.of_nat 1 < 4)%Z /\
  0 <= hanning 4 1 <= 1 /\
  hanning 4 0 = 0 /\
  hanning 4 (Z.to_nat (4 - 1)) = 0 /\
  hanning 4 (Z.to_nat (4 - 1) - 1) = hanning 4 1.
Proof.
  assert (H1 : (1 < 4)%Z) by lia.
  assert (H2 : (Z.of_nat 1 < 4)%Z) by (simpl; lia).
  split; [exact H1|split; [exact H2|]].
  exact (hanning_window_shape 4 1 H1 H2).
Defined.

Lemma untrained_subtraction_is_identity_witness :
  noise_profile_ready passthrough_context = false /\
  snd (spectral_subtraction passthrough_context [(3, 4); (0, 0); (1, 0)] 4) =
  [(3, 4); (0, 0); (1, 0)].
Proof.
  assert (H : noise_profile_ready passthrough_context = false) by reflexivity.
  split; [exact H|].
  exact (untrained_subtraction_is_identity passthrough_context
           [(3, 4); (0, 0); (1, 0)] 4 H).
Defined.

Lemma process_stays_within_block_witness :
  round_ready passthrough_context /\ (4 < 2 ^ 62)%Z /\
  exists ctx' output',
    noise_reduction_process (Z.to_nat 4) true passthrough_context
      [1000; 0; 0; 0; 9]%Z [1000; 0; 0; 0; 9]%Z 4 =
      Some (MICARRAY_SUCCESS, ctx', output') /\
    round_ready ctx' /\ config ctx' = config passthrough_context /\
    length output' = length [1000; 0; 0; 0; 9]%Z /\
    (forall k d, (4 <= Z.of_nat k)%Z ->
                 nth k output' d = nth k [1000; 0; 0; 0; 9]%Z d).
Proof.
  assert (H : (4 < 2 ^ 62)%Z) by (vm_compute; reflexivity).
  split; [exact round_ready_passthrough|split; [exact H|]].
  exact (process_stays_within_block true passthrough_context
           [1000; 0; 0; 0; 9]%Z [1000; 0; 0; 0; 9]%Z 4 round_ready_passthrough H).
Defined.

Lemma short_call_writes_nothing_witness :
  round_ready passthrough_context /\ (0 < 2)%Z /\
  (buffer_pos passthrough_context + 2 < frame_size (config passthrough_context))%Z /\
  exists ctx',
    noise_reduction_process 1 false passthrough_context [1000; 2000]%Z [7; 7]%Z 2 =
      Some (MICARRAY_SUCCESS, ctx', [7; 7]%Z) /\
    buffer_pos ctx' = (buffer_pos passthrough_context + 2)%Z /\
    overlap_buffer ctx' = overlap_buffer passthrough_context.
Proof.
  assert (H1 : (0 < 2)%Z) by lia.
  assert (H2 : (buffer_pos passthrough_context + 2
                < frame_size (config passthrough_context))%Z) by (simpl; lia).
  split; [exact round_ready_passthrough|split; [exact H1|split; [exact H2|]]].
  exact (short_call_writes_nothing 0 false passthrough_context
           [1000; 2000]%Z [7; 7]%Z 2 round_ready_passthrough H1 H2).
Defined.

Lemma full_frame_writes_one_hop_witness :
  round_ready passthrough_context /\ buffer_pos passthrough_context = 0%Z /\
  exists ctx' output',
    noise_reduction_process 1 true passthrough_context
      [1000; 2000; 3000; 4000]%Z [1000; 2000; 3000; 4000]%Z 4 =
      Some (MICARRAY_SUCCESS, ctx', output') /\
    buffer_pos ctx' = 2%Z /\
    (forall k d, (2 <= Z.of_nat k)%Z ->
                 nth k output' d = nth k [1000; 2000; 3000; 4000]%Z d).
Proof.
  split; [exact round_ready_passthrough|split; [reflexivity|]].
  exact (full_frame_writes_one_hop true passthrough_context
           [1000; 2000; 3000; 4000]%Z [1000; 2000; 3000; 4000]%Z
           round_ready_passthrough eq_refl).
Defined.

Lemma trained_profile_is_nonnegative_witness :
  (2 <= frame_size (config passthrough_context) <= INT_MAX)%Z /\
  (0 <= 4 <= INT_MAX)%Z /\ (4 <= Z.of_nat 4)%Z /\
  exists ctx',
    noise_reduction_update_noise_profile 4 passthrough_context [1000; 0; 0; 0]%Z 4 =
      Some (MICARRAY_SUCCESS, ctx') /\
    forall k, (k < Z.to_nat (Z.quot (frame_size (config passthrough_context)) 2 + 1))%nat ->
              (k < length (noise_spectrum passthrough_context))%nat ->
              0 <= nth k (noise_spectrum ctx') 0.
Proof.
  assert (H1 : (2 <= frame_size (config passthrough_context) <= INT_MAX)%Z)
    by (unfold INT_MAX; simpl; lia).
  assert (H2 : (0 <= 4 <= INT_MAX)%Z) by (unfold INT_MAX; lia).
  assert (H3 : (4 <= Z.of_nat 4)%Z) by (simpl; lia).
  split; [exact H1|split; [exact H2|split; [exact H3|]]].
  exact (trained_profile_is_nonnegative 4 passthrough_context [1000; 0; 0; 0]%Z 4
           H1 H2 H3).
Defined.

(** *** A frame under another algorithm name *)

Section Resynthesis.
Context {F : Type} {FO : FloatOps F} {FT : FFTW F}.
Local Open Scope Z_scope.
Local Open Scope float_scope.

Lemma nth_fold_upd_at {A} (idx : nat -> nat) (val : nat -> A) (m : nat) (l : list A)
  (j : nat) (d : A) :
  (forall i, (i < m)%nat -> idx i = i) -> (j < m)%nat -> (m <= length l)%nat ->
  nth j (fold_left (fun b i => upd (idx i) (val i) b) (seq 0 m) l) d = val j.
Proof.
  intros Hidx. revert j. induction m as [|m IH]; intros j Hj Hl; [lia|].
  rewrite seq_S, fold_left_app. cbn [fold_left Nat.add].
  rewrite (Hidx m) by lia.
  assert (Ln : length (fold_left (fun b i => upd (idx i) (val i) b) (seq 0 m) l)
               = length l) by apply length_fold_upd.
  destruct (Nat.eq_dec j m) as [->|Hne].
  - apply nth_upd_same. lia.
  - rewrite nth_upd_other by lia. apply IH; [intros i Hi; apply Hidx|..]; lia.
Qed.

(** The accumulator after the copy of a whole frame into an empty one. *)
Lemma round_fill_frame (input output : list Z) (ctx : noise_reduction_context F)
  (j : nat) (d : F) :
  let n := frame_size (config ctx) in
  let st0 := {| st_ctx := ctx; st_mem := (input, output); st_processed := 0%Z |} in
  buffer_pos ctx = 0%Z -> (0 <= n < 2 ^ 30)%Z ->
  (Z.to_nat n <= length (input_buffer ctx))%nat -> (j < Z.to_nat n)%nat ->
  nth j (input_buffer (round_fill n st0)) d =
    of_int (nth j input 0%Z) / of_int 32768 /\
  length (input_buffer (round_fill n st0)) = length (input_buffer ctx) /\
  buffer_pos (round_fill n st0) = n.
Proof.
  intros n st0 Hpos Hn Hib Hj. change (2 ^ 30)%Z with 1073741824%Z in Hn.
  unfold round_fill. cbn [st_ctx st_mem st_processed st0 input_buffer buffer_pos
                          set_accumulator fst].
  rewrite Hpos. split; [|split].
  - assert (Hidx : forall i, (i < Z.to_nat n)%nat ->
                             Z.to_nat (to_size_t (0 + Z.of_nat i)) = i).
    { intros i Hi. rewrite Z.add_0_l, to_size_t_id, Nat2Z.id; [reflexivity|].
      change (2 ^ 64)%Z with 18446744073709551616%Z. lia. }
    rewrite (nth_fold_upd_at (fun i => Z.to_nat (to_size_t (0 + Z.of_nat i)))
               (fun i => of_int (nth (Z.to_nat (to_size_t (0 + Z.of_nat i))) input 0%Z)
                         / of_int 32768)
               (Z.to_nat n) (input_buffer ctx) j d Hidx Hj Hib).
    now rewrite Hidx.
  - apply (length_fold_upd (fun i => Z.to_nat (to_size_t (0 + Z.of_nat i)))).
  - rewrite Z.add_0_l, to_size_t_id
      by (change (2 ^ 64)%Z with 18446744073709551616%Z; lia).
    apply to_int32_id. lia.
Qed.

Lemma nth_for_each_beyond (n : nat) (h : nat -> F -> F) (data : list F) (k : nat) (d : F) :
  (n <= k)%nat -> (k < length data)%nat ->
  nth k (for_each n h data) d = nth k data d.
Proof.
  intros Hn Hk. unfold for_each.
  rewrite nth_for_each_list by (auto using seq_NoDup).
  destruct (in_dec Nat.eq_dec k (seq 0 n)) as [Hin|]; auto.
  apply in_seq in Hin. lia.
Qed.

Lemma nth_windowed_input (n : Z) (input : list Z) (j : nat) (d : F) :
  (j < Z.to_nat n)%nat ->
  nth j (windowed_input n input) d =
  of_int (nth j input 0%Z) / of_int 32768 * hanning n j.
Proof.
  intros Hj. unfold windowed_input.
  rewrite (nth_indep _ d (of_int (nth 0 input 0%Z) / of_int 32768 * hanning n 0))
    by (rewrite length_map, length_seq; exact Hj).
  change (of_int (nth 0 input 0%Z) / of_int 32768 * hanning n 0)
    with ((fun j => of_int (nth j input 0%Z) / of_int 32768 * hanning n j) 0%nat).
  rewrite map_nth. rewrite seq_nth by exact Hj. reflexivity.
Qed.

(** The frame after the first window is [windowed_input]. *)
Lemma window_frame_loaded (ctx : noise_reduction_context F) (input : list Z) :
  let n := frame_size (config ctx) in
  (forall j d, (j < Z.to_nat n)%nat ->
               nth j (input_buffer ctx) d = of_int (nth j input 0%Z) / of_int 32768) ->
  (Z.to_nat n <= length (input_buffer ctx))%nat ->
  firstn (Z.to_nat n) (fft_input (window_frame (load_frame ctx))) =
    windowed_input n input /\
  (Z.to_nat n <= length (fft_input (window_frame (load_frame ctx))))%nat.
Proof.
  intros n Hx Hib.
  unfold window_frame, load_frame, apply_hanning_window.
  cbn [fft_input set_fft_input config]. fold n.
  set (fi1 := blit (input_buffer ctx) (Z.to_nat n) (fft_input ctx)).
  assert (L1 : (Z.to_nat n <= length fi1)%nat)
    by (subst fi1; rewrite length_blit; lia).
  assert (L2 : length (for_each (Z.to_nat n) (fun i x => x * hanning n i) fi1)
               = length fi1) by apply length_for_each.
  split; [|lia].
  apply nth_ext with (d := of_int 0) (d' := of_int 0).
  - rewrite length_firstn, L2. unfold windowed_input.
    rewrite length_map, length_seq. lia.
  - intros j Hj. rewrite length_firstn, L2 in Hj.
    assert (Hjn : (j < Z.to_nat n)%nat) by lia.
    rewrite nth_firstn. replace (j <? Z.to_nat n)%nat with true
      by (symmetry; apply Nat.ltb_lt; exact Hjn).
    rewrite nth_for_each by lia.
    rewrite nth_windowed_input by exact Hjn. f_equal.
    subst fi1. unfold blit. rewrite app_nth1 by (rewrite length_firstn; lia).
    rewrite nth_firstn. replace (j <? Z.to_nat n)%nat with true
      by (symmetry; apply Nat.ltb_lt; exact Hjn).
    apply Hx. exact Hjn.
Qed.

(** One frame through [transform_frame] when the spectral step is skipped:
    every sample is [resynthesized_sample]. *)
Lemma transform_frame_resynthesizes (ctx : noise_reduction_context F) (input : list Z)
  (k : nat) :
  let n := frame_size (config ctx) in
  let ov := overlap (config ctx) in
  other_algorithm ctx ->
  (0 <= ov <= n)%Z ->
  (forall j d, (j < Z.to_nat n)%nat ->
               nth j (input_buffer ctx) d = of_int (nth j input 0%Z) / of_int 32768) ->
  (Z.to_nat n <= length (input_buffer ctx))%nat ->
  length (fftwf_r2c n (windowed_input n input)) = Z.to_nat (Z.quot n 2 + 1) ->
  length (fftwf_c2r n (fftwf_r2c n (windowed_input n input))) = Z.to_nat n ->
  (k < Z.to_nat n)%nat ->
  nth k (fft_input (transform_frame ctx)) (of_int 0) =
  resynthesized_sample n ov input (overlap_buffer ctx) k.
Proof.
  intros n ov Halg Hov Hx Hib Hr2c Hc2r Hk.
  destruct (window_frame_loaded ctx input Hx Hib) as [Ew Lw]. fold n in Ew, Lw.
  unfold transform_frame.
  set (c2 := window_frame (load_frame ctx)) in *.
  assert (A3 : other_algorithm (execute_forward c2)) by exact Halg.
  rewrite (spectral_step_skipped _ A3).
  unfold add_overlap, window_frame, scale_frame, execute_inverse, execute_forward.
  cbn [fft_input fft_output set_fft_input set_fft_output overlap_buffer config].
  change (frame_size (config c2)) with n. change (overlap (config c2)) with ov.
  change (overlap_buffer c2) with (overlap_buffer ctx).
  rewrite Ew.
  set (bins := Z.to_nat (Z.quot n 2 + 1)) in *.
  assert (Es : firstn bins (blit (fftwf_r2c n (windowed_input n input)) bins
                                 (fft_output c2))
               = fftwf_r2c n (windowed_input n input)).
  { unfold blit. rewrite firstn_app, length_firstn, Hr2c, Nat.min_id, Nat.sub_diag.
    cbn [firstn]. rewrite app_nil_r, firstn_firstn, Nat.min_id.
    apply firstn_all2. lia. }
  rewrite Es.
  set (y := fftwf_c2r n (fftwf_r2c n (windowed_input n input))) in *.
  set (fi3 := blit y (Z.to_nat n) (fft_input c2)).
  assert (L3 : (Z.to_nat n <= length fi3)%nat)
    by (subst fi3; rewrite length_blit, Hc2r; lia).
  assert (E3 : nth k fi3 (of_int 0) = nth k y (of_int 0)).
  { subst fi3. unfold blit. rewrite app_nth1 by (rewrite length_firstn, Hc2r; lia).
    rewrite nth_firstn. replace (k <? Z.to_nat n)%nat with true
      by (symmetry; apply Nat.ltb_lt; exact Hk). reflexivity. }
  unfold resynthesized_sample. fold y.
  unfold overlap_add, apply_hanning_window, normalize.
  assert (E5 : nth k (for_each (Z.to_nat n) (fun i x => x * hanning n i)
                        (for_each (Z.to_nat n) (fun _ x => x / of_int n) fi3))
                   (of_int 0)
               = nth k y (of_int 0) / of_int n * hanning n k).
  { rewrite nth_for_each by (rewrite ?length_for_each; lia).
    rewrite nth_for_each by lia. now rewrite E3. }
  destruct (Z.ltb_spec (Z.of_nat k) ov) as [Hlt|Hge].
  - rewrite nth_for_each by (rewrite ?length_for_each; lia).
    now rewrite E5.
  - rewrite nth_for_each_beyond by (rewrite ?length_for_each; lia).
    exact E5.
Qed.

Lemma emit_samples_sample (in_place : bool) (output_samples : Z) (frame : list F)
  (mem : list Z * list Z) (k : nat) (d : Z) :
  (0 <= output_samples < 2 ^ 62)%Z -> (Z.of_nat k < output_samples)%Z ->
  (k < length (snd mem))%nat ->
  nth k (snd (emit_samples in_place 0 output_samples frame mem)) d =
  to_pcm (nth k frame (of_int 0)).
Proof.
  intros Hc Hk Hl. change (2 ^ 62)%Z with 4611686018427387904%Z in Hc.
  unfold emit_samples.
  assert (Hidx : forall i, (Z.of_nat i < output_samples)%Z ->
                           Z.to_nat (to_size_t (0 + Z.of_nat i)) = i).
  { intros i Hi. rewrite Z.add_0_l, to_size_t_id, Nat2Z.id; [reflexivity|].
    change (2 ^ 64)%Z with 18446744073709551616%Z. lia. }
  assert (Hn : (k < Z.to_nat output_samples)%nat) by lia.
  assert (Hb : (Z.of_nat (Z.to_nat output_samples) <= output_samples)%Z) by lia.
  revert Hn Hb. generalize (Z.to_nat output_samples) as m.
  induction m as [|m IH]; intros Hn Hb; [lia|].
  rewrite seq_S, fold_left_app. cbn [fold_left Nat.add].
  assert (Lm : length (snd (fold_left
                 (fun m0 i => store_output in_place (Z.to_nat (to_size_t (0 + Z.of_nat i)))
                                (to_pcm (nth i frame (of_int 0))) m0) (seq 0 m) mem))
               = length (snd mem))
    by apply (length_store_outputs in_place (seq 0 m)
                (fun i => Z.to_nat (to_size_t (0 + Z.of_nat i)))
                (fun i => to_pcm (nth i frame (of_int 0)))).
  destruct (fold_left _ (seq 0 m) mem) as [inp out] eqn:E.
  cbn [store_output snd] in *. rewrite (Hidx m) by lia.
  destruct (Nat.eq_dec k m) as [->|Hne].
  - apply nth_upd_same. lia.
  - rewrite nth_upd_other by lia.
    apply IH; lia.
Qed.

End Resynthesis.


End NoiseReductionFacts.

Module AudioOutputFacts.

Import AudioOutput.

Section WithFloat.
Context {F : Type} {FO : FloatOps F}.
Local Open Scope float_scope.

(** *** The samples that reach the sink *)

Lemma fold_seq_S {A} (f : A -> nat -> A) (n : nat) (a : A) :
  fold_left f (seq 0 (S n)) a = f (fold_left f (seq 0 n) a) n.
Proof. now rewrite seq_S, fold_left_app. Qed.

Lemma length_panning (mono l r : list Z) (n : nat) (location : sound_location F) :
  let lr := fold_left
              (fun (lr : list Z * list Z) i =>
                 (upd i (scale_sample (nth i mono 0%Z) (fst (stereo_gains location))) (fst lr),
                  upd i (scale_sample (nth i mono 0%Z) (snd (stereo_gains location))) (snd lr)))
              (seq 0 n) (l, r) in
  length (fst lr) = length l /\ length (snd lr) = length r.
Proof.
  induction n as [|n IH]; [split; reflexivity|].
  cbv zeta in *. rewrite fold_seq_S. cbn [fst snd]. rewrite !length_upd. exact IH.
Qed.

Lemma nth_panning (mono l r : list Z) (samples : Z) (location : sound_location F)
  (i : nat) (d : Z) :
  (Z.of_nat i < samples)%Z -> (i < length l)%nat -> (i < length r)%nat ->
  nth i (fst (apply_stereo_panning mono l r samples location)) d =
    scale_sample (nth i mono 0%Z) (fst (stereo_gains location)) /\
  nth i (snd (apply_stereo_panning mono l r samples location)) d =
    scale_sample (nth i mono 0%Z) (snd (stereo_gains location)).
Proof.
  intros Hi Hl Hr. unfold apply_stereo_panning.
  assert (Hn : (i < Z.to_nat samples)%nat) by lia.
  revert Hn. generalize (Z.to_nat samples) as n.
  induction n as [|n IH]; intros Hn; [lia|].
  rewrite fold_seq_S. cbn [fst snd].
  destruct (length_panning mono l r n location) as [L1 L2]. cbv zeta in L1, L2.
  destruct (Nat.eq_dec i n) as [->|Hne].
  - rewrite !nth_upd_same by lia. split; reflexivity.
  - rewrite !nth_upd_other by lia. apply IH. lia.
Qed.

Lemma length_interleave (vol : F) (l r : list Z) (samples : Z) (b : list Z) :
  length (interleave vol l r samples b) = length b.
Proof.
  unfold interleave. generalize (Z.to_nat samples) as n.
  induction n as [|n IH]; [reflexivity|].
  rewrite fold_seq_S, !length_upd. exact IH.
Qed.

Lemma nth_interleave (vol : F) (l r : list Z) (samples : Z) (b : list Z)
  (i : nat) (d : Z) :
  (Z.of_nat i < samples)%Z -> (i * 2 + 1 < length b)%nat ->
  nth (i * 2) (interleave vol l r samples b) d = scale_sample (nth i l 0%Z) vol /\
  nth (i * 2 + 1) (interleave vol l r samples b) d = scale_sample (nth i r 0%Z) vol.
Proof.
  intros Hi Hb.
  assert (Hn : (i < Z.to_nat samples)%nat) by lia.
  pose proof (length_interleave vol l r) as HL.
  unfold interleave in *. revert Hn. generalize (Z.to_nat samples) as n.
  induction n as [|n IH]; intros Hn; [lia|].
  rewrite fold_seq_S.
  assert (Ln : length (fold_left
                         (fun b i =>
                            upd (i * 2 + 1) (scale_sample (nth i r 0%Z) vol)
                                (upd (i * 2) (scale_sample (nth i l 0%Z) vol) b))
                         (seq 0 n) b) = length b).
  { specialize (HL (Z.of_nat n) b). now rewrite Nat2Z.id in HL. }
  destruct (Nat.eq_dec i n) as [->|Hne].
  - split.
    + rewrite nth_upd_other by lia. rewrite nth_upd_same by lia. reflexivity.
    + rewrite nth_upd_same by (rewrite length_upd; lia). reflexivity.
  - rewrite !nth_upd_other by lia. apply IH. lia.
Qed.

(** Every stereo frame that a localized write hands to the sink. *)
Lemma write_localized_frame (ctx : audio_output_context F) (audio_data : list Z)
  (samples : Z) (location : sound_location F) (frames_written : Z) (i : nat) (d : Z) :
  running ctx = true ->
  (Z.of_nat i < samples)%Z ->
  (2 * samples <= Z.of_nat (length (output_buffer ctx)))%Z ->
  let out := output_buffer
               (snd (audio_output_write_localized ctx audio_data samples location
                       frames_written)) in
  nth (i * 2) out d =
    scale_sample (scale_sample (nth i audio_data 0%Z) (fst (stereo_gains location)))
                 (volume (config ctx)) /\
  nth (i * 2 + 1) out d =
    scale_sample (scale_sample (nth i audio_data 0%Z) (snd (stereo_gains location)))
                 (volume (config ctx)).
Proof.
  intros Hrun Hi Hlen. unfold audio_output_write_localized.
  pose proof (nth_panning audio_data (repeat 0%Z (Z.to_nat samples))
                (repeat 0%Z (Z.to_nat samples)) samples location i 0%Z Hi) as Hp.
  rewrite !repeat_length in Hp. specialize (Hp ltac:(lia) ltac:(lia)).
  destruct (apply_stereo_panning audio_data _ _ samples location) as [lc rc].
  cbn [fst snd] in Hp. destruct Hp as [Hl Hr].
  unfold audio_output_write_stereo. rewrite Hrun. cbn [negb].
  assert (E : forall (c1 c2 c3 : Z * audio_output_context F),
             output_buffer (snd c1) = output_buffer (snd c2) ->
             output_buffer (snd c3) = output_buffer (snd c2) ->
             output_buffer
               (snd (if (frames_written <? 0)%Z
                     then if (frames_written =? - EPIPE)%Z then c1 else c3
                     else c2)) = output_buffer (snd c2)).
  { intros c1 c2 c3 H1 H3. destruct (_ <? _)%Z; [destruct (_ =? _)%Z|]; auto. }
  cbv zeta. rewrite E by reflexivity. cbn [snd output_buffer].
  destruct (nth_interleave (volume (config ctx)) lc rc samples (output_buffer ctx)
              i d Hi ltac:(lia)) as [H1 H2].
  rewrite H1, H2, Hl, Hr. split; reflexivity.
Qed.

(** Where the conversion is defined it is the integral part of the
    product. *)
Lemma scale_sample_fits (m : Z) (gain : F) :
  fits_int16 (of_int m * gain) -> scale_sample m gain = to_int (of_int m * gain).
Proof.
  intros H. unfold scale_sample, cast_int16. apply to_int16_id. exact H.
Qed.

(** C3 (as amended): for a running sink, in every floating-point
    arithmetic, and every index [i] of a block whose products have their
    integral parts in the range of [int16_t], the left sample written is
    [(int16_t)((int16_t)(m[i] * pan_L) * volume)] with
    [pan_L = ((1 - pan) * 0.5 + 0.5) * (attn * confidence)], and likewise
    on the right: the panned sample is cut to its integral part before the
    volume is applied and the product is cut again after. *)
Theorem stereo_sample_converted_twice (ctx : audio_output_context F)
  (audio_data : list Z) (samples : Z) (location : sound_location F)
  (frames_written : Z) (i : nat) :
  running ctx = true ->
  (Z.of_nat i < samples)%Z ->
  (2 * samples <= Z.of_nat (length (output_buffer ctx)))%Z ->
  let out := output_buffer
               (snd (audio_output_write_localized ctx audio_data samples location
                       frames_written)) in
  let m := nth i audio_data 0%Z in
  let pan_L := fst (stereo_gains location) in
  let pan_R := snd (stereo_gains location) in
  channel_fits m pan_L (volume (config ctx)) ->
  channel_fits m pan_R (volume (config ctx)) ->
  nth (i * 2) out 0%Z =
    to_int (of_int (to_int (of_int m * pan_L)) * volume (config ctx)) /\
  nth (i * 2 + 1) out 0%Z =
    to_int (of_int (to_int (of_int m * pan_R)) * volume (config ctx)).
Proof.
  intros Hrun Hi Hlen out m pan_L pan_R [HL1 HL2] [HR1 HR2].
  destruct (write_localized_frame ctx audio_data samples location frames_written
              i 0%Z Hrun Hi Hlen) as [H1 H2].
  cbv zeta in H1, H2. fold out m pan_L pan_R in H1, H2.
  rewrite (scale_sample_fits m pan_L HL1) in H1.
  rewrite (scale_sample_fits m pan_R HR1) in H2.
  rewrite (scale_sample_fits _ _ HL2) in H1.
  rewrite (scale_sample_fits _ _ HR2) in H2.
  split; assumption.
Qed.

(** *** Result codes, starting and stopping *)

Lemma write_stereo_code (ctx : audio_output_context F) (l r : list Z) (samples fw : Z) :
  fst (audio_output_write_stereo ctx l r samples fw) =
  if running ctx
  then if ((fw <? 0) && negb (fw =? - EPIPE))%Z%bool
       then MICARRAY_ERROR_AUDIO_OUTPUT else MICARRAY_SUCCESS
  else MICARRAY_ERROR_AUDIO_OUTPUT.
Proof.
  unfold audio_output_write_stereo. destruct (running ctx); cbn [negb]; [|reflexivity].
  destruct (fw <? 0)%Z; [destruct (fw =? - EPIPE)%Z|]; reflexivity.
Qed.

(** X17: a localized write to a sink that is not running returns the
    audio-output error and leaves the context, its buffer included, as it was.
    On a running sink it returns success exactly when the device took the
    frame or reported an underrun ([-EPIPE], after which the device is
    prepared again), and the audio-output error for every other negative
    answer; the sink keeps running either way. *)
Theorem write_result_codes (ctx : audio_output_context F) (audio_data : list Z)
  (samples : Z) (location : sound_location F) (frames_written : Z) :
  let r := audio_output_write_localized ctx audio_data samples location frames_written in
  (running ctx = false -> r = (MICARRAY_ERROR_AUDIO_OUTPUT, ctx)) /\
  (running ctx = true ->
   (fst r = MICARRAY_SUCCESS <-> (0 <= frames_written \/ frames_written = - EPIPE)%Z) /\
   (fst r = MICARRAY_ERROR_AUDIO_OUTPUT <->
    (frames_written < 0 /\ frames_written <> - EPIPE)%Z) /\
   config (snd r) = config ctx /\ running (snd r) = true).
Proof.
  intros r. subst r. unfold audio_output_write_localized.
  destruct (apply_stereo_panning _ _ _ _ _) as [lc rc].
  split.
  - intros Hr. unfold audio_output_write_stereo. now rewrite Hr.
  - intros Hr. rewrite write_stereo_code, Hr.
    unfold audio_output_write_stereo. rewrite Hr. cbn [negb].
    destruct (Z.ltb_spec frames_written 0);
      destruct (Z.eqb_spec frames_written (- EPIPE));
      cbn [andb negb fst snd config running];
      unfold MICARRAY_SUCCESS, MICARRAY_ERROR_AUDIO_OUTPUT, EPIPE in *;
      (split; [|split; [|split; reflexivity]]); split; intros; try lia; try discriminate.
Qed.

(** X18: after [audio_output_stop] the sink is not running, whatever
    [snd_pcm_drop] answered and whatever the state before; its buffer is
    untouched, every localized write fails with the audio-output error until
    the sink is started again, and a start whose [snd_pcm_prepare] succeeds
    makes it run. *)
Theorem write_after_stop_fails (ctx : audio_output_context F) (drop_err : Z)
  (audio_data : list Z) (samples : Z) (location : sound_location F) (frames_written : Z) :
  let stopped := snd (audio_output_stop ctx drop_err) in
  running stopped = false /\
  output_buffer stopped = output_buffer ctx /\
  audio_output_write_localized stopped audio_data samples location frames_written =
    (MICARRAY_ERROR_AUDIO_OUTPUT, stopped) /\
  (forall prepare_err, (0 <= prepare_err)%Z ->
     running (snd (audio_output_start stopped prepare_err)) = true /\
     fst (audio_output_start stopped prepare_err) = MICARRAY_SUCCESS).
Proof.
  intros stopped.
  assert (Hr : running stopped = false).
  { subst stopped. unfold audio_output_stop. destruct (running ctx) eqn:E; cbn [negb].
    - destruct (drop_err <? 0)%Z; reflexivity.
    - exact E. }
  split; [exact Hr|]. split; [|split].
  - subst stopped. unfold audio_output_stop. destruct (running ctx); cbn [negb];
      [destruct (drop_err <? 0)%Z|]; reflexivity.
  - unfold audio_output_write_localized.
    destruct (apply_stereo_panning _ _ _ _ _) as [lc rc].
    unfold audio_output_write_stereo. now rewrite Hr.
  - intros pe Hpe. unfold audio_output_start. rewrite Hr.
    destruct (Z.ltb_spec pe 0); [lia|]. split; reflexivity.
Qed.

End WithFloat.

(** *** Runs in exact arithmetic *)

Import Exact.
Local Open Scope R_scope.

Import ExactFacts.

Lemma lit_half : lit 5 1 = 1 / 2.
Proof.
  unfold lit. cbn [fdiv of_int R_float]. change (10 ^ Z.of_nat 1)%Z with 10%Z. lra.
Qed.

Lemma lit_tenth : lit 1 1 = 1 / 10.
Proof.
  unfold lit. cbn [fdiv of_int R_float]. change (10 ^ Z.of_nat 1)%Z with 10%Z. lra.
Qed.

Lemma Ratan2_origin : Ratan2 0 0 = 0.
Proof.
  unfold Ratan2.
  destruct (Rlt_dec 0 0); [lra|]. destruct (Rlt_dec 0 0); [lra|]. reflexivity.
Qed.

(** A source at the origin is centred and not attenuated: both gains of
    the panner equal the confidence. *)
Lemma stereo_gains_origin (c : R) :
  stereo_gains (mk_location 0 0 0 c) = (c, c).
Proof.
  unfold stereo_gains. cbn [loc_x loc_y confidence].
  rewrite lit_half, lit_tenth.
  cbn [fadd fsub fmul fdiv fneg of_int sqrtf atan2f fmaxf fminf M_PI R_float].
  rewrite Ratan2_origin.
  replace (0 * 0 + 0 * 0) with 0 by ring. rewrite sqrt_0.
  replace (0 / PI) with 0 by (unfold Rdiv; ring).
  rewrite (Rmin_right 1 0) by lra. rewrite (Rmax_right (- (1)) 0) by lra.
  replace (1 / (1 + 0 * (1 / 10))) with 1 by field.
  rewrite (Rmin_left 1 1) by lra. rewrite (Rmax_right (1 / 10) 1) by lra.
  f_equal; field.
Qed.

Lemma spec_gains_origin (c v : R) :
  spec_gains (mk_location 0 0 0 c) v = (c * v, c * v).
Proof.
  unfold spec_gains. cbn [loc_x loc_y confidence].
  rewrite lit_half, lit_tenth.
  cbn [fadd fsub fmul fdiv fneg of_int sqrtf atan2f fmaxf fminf M_PI R_float].
  rewrite Ratan2_origin.
  replace (0 * 0 + 0 * 0) with 0 by ring. rewrite sqrt_0.
  replace (0 / PI) with 0 by (unfold Rdiv; ring).
  rewrite (Rmin_right 1 0) by lra. rewrite (Rmax_right (- (1)) 0) by lra.
  replace (1 / (1 + 1 / 10 * 0)) with 1 by field.
  rewrite (Rmin_left 1 1) by lra. rewrite (Rmax_right (1 / 10) 1) by lra.
  f_equal; field.
Qed.

Lemma mixer_channel_fits :
  channel_fits 3 (1 / 2) (volume (config mixer_context)).
Proof.
  unfold channel_fits, fits_int16, INT16_MIN, INT16_MAX.
  cbn [fmul of_int to_int R_float volume config mixer_context].
  rewrite (Rtrunc_nonneg (3 * (1 / 2)) 1) by lra.
  rewrite (Rtrunc_nonneg (1 * (3 / 4)) 0) by lra.
  split; lia.
Qed.

Lemma stereo_sample_converted_twice_witness :
  let out := output_buffer
               (snd (audio_output_write_localized mixer_context [3]%Z 1
                       half_confident 1)) in
  let pan_L := fst (stereo_gains half_confident) in
  let pan_R := snd (stereo_gains half_confident) in
  running mixer_context = true /\
  (Z.of_nat 0 < 1)%Z /\
  (2 * 1 <= Z.of_nat (length (output_buffer mixer_context)))%Z /\
  channel_fits 3 pan_L (volume (config mixer_context)) /\
  channel_fits 3 pan_R (volume (config mixer_context)) /\
  nth (0 * 2) out 0%Z =
    to_int (of_int (to_int (of_int 3 * pan_L)) * volume (config mixer_context)) /\
  nth (0 * 2 + 1) out 0%Z =
    to_int (of_int (to_int (of_int 3 * pan_R)) * volume (config mixer_context)).
Proof.
  intros out pan_L pan_R.
  assert (H1 : running mixer_context = true) by reflexivity.
  assert (H2 : (Z.of_nat 0 < 1)%Z) by (simpl; lia).
  assert (H3 : (2 * 1 <= Z.of_nat (length (output_buffer mixer_context)))%Z)
    by (simpl; lia).
  assert (HL : channel_fits 3 pan_L (volume (config mixer_context))).
  { subst pan_L. unfold half_confident. rewrite stereo_gains_origin.
    exact mixer_channel_fits. }
  assert (HR : channel_fits 3 pan_R (volume (config mixer_context))).
  { subst pan_R. unfold half_confident. rewrite stereo_gains_origin.
    exact mixer_channel_fits. }
  split; [exact H1|split; [exact H2|split; [exact H3|split; [exact HL|split; [exact HR|]]]]].
  exact (stereo_sample_converted_twice mixer_context [3]%Z 1 half_confident 1 0
           H1 H2 H3 HL HR).
Defined.

(** C3 (counterexample): the mono sample 3, panned with gain 0.5 and
    written at volume 0.75, leaves the sink as 0: 3 * 0.5 is converted to 1
    and 1 * 0.75 to 0. The specification's single product
    3 * (0.5 * 0.75) = 1.125 gives 1. *)
Lemma stereo_sample_is_not_single_product :
  let out := output_buffer
               (snd (audio_output_write_localized mixer_context [3]%Z 1
                       half_confident 1)) in
  nth 0 out 0%Z = 0%Z /\
  spec_sample 3 (fst (spec_gains half_confident (volume (config mixer_context)))) = 1%Z /\
  nth 0 out 0%Z <>
  spec_sample 3 (fst (spec_gains half_confident (volume (config mixer_context)))).
Proof.
  intros out.
  assert (Hout : nth 0 out 0%Z = 0%Z).
  { subst out.
    destruct (write_localized_frame mixer_context [3]%Z 1 half_confident 1 0 0%Z
                eq_refl ltac:(simpl; lia) ltac:(simpl; lia)) as [H _].
    change (0 * 2)%nat with 0%nat in H. rewrite H. clear H.
    unfold half_confident. rewrite stereo_gains_origin.
    cbn [fst nth volume config mixer_context].
    unfold scale_sample, cast_int16. cbn [fmul of_int to_int R_float].
    rewrite (Rtrunc_nonneg (3 * (1 / 2)) 1) by lra.
    change (to_int16 1) with 1%Z.
    rewrite (Rtrunc_nonneg (1 * (3 / 4)) 0) by lra.
    reflexivity. }
  assert (Hspec : spec_sample 3 (fst (spec_gains half_confident
                                        (volume (config mixer_context)))) = 1%Z).
  { unfold half_confident. rewrite spec_gains_origin.
    cbn [fst volume config mixer_context].
    unfold spec_sample. cbn [fmul of_int to_int R_float].
    rewrite (Rtrunc_nonneg (3 * (1 / 2 * (3 / 4))) 1) by lra.
    reflexivity. }
  split; [exact Hout|]. split; [exact Hspec|].
  rewrite Hout, Hspec. discriminate.
Qed.

(** *** The volume and the gains *)

(** X19: in exact arithmetic [audio_output_set_volume] stores the volume
    clamped to [0, 1]: a value in the range as it is, a negative one as 0, one
    above 1 as 1. Setting the stored volume again changes nothing, and the
    running flag and the buffer are untouched. *)
Theorem set_volume_clamps (ctx : audio_output_context R) (v : R) :
  let ctx' := audio_output_set_volume ctx v in
  0 <= volume (config ctx') <= 1 /\
  (0 <= v <= 1 -> volume (config ctx') = v) /\
  (v < 0 -> volume (config ctx') = 0) /\
  (1 < v -> volume (config ctx') = 1) /\
  audio_output_set_volume ctx' (volume (config ctx')) = ctx' /\
  running ctx' = running ctx /\ output_buffer ctx' = output_buffer ctx.
Proof.
  intros ctx'. subst ctx'. unfold audio_output_set_volume.
  cbn [config volume running output_buffer fmaxf fminf of_int R_float
       sample_rate channels bits_per_sample buffer_size buffer_frames].
  assert (Hc : 0 <= Rmax 0 (Rmin 1 v) <= 1).
  { split; [apply Rmax_l|]. apply Rmax_lub; [lra|apply Rmin_l]. }
  split; [exact Hc|]. split; [|split; [|split; [|split; [|split; reflexivity]]]].
  - intros Hv. rewrite Rmin_right by lra. apply Rmax_right. lra.
  - intros Hv. rewrite Rmin_right by lra. apply Rmax_left. lra.
  - intros Hv. rewrite Rmin_left by lra. apply Rmax_right. lra.
  - do 2 f_equal. rewrite (Rmin_right 1 (Rmax 0 (Rmin 1 v))) by lra.
    apply Rmax_right. lra.
Qed.

Lemma stereo_gains_form (location : sound_location R) :
  exists pan attn,
    -1 <= pan <= 1 /\ 1 / 10 <= attn <= 1 /\
    fst (stereo_gains location) = (1 - pan / 2) * attn * confidence location /\
    snd (stereo_gains location) = (1 + pan / 2) * attn * confidence location /\
    fst (stereo_gains location) + snd (stereo_gains location) =
      2 * attn * confidence location.
Proof.
  unfold stereo_gains. rewrite lit_half, lit_tenth.
  cbn [fadd fsub fmul fdiv fneg of_int sqrtf atan2f fmaxf fminf M_PI R_float fst snd].
  set (pan := Rmax (- (1)) (Rmin 1 _)).
  set (attn := Rmax (1 / 10) (Rmin 1 _)).
  exists pan, attn.
  assert (Hp : -1 <= pan <= 1).
  { subst pan. split; [apply Rmax_l|]. apply Rmax_lub; [lra|apply Rmin_l]. }
  assert (Ha : 1 / 10 <= attn <= 1).
  { subst attn. split; [apply Rmax_l|]. apply Rmax_lub; [lra|apply Rmin_l]. }
  split; [exact Hp|]. split; [exact Ha|]. repeat split; field.
Qed.

(** X20: in exact arithmetic the two gains of [apply_stereo_panning] are [(1 -
    pan/2) * attn * confidence] and [(1 + pan/2) * attn * confidence] for a
    pan in [-1, 1] and an attenuation in [0.1, 1]: they add up to [2 * attn *
    confidence], and a single gain can reach 1.5 times the confidence. *)
Theorem stereo_gains_law (location : sound_location R) :
  exists pan attn,
    -1 <= pan <= 1 /\ 1 / 10 <= attn <= 1 /\
    fst (stereo_gains location) = (1 - pan / 2) * attn * confidence location /\
    snd (stereo_gains location) = (1 + pan / 2) * attn * confidence location /\
    fst (stereo_gains location) + snd (stereo_gains location) =
      2 * attn * confidence location.
Proof. exact (stereo_gains_form location). Qed.

Lemma scale_sample_zero_gain (m : Z) : scale_sample m 0 = 0%Z.
Proof.
  unfold scale_sample, cast_int16. cbn [fmul of_int to_int R_float].
  rewrite Rmult_0_r. change 0 with (IZR 0). rewrite Rtrunc_IZR. reflexivity.
Qed.

Lemma scale_sample_zero (g : R) : scale_sample 0 g = 0%Z.
Proof.
  unfold scale_sample, cast_int16. cbn [fmul of_int to_int R_float].
  rewrite Rmult_0_l. change 0 with (IZR 0). rewrite Rtrunc_IZR. reflexivity.
Qed.

(** X21: in exact arithmetic, a localized write of a location whose confidence
    is 0 hands silence to a running sink: both samples of every frame of the
    block are 0, whatever the mono samples, the position and the volume. *)
Theorem zero_confidence_is_silence (ctx : audio_output_context R)
  (audio_data : list Z) (samples : Z) (location : sound_location R)
  (frames_written : Z) (i : nat) :
  running ctx = true ->
  confidence location = 0 ->
  (Z.of_nat i < samples)%Z ->
  (2 * samples <= Z.of_nat (length (output_buffer ctx)))%Z ->
  let out := output_buffer
               (snd (audio_output_write_localized ctx audio_data samples location
                       frames_written)) in
  nth (i * 2) out 0%Z = 0%Z /\ nth (i * 2 + 1) out 0%Z = 0%Z.
Proof.
  intros Hrun Hc Hi Hlen.
  destruct (write_localized_frame ctx audio_data samples location frames_written i 0%Z
              Hrun Hi Hlen) as [H1 H2].
  cbv zeta in *. rewrite H1, H2.
  destruct (stereo_gains_form location) as (pan & attn & _ & _ & HL & HR & _).
  rewrite HL, HR, Hc, !Rmult_0_r, !scale_sample_zero_gain, !scale_sample_zero.
  split; reflexivity.
Qed.

Lemma zero_confidence_is_silence_witness :
  let out := output_buffer
               (snd (audio_output_write_localized mixer_context [3]%Z 1
                       (mk_location 1 2 3 0) 1)) in
  running mixer_context = true /\
  confidence (mk_location 1 2 3 0) = 0 /\
  (Z.of_nat 0 < 1)%Z /\
  (2 * 1 <= Z.of_nat (length (output_buffer mixer_context)))%Z /\
  nth (0 * 2) out 0%Z = 0%Z /\ nth (0 * 2 + 1) out 0%Z = 0%Z.
Proof.
  intros out.
  assert (H1 : running mixer_context = true) by reflexivity.
  assert (H2 : confidence (mk_location 1 2 3 0) = 0) by reflexivity.
  assert (H3 : (Z.of_nat 0 < 1)%Z) by (simpl; lia).
  assert (H4 : (2 * 1 <= Z.of_nat (length (output_buffer mixer_context)))%Z)
    by (simpl; lia).
  split; [exact H1|split; [exact H2|split; [exact H3|split; [exact H4|]]]].
  exact (zero_confidence_is_silence mixer_context [3]%Z 1 (mk_location 1 2 3 0) 1 0
           H1 H2 H3 H4).
Defined.

End AudioOutputFacts.

Module ConfigFacts.

Import Config.
Import Ascii String.
Local Open Scope string_scope.

(** *** Trimming *)

Lemma skip_blanks_pad (pad s : string) :
  all_blank pad = true -> skip_blanks (pad ++ s) = skip_blanks s.
Proof.
  induction pad as [|c pad IH]; intros H; [reflexivity|].
  cbn [all_blank] in H. apply andb_prop in H. destruct H as [Hc Hp].
  cbn [append skip_blanks]. rewrite Hc. auto.
Qed.

Lemma all_blank_space (pad : string) : all_blank pad = true -> all_space pad = true.
Proof.
  induction pad as [|c pad IH]; intros H; [reflexivity|].
  cbn [all_blank] in H. apply andb_prop in H. destruct H as [Hc Hp].
  cbn [all_space]. unfold space. rewrite Hc, IH by exact Hp. reflexivity.
Qed.

Lemma all_blank_no_equals (pad : string) : all_blank pad = true -> has_equals pad = false.
Proof.
  induction pad as [|c pad IH]; intros H; [reflexivity|].
  cbn [all_blank] in H. apply andb_prop in H. destruct H as [Hc Hp].
  cbn [has_equals]. rewrite IH by exact Hp.
  destruct (Ascii.eqb_spec c "="%char) as [->|]; [discriminate Hc|reflexivity].
Qed.

Lemma all_space_app (p q : string) :
  all_space p = true -> all_space q = true -> all_space (p ++ q) = true.
Proof.
  induction p as [|c p IH]; intros Hp Hq; [exact Hq|].
  cbn [all_space] in Hp. apply andb_prop in Hp. destruct Hp as [Hc Hp].
  cbn [append all_space]. rewrite Hc, IH; auto.
Qed.

Lemma drop_trailing_spaces (pad : string) :
  all_space pad = true -> drop_trailing pad = EmptyString.
Proof.
  induction pad as [|c pad IH]; intros H; [reflexivity|].
  cbn [all_space] in H. apply andb_prop in H. destruct H as [Hc Hp].
  cbn [drop_trailing]. rewrite IH by exact Hp. now rewrite Hc.
Qed.

Lemma drop_trailing_keeps (a b : string) (c : ascii) (t : string) :
  drop_trailing b = String c t -> drop_trailing (a ++ b) = a ++ String c t.
Proof.
  intros Hb. induction a as [|d a IH]; [exact Hb|].
  cbn [append drop_trailing]. rewrite IH. destruct a; reflexivity.
Qed.

Lemma drop_trailing_tight (v q : string) (d : ascii) :
  last_char v = Some d -> space d = false -> all_space q = true ->
  drop_trailing (v ++ q) = v.
Proof.
  intros Hl Hd Hq. induction v as [|c v IH]; [discriminate Hl|].
  destruct v as [|c' v'].
  - cbn [last_char] in Hl. injection Hl as ->.
    cbn [append drop_trailing]. rewrite drop_trailing_spaces by exact Hq.
    now rewrite Hd.
  - change (last_char (String c (String c' v'))) with (last_char (String c' v')) in Hl.
    specialize (IH Hl).
    change (String c (String c' v') ++ q) with (String c (String c' v' ++ q)).
    cbn [drop_trailing]. rewrite IH. reflexivity.
Qed.

Lemma last_char_some (c : ascii) (t : string) : exists d, last_char (String c t) = Some d.
Proof.
  revert c. induction t as [|c' t IH]; intros c; [now exists c|].
  destruct (IH c') as (d & E). exists d. exact E.
Qed.

(** [trim_whitespace] takes the padding off a text that is trimmed. *)
Lemma trim_whitespace_padded (p s q : string) :
  trimmed_text s = true -> s <> EmptyString ->
  all_blank p = true -> all_space q = true ->
  trim_whitespace (p ++ s ++ q) = s.
Proof.
  intros Hs Hne Hp Hq. unfold trim_whitespace. rewrite skip_blanks_pad by exact Hp.
  destruct s as [|c t]; [congruence|].
  cbn [trimmed_text] in Hs. apply andb_prop in Hs. destruct Hs as [Hc Hl].
  apply negb_true_iff in Hc.
  cbn [append skip_blanks]. rewrite Hc. f_equal.
  destruct t as [|c' t'].
  - cbn [append]. apply drop_trailing_spaces, Hq.
  - change (last_char (String c (String c' t'))) with (last_char (String c' t')) in Hl.
    destruct (last_char_some c' t') as (d & El). rewrite El in Hl.
    apply negb_true_iff in Hl. now apply drop_trailing_tight with d.
Qed.

Lemma trim_whitespace_blanks (p : string) :
  all_blank p = true -> trim_whitespace p = EmptyString.
Proof.
  intros Hp. unfold trim_whitespace.
  assert (E : skip_blanks p = EmptyString).
  { induction p as [|c p IH]; [reflexivity|].
    cbn [all_blank] in Hp. apply andb_prop in Hp. destruct Hp as [Hc Hp].
    cbn [skip_blanks]. rewrite Hc. auto. }
  now rewrite E.
Qed.

Lemma split_equals_first (k rest : string) :
  has_equals k = false -> split_equals (k ++ String "=" rest) = Some (k, rest).
Proof.
  induction k as [|c k IH]; intros H; [reflexivity|].
  cbn [has_equals] in H. apply orb_false_iff in H. destruct H as [Hc Hk].
  cbn [append split_equals]. rewrite Hc, IH by exact Hk. reflexivity.
Qed.

Lemma has_equals_app (a b : string) :
  has_equals (a ++ b) = (has_equals a || has_equals b)%bool.
Proof.
  induction a as [|c a IH]; [reflexivity|].
  cbn [append has_equals]. rewrite IH. now rewrite orb_assoc.
Qed.

Lemma drop_trailing_keeps2 (a b x : string) (c : ascii) (t : string) :
  drop_trailing x = String c t -> drop_trailing (a ++ b ++ x) = a ++ b ++ String c t.
Proof.
  intros E. destruct b as [|d b].
  - cbn [append]. now apply drop_trailing_keeps.
  - assert (E2 : drop_trailing (String d b ++ x) = String d (b ++ String c t))
      by (rewrite (drop_trailing_keeps _ _ _ _ E); reflexivity).
    rewrite (drop_trailing_keeps a _ _ _ E2). reflexivity.
Qed.

Lemma append_assoc (a b c : string) : a ++ b ++ c = (a ++ b) ++ c.
Proof. induction a as [|x a IH]; [reflexivity|]. cbn [append]. now rewrite IH. Qed.

Lemma append_empty (s : string) : s ++ EmptyString = s.
Proof. induction s as [|a s IH]; [reflexivity|]. cbn [append]. now rewrite IH. Qed.

(** The line after the first [trim_whitespace]. *)
Lemma trim_whitespace_line (pad1 key pad2 pad3 value pad4 : string) :
  key_text key = true -> trimmed_text value = true ->
  all_blank pad1 = true -> all_blank pad2 = true -> all_blank pad3 = true ->
  all_space pad4 = true ->
  exists rest,
    trim_whitespace (pad1 ++ key ++ pad2 ++ "=" ++ pad3 ++ value ++ pad4)
    = key ++ pad2 ++ String "=" rest /\
    trim_whitespace rest = value.
Proof.
  intros Hk Hv H1 H2 H3 H4.
  destruct key as [|c kt]; [discriminate Hk|].
  assert (Hc : blank c = false).
  { cbn [key_text trimmed_text] in Hk.
    destruct (blank c); [discriminate Hk|reflexivity]. }
  unfold trim_whitespace at 1. rewrite skip_blanks_pad by exact H1.
  change ("=" ++ pad3 ++ value ++ pad4) with (String "=" (pad3 ++ value ++ pad4)).
  cbn [append skip_blanks]. rewrite Hc.
  destruct value as [|v vt].
  - exists EmptyString. split; [|reflexivity]. f_equal.
    apply drop_trailing_keeps2. cbn [drop_trailing append].
    rewrite drop_trailing_spaces
      by (apply all_space_app; [apply all_blank_space, H3|exact H4]).
    reflexivity.
  - exists (pad3 ++ String v vt). split.
    + f_equal. apply drop_trailing_keeps2.
      destruct (last_char_some v vt) as (d & El).
      assert (Hd : space d = false).
      { cbn [trimmed_text] in Hv. apply andb_prop in Hv. destruct Hv as [_ Hv].
        rewrite El in Hv. now apply negb_true_iff. }
      assert (E0 : drop_trailing (String v vt ++ pad4) = String v vt)
        by (now apply drop_trailing_tight with d).
      cbn [drop_trailing].
      rewrite (drop_trailing_keeps pad3 _ _ _ E0). destruct pad3; reflexivity.
    + rewrite <- (append_empty (String v vt)) at 1.
      apply trim_whitespace_padded; auto. discriminate.
Qed.

Section WithFloat.
Context {F : Type} {FO : FloatOps F} {FL : FloatLe F} {LC : Libc F}.

(** X22: the body of the loop of [config_parse_file] reads a line [key =
    value] whatever blanks stand before the key, around the [=] and after the
    value, and whatever white space ends the line: the section parser of the
    current section gets the key and the value without them, the value without
    one pair of surrounding double quotes, and the line is reported as stored
    or as an unknown key by the result of that parser. The section name is
    kept. *)
Theorem key_value_line_is_read (current_section : string) (config : micarray_config F)
  (pad1 key pad2 pad3 value pad4 : string) :
  key_text key = true -> trimmed_text value = true ->
  all_blank pad1 = true -> all_blank pad2 = true -> all_blank pad3 = true ->
  all_space pad4 = true ->
  let read := parse_section current_section key (remove_quotes value) config in
  config_parse_line (current_section, config)
    (pad1 ++ key ++ pad2 ++ "=" ++ pad3 ++ value ++ pad4)
  = Some (current_section, snd read,
          if (fst read =? 0)%Z then Key_stored else Unknown_key).
Proof.
  intros Hk Hv H1 H2 H3 H4 read.
  destruct (trim_whitespace_line pad1 key pad2 pad3 value pad4 Hk Hv H1 H2 H3 H4)
    as (rest & Et & Er).
  unfold config_parse_line. rewrite Et.
  destruct key as [|c kt]; [discriminate Hk|].
  cbn [key_text] in Hk.
  apply andb_prop in Hk. destruct Hk as [Hk Hbr].
  apply andb_prop in Hk. destruct Hk as [Hk Hsh].
  apply andb_prop in Hk. destruct Hk as [Hk Heq].
  apply negb_true_iff in Hbr, Hsh, Heq.
  change (String c kt ++ pad2 ++ String "=" rest)
    with (String c (kt ++ pad2 ++ String "=" rest)).
  cbv iota beta. rewrite Hsh, Hbr. cbn [andb].
  change (String c (kt ++ pad2 ++ String "=" rest))
    with (String c kt ++ pad2 ++ String "=" rest).
  assert (Esplit : split_equals (String c kt ++ pad2 ++ String "=" rest)
                   = Some (String c kt ++ pad2, rest)).
  { assert (Hno : has_equals (String c kt ++ pad2) = false)
      by (rewrite has_equals_app, Heq, all_blank_no_equals by exact H2; reflexivity).
    rewrite <- (split_equals_first _ rest Hno). f_equal. apply append_assoc. }
  rewrite Esplit.
  assert (Ekey : trim_whitespace (String c kt ++ pad2) = String c kt).
  { apply (trim_whitespace_padded EmptyString (String c kt) pad2);
      [exact Hk|discriminate|reflexivity|apply all_blank_space, H2]. }
  rewrite Ekey, Er. fold read. destruct read as [result config']. reflexivity.
Qed.

Lemma parse_section_unknown (current_section key value : string)
  (config : micarray_config F) :
  known_section current_section = false ->
  parse_section current_section key value config = (-1, config).
Proof.
  unfold known_section, parse_section. intros H.
  repeat (apply orb_false_iff in H; destruct H as [H ?]).
  repeat match goal with E : (_ =? _)%string = false |- _ => rewrite E; clear E end.
  reflexivity.
Qed.

(** X23: a line changes the configuration only as a key line under one of the
    five section names. Under any other current section (the empty one before
    the first header among them), and for every line that is skipped, is a
    header or holds no [=], the configuration is left as it was, and the line
    is not reported as stored. *)
Theorem only_known_sections_are_read (current_section : string)
  (config : micarray_config F) (line : string)
  (section' : string) (config' : micarray_config F) (report : line_report) :
  config_parse_line (current_section, config) line = Some (section', config', report) ->
  known_section current_section = false \/ report = Skipped
  \/ report = Section_header \/ report = Invalid_line ->
  config' = config /\ report <> Key_stored.
Proof.
  unfold config_parse_line. intros E H.
  destruct (trim_whitespace line) as [|c rest].
  { injection E as <- <- <-. split; [reflexivity|discriminate]. }
  destruct (c =? "#")%char.
  { injection E as <- <- <-. split; [reflexivity|discriminate]. }
  destruct ((c =? "[")%char && ends_with "]" (String c rest))%bool.
  { destruct (64 <=? length (drop_last rest))%nat; [discriminate E|].
    injection E as <- <- <-. split; [reflexivity|discriminate]. }
  destruct (split_equals (String c rest)) as [[before after]|].
  2:{ injection E as <- <- <-. split; [reflexivity|discriminate]. }
  destruct (known_section current_section) eqn:Ek.
  - destruct (parse_section current_section _ _ config) as [result cfg1].
    injection E as <- <- <-.
    destruct H as [H|[H|[H|H]]]; try discriminate H;
      destruct (result =? 0)%Z; discriminate H.
  - rewrite parse_section_unknown in E by exact Ek.
    injection E as <- <- <-. split; [reflexivity|discriminate].
Qed.

(** The checks that a configuration has passed when [config_validate]
    accepts it. The three comparisons of [float] values were false; a NaN
    makes all of them false. *)
Lemma config_validate_checks (cfg : micarray_config F) :
  config_validate cfg = MICARRAY_SUCCESS ->
  (1 <= num_microphones cfg <= MAX_MICROPHONES)%Z /\
  fle (mic_spacing cfg) (of_int 0) = false /\
  (1 <= dma_buffer_size cfg <= MAX_BUFFER_SIZE)%Z /\
  (1 <= sample_rate cfg)%Z /\
  flt (volume cfg) (of_int 0) = false /\
  fgt (volume cfg) (of_int 1) = false.
Proof.
  unfold config_validate, MICARRAY_SUCCESS, MICARRAY_ERROR_CONFIG.
  destruct (Z.ltb_spec (num_microphones cfg) 1);
    destruct (Z.ltb_spec MAX_MICROPHONES (num_microphones cfg)); cbn [orb];
    try discriminate.
  destruct (fle (mic_spacing cfg) (of_int 0)); [discriminate|].
  destruct (Z.leb_spec (dma_buffer_size cfg) 0);
    destruct (Z.ltb_spec MAX_BUFFER_SIZE (dma_buffer_size cfg)); cbn [orb];
    try discriminate.
  destruct (Z.leb_spec (sample_rate cfg) 0); [discriminate|].
  destruct (flt (volume cfg) (of_int 0)); destruct (fgt (volume cfg) (of_int 1));
    cbn [orb]; try discriminate.
  intros _. repeat split; lia.
Qed.

End WithFloat.

Import Exact.

Lemma key_value_line_is_read_witness :
  config_parse_line ("MicrophoneArray", allocated_config)
    (" " ++ "num_microphones" ++ " " ++ "=" ++ " " ++ "4" ++ text_line " ")
  = Some ("MicrophoneArray",
          snd (parse_section "MicrophoneArray" "num_microphones" (remove_quotes "4")
                             allocated_config),
          if (fst (parse_section "MicrophoneArray" "num_microphones" (remove_quotes "4")
                                 allocated_config) =? 0)%Z
          then Key_stored else Unknown_key).
Proof.
  apply (key_value_line_is_read "MicrophoneArray" allocated_config
           " " "num_microphones" " " " " "4" (text_line " ")); reflexivity.
Defined.

Lemma only_known_sections_are_read_witness :
  snd (parse_section "Audio" "volume" "2" allocated_config) = allocated_config
  /\ Unknown_key <> Key_stored.
Proof.
  apply (only_known_sections_are_read "Audio" allocated_config "volume = 2" "Audio"
           (snd (parse_section "Audio" "volume" "2" allocated_config)) Unknown_key).
  - reflexivity.
  - left. reflexivity.
Defined.

(** The readers on some texts: a fraction, a unit behind the number, an
    exponent, a NaN, an infinity, a hexadecimal number, a text without a
    number, a number beyond the largest [float]; and [atoi] on a number
    beyond [long] and on one beyond [int]. *)
Example libc_readers_run :
  strtof "0.5" = (SpecFloat.S754_finite false 8388608 (-24), EmptyString) /\
  strtof "20mm" = (SpecFloat.S754_finite false 10485760 (-19), "mm") /\
  strtof "1e1mm" = (SpecFloat.S754_finite false 10485760 (-20), "mm") /\
  strtof "0.1" = (SpecFloat.S754_finite false 13421773 (-27), EmptyString) /\
  strtof "nan" = (SpecFloat.S754_nan, EmptyString) /\
  strtof "-inf" = (SpecFloat.S754_infinity true, EmptyString) /\
  strtof "0x1.8p1" = (SpecFloat.S754_finite false 12582912 (-22), EmptyString) /\
  strtof "mm" = (SpecFloat.S754_zero false, "mm") /\
  strtof "1e39" = (SpecFloat.S754_infinity false, EmptyString) /\
  atoi "4" = 4%Z /\ atoi " -12abc" = (-12)%Z /\
  atoi "9223372036854775808" = (-1)%Z /\ atoi "2147483648" = (-2147483648)%Z.
Proof. vm_compute. repeat split. Qed.

(** The sample file, read into the allocated structure. *)
Example config_parse_file_run :
  option_map snd (config_parse_lines sample_file (EmptyString, allocated_config))
  = Some [Skipped; Section_header; Key_stored; Key_stored; Section_header;
          Key_stored; Unknown_key; Invalid_line] /\
  exists config,
    config_parse_file (Some sample_file) allocated_config
      = Some (MICARRAY_SUCCESS, config) /\
    num_microphones config = 4%Z /\
    mic_spacing config = SpecFloat.S754_finite false 10485760 (-19) /\
    volume config = SpecFloat.S754_finite false 8388608 (-24) /\
    dma_buffer_size config = 0%Z.
Proof.
  split; [vm_compute; reflexivity|].
  eexists. split; [vm_compute; reflexivity|].
  repeat split.
Qed.

(** *** Validation, in exact arithmetic *)

Local Open Scope R_scope.

(** What [config_validate] accepts. *)
Lemma config_validate_accepts (cfg : micarray_config R) :
  config_validate cfg = MICARRAY_SUCCESS <->
  (1 <= num_microphones cfg <= MAX_MICROPHONES)%Z /\
  0 < mic_spacing cfg /\
  (1 <= dma_buffer_size cfg <= MAX_BUFFER_SIZE)%Z /\
  (1 <= sample_rate cfg)%Z /\
  0 <= volume cfg <= 1.
Proof.
  unfold config_validate, fgt, MAX_MICROPHONES, MAX_BUFFER_SIZE,
    MICARRAY_SUCCESS, MICARRAY_ERROR_CONFIG.
  cbn [fle R_le flt of_int R_float]. unfold Rleb, Rltb.
  destruct (Z.ltb_spec (num_microphones cfg) 1);
    destruct (Z.ltb_spec 16 (num_microphones cfg)); cbn [orb];
    try (split; [discriminate|lia]).
  destruct (Rle_dec (mic_spacing cfg) 0); [split; [discriminate|lra]|].
  destruct (Z.leb_spec (dma_buffer_size cfg) 0);
    destruct (Z.ltb_spec 8192 (dma_buffer_size cfg)); cbn [orb];
    try (split; [discriminate|lia]).
  destruct (Z.leb_spec (sample_rate cfg) 0); [split; [discriminate|lia]|].
  destruct (Rlt_dec (volume cfg) 0); destruct (Rlt_dec 1 (volume cfg)); cbn [orb];
    try (split; [discriminate|lra]).
  split; [intros _|reflexivity]. repeat split; try lia; lra.
Qed.

(** X24: [config_set_defaults] succeeds, overwrites every field (the result
    does not depend on the structure given) and, in exact arithmetic, gives a
    configuration that [config_validate] accepts. *)
Theorem defaults_pass_validation (cfg : micarray_config R) :
  fst (config_set_defaults cfg) = MICARRAY_SUCCESS /\
  config_validate (snd (config_set_defaults cfg)) = MICARRAY_SUCCESS /\
  forall other, snd (config_set_defaults other) = snd (config_set_defaults cfg).
Proof.
  split; [reflexivity|]. split; [|reflexivity].
  apply config_validate_accepts. unfold config_set_defaults.
  cbn [snd num_microphones mic_spacing dma_buffer_size sample_rate volume].
  unfold MAX_MICROPHONES, MAX_BUFFER_SIZE, DEFAULT_SAMPLE_RATE, lit.
  cbn [fdiv of_int R_float]. change (10 ^ Z.of_nat 1)%Z with 10%Z.
  repeat split; try lia; lra.
Qed.

End ConfigFacts.

Module MicArrayFacts.

Import Config MicArray.

(** *** The capture callback *)

Lemma callback_body_cell (M : Z) (data : list Z) (samples : Z)
  (b : list (list Z)) (n c s : nat) :
  (1 <= M <= INT_MAX)%Z -> (Z.of_nat n < 2 ^ 62)%Z -> (0 <= samples)%Z ->
  (Z.to_nat M <= length b)%nat ->
  ((Z.of_nat n / M < samples / M)%Z ->
   (Z.to_nat (Z.of_nat n / M) < length (nth (Z.to_nat (Z.of_nat n mod M)) b []))%nat) ->
  let b' := callback_body M data samples b (Z.of_nat n) in
  length b' = length b /\
  length (nth c b' []) = length (nth c b []) /\
  nth s (nth c b' []) 0 =
  if ((Z.of_nat n / M <? samples / M) && (Z.of_nat c =? Z.of_nat n mod M)
      && (Z.of_nat s =? Z.of_nat n / M))%bool
  then nth n data 0 else nth s (nth c b []) 0.
Proof.
  intros HM Hn Hs Hlen Hlane b'. subst b'. unfold INT_MAX in HM. unfold callback_body.
  change (2 ^ 62)%Z with 4611686018427387904%Z in Hn.
  rewrite (to_size_t_id M) by (change (2 ^ 64)%Z with 18446744073709551616%Z; lia).
  rewrite Z.rem_mod_nonneg, (Z.quot_div_nonneg (Z.of_nat n)),
    (Z.quot_div_nonneg samples) by lia.
  pose proof (Z.mod_pos_bound (Z.of_nat n) M ltac:(lia)) as Hmod.
  rewrite to_int32_id by lia.
  destruct (Z.ltb_spec (Z.of_nat n / M) (samples / M)) as [Hin|Hout];
    cbn [andb]; [|repeat split; reflexivity].
  specialize (Hlane Hin). rewrite Nat2Z.id.
  set (cn := Z.to_nat (Z.of_nat n mod M)) in *.
  set (sn := Z.to_nat (Z.of_nat n / M)) in *.
  assert (Hcn : (cn < length b)%nat) by (subst cn; lia).
  assert (Hdiv : (0 <= Z.of_nat n / M)%Z) by (apply Z.div_pos; lia).
  split; [apply length_upd|].
  destruct (Z.eqb_spec (Z.of_nat c) (Z.of_nat n mod M)) as [Ec|Ec]; cbn [andb].
  - assert (c = cn) by (subst cn; lia). subst c.
    rewrite (nth_upd_same cn _ []) by exact Hcn.
    split; [apply length_upd|].
    destruct (Z.eqb_spec (Z.of_nat s) (Z.of_nat n / M)) as [Es|Es].
    + assert (s = sn) by (subst sn; lia). subst s.
      now rewrite nth_upd_same.
    + rewrite nth_upd_other by (subst sn; lia). reflexivity.
  - assert (cn <> c) by (subst cn; lia).
    rewrite (nth_upd_other cn c _ []) by assumption. split; reflexivity.
Qed.

Lemma slot_of_index (M n c s : Z) :
  (0 < M)%Z -> (0 <= c)%Z -> (0 <= s)%Z ->
  (s * M + c = n /\ c < M <-> c = n mod M /\ s = n / M)%Z.
Proof.
  intros HM Hc Hs. split.
  - intros [E Hlt]. subst n. split.
    + rewrite Z.add_comm, Z.mod_add by lia. symmetry. apply Z.mod_small. lia.
    + rewrite Z.add_comm, Z.div_add by lia. rewrite Z.div_small by lia. lia.
  - intros [-> ->]. pose proof (Z.mod_pos_bound n M HM).
    pose proof (Z.div_mod n M ltac:(lia)). lia.
Qed.

Lemma callback_fold (M : Z) (data : list Z) (samples : Z) (bufs : list (list Z))
  (n : nat) :
  (1 <= M <= INT_MAX)%Z -> (0 <= samples < 2 ^ 62)%Z ->
  (Z.to_nat M <= length bufs)%nat ->
  (forall c, (c < Z.to_nat M)%nat ->
             (Z.to_nat (samples / M) <= length (nth c bufs []))%nat) ->
  (Z.of_nat n <= samples)%Z ->
  let b := fold_left (callback_body M data samples) (map Z.of_nat (seq 0 n)) bufs in
  length b = length bufs /\
  forall c s,
    length (nth c b []) = length (nth c bufs []) /\
    nth s (nth c b []) 0 =
    if ((Z.of_nat c <? M) && (Z.of_nat s <? samples / M)
        && (Z.of_nat s * M + Z.of_nat c <? Z.of_nat n))%bool
    then nth (s * Z.to_nat M + c) data 0 else nth s (nth c bufs []) 0.
Proof.
  intros HM Hs Hlen Hlanes. induction n as [|n IH]; intros Hn b.
  - subst b. cbn [seq map fold_left]. split; [reflexivity|]. intros c s.
    split; [reflexivity|].
    replace (Z.of_nat s * M + Z.of_nat c <? Z.of_nat 0)%Z with false
      by (symmetry; apply Z.ltb_ge; nia).
    now rewrite andb_false_r.
  - subst b. rewrite seq_S, map_app, fold_left_app. cbn [map fold_left Nat.add].
    specialize (IH ltac:(lia)). cbv zeta in IH. destruct IH as [IHl IHc].
    set (b := fold_left _ (map Z.of_nat (seq 0 n)) bufs) in *.
    pose proof (Z.mod_pos_bound (Z.of_nat n) M ltac:(lia)) as Hmod.
    assert (Hq : (0 <= Z.of_nat n / M)%Z) by (apply Z.div_pos; lia).
    assert (Hlane : (Z.of_nat n / M < samples / M)%Z ->
                    (Z.to_nat (Z.of_nat n / M)
                     < length (nth (Z.to_nat (Z.of_nat n mod M)) b []))%nat).
    { intros Hin. rewrite (proj1 (IHc _ 0%nat)).
      specialize (Hlanes (Z.to_nat (Z.of_nat n mod M)) ltac:(lia)). lia. }
    split.
    + rewrite <- IHl.
      apply (callback_body_cell M data samples b n 0 0 HM ltac:(lia) ltac:(lia)
               ltac:(lia) Hlane).
    + intros c s.
      destruct (callback_body_cell M data samples b n c s HM ltac:(lia) ltac:(lia)
                  ltac:(lia) Hlane) as (_ & Hl & Hv).
      cbv zeta in Hl, Hv. destruct (IHc c s) as [IHl' IHv].
      split; [now rewrite Hl|]. rewrite Hv, IHv. clear Hv IHv Hl IHl'.
      pose proof (slot_of_index M (Z.of_nat n) (Z.of_nat c) (Z.of_nat s)
                    ltac:(lia) ltac:(lia) ltac:(lia)) as Hslot.
      destruct (Z.ltb_spec (Z.of_nat n / M) (samples / M)) as [Hin|Hout];
        destruct (Z.eqb_spec (Z.of_nat c) (Z.of_nat n mod M)) as [Ec|Ec];
        destruct (Z.eqb_spec (Z.of_nat s) (Z.of_nat n / M)) as [Es|Es];
        destruct (Z.ltb_spec (Z.of_nat c) M) as [Hc|Hc];
        destruct (Z.ltb_spec (Z.of_nat s) (samples / M)) as [Hsf|Hsf];
        destruct (Z.ltb_spec (Z.of_nat s * M + Z.of_nat c) (Z.of_nat (S n))) as [H1|H1];
        destruct (Z.ltb_spec (Z.of_nat s * M + Z.of_nat c) (Z.of_nat n)) as [H2|H2];
        cbn [andb]; try reflexivity; try lia;
        try (exfalso; assert (Z.of_nat s * M + Z.of_nat c = Z.of_nat n)%Z by lia; lia);
        try (f_equal; nia).
Qed.

(** X25: while the array runs, [audio_callback] stores sample [s * M + c] of
    the interleaved block in slot [s] of lane [c], for every lane [c < M] and
    every slot [s] of the [samples / M] complete frames, given lanes that hold
    that many slots; the samples of an incomplete last frame are dropped, the
    other slots and lanes and the sizes are left as they were, and nothing at
    all is stored while the array does not run. *)
Theorem audio_callback_deinterleaves (M : Z) (data : list Z) (samples : Z)
  (bufs : list (list Z)) (c s : nat) :
  (1 <= M <= INT_MAX)%Z -> (0 <= samples < 2 ^ 62)%Z ->
  (Z.to_nat M <= length bufs)%nat ->
  (forall c, (c < Z.to_nat M)%nat ->
             (Z.to_nat (samples / M) <= length (nth c bufs []))%nat) ->
  let frames := Z.to_nat (samples / M) in
  let bufs' := audio_callback true M data samples bufs in
  length bufs' = length bufs /\
  length (nth c bufs' []) = length (nth c bufs []) /\
  ((c < Z.to_nat M)%nat -> (s < frames)%nat ->
   nth s (nth c bufs' []) 0 = nth (s * Z.to_nat M + c) data 0) /\
  ((frames <= s)%nat -> nth s (nth c bufs' []) 0 = nth s (nth c bufs []) 0) /\
  ((Z.to_nat M <= c)%nat -> nth c bufs' [] = nth c bufs []) /\
  audio_callback false M data samples bufs = bufs.
Proof.
  intros HM Hs Hlen Hlanes frames bufs'.
  assert (Hq : (0 <= samples / M)%Z) by (apply Z.div_pos; lia).
  destruct (callback_fold M data samples bufs (Z.to_nat samples) HM Hs Hlen Hlanes
              ltac:(lia)) as [Hl Hc].
  cbv zeta in Hl, Hc. subst bufs'. unfold audio_callback. cbn [negb].
  split; [exact Hl|]. split; [apply (Hc c 0%nat)|].
  split; [|split; [|split; [|reflexivity]]].
  - intros Hcm Hsf. rewrite (proj2 (Hc c s)).
    replace (Z.of_nat c <? M)%Z with true by (symmetry; apply Z.ltb_lt; lia).
    replace (Z.of_nat s <? samples / M)%Z with true
      by (symmetry; apply Z.ltb_lt; subst frames; lia).
    replace (Z.of_nat s * M + Z.of_nat c <? Z.of_nat (Z.to_nat samples))%Z with true;
      [reflexivity|].
    symmetry. apply Z.ltb_lt. rewrite Z2Nat.id by lia.
    pose proof (Z.mul_div_le samples M ltac:(lia)).
    assert (Z.of_nat s + 1 <= samples / M)%Z by (subst frames; lia). nia.
  - intros Hsf. rewrite (proj2 (Hc c s)).
    replace (Z.of_nat s <? samples / M)%Z with false
      by (symmetry; apply Z.ltb_ge; subst frames; lia).
    now rewrite andb_false_r.
  - intros Hcm. apply nth_ext with (d := 0%Z) (d' := 0%Z); [apply (Hc c 0%nat)|].
    intros k _. rewrite (proj2 (Hc c k)).
    replace (Z.of_nat c <? M)%Z with false by (symmetry; apply Z.ltb_ge; lia).
    reflexivity.
Qed.

Lemma audio_callback_deinterleaves_witness :
  let bufs := [[0; 0; 0]; [0; 0; 0]]%Z in
  let data := [11; 21; 12; 22; 13]%Z in
  (1 <= 2 <= INT_MAX)%Z /\ (0 <= 5 < 2 ^ 62)%Z /\
  (Z.to_nat 2 <= length bufs)%nat /\
  (forall c, (c < Z.to_nat 2)%nat ->
             (Z.to_nat (5 / 2) <= length (nth c bufs []))%nat) /\
  nth 1 (nth 0 (audio_callback true 2 data 5 bufs) []) 0 = nth (1 * Z.to_nat 2 + 0) data 0.
Proof.
  intros bufs data.
  assert (H1 : (1 <= 2 <= INT_MAX)%Z) by (unfold INT_MAX; lia).
  assert (H2 : (0 <= 5 < 2 ^ 62)%Z) by (split; [lia|reflexivity]).
  assert (H3 : (Z.to_nat 2 <= length bufs)%nat) by (simpl; lia).
  assert (H4 : forall c, (c < Z.to_nat 2)%nat ->
                         (Z.to_nat (5 / 2) <= length (nth c bufs []))%nat).
  { intros [|[|c]] Hc; simpl in *; lia. }
  split; [exact H1|split; [exact H2|split; [exact H3|split; [exact H4|]]]].
  refine (proj1 (proj2 (proj2 (audio_callback_deinterleaves 2 data 5 bufs 0 1
                                 H1 H2 H3 H4))) _ _); simpl; lia.
Defined.

Example audio_callback_run :
  audio_callback true 2 [11; 21; 12; 22; 13] 5 [[0; 0; 0]; [0; 0; 0]] =
  [[11; 12; 0]; [21; 22; 0]].
Proof. vm_compute. reflexivity. Qed.

(** *** Result codes *)

(** The eight result codes have eight messages; every other number reads
    [Unknown error]. *)
Lemma error_strings_tell_codes_apart (a b : Z) :
  (micarray_get_error_string a = "Unknown error"%string <-> (a < -7 \/ 0 < a)%Z) /\
  ((-7 <= a <= 0)%Z -> (-7 <= b <= 0)%Z ->
   micarray_get_error_string a = micarray_get_error_string b -> a = b).
Proof.
  split.
  - unfold micarray_get_error_string, MICARRAY_SUCCESS, MICARRAY_ERROR_INIT,
      MICARRAY_ERROR_CONFIG, MICARRAY_ERROR_I2S, MICARRAY_ERROR_DMA,
      AudioOutput.MICARRAY_ERROR_AUDIO_OUTPUT, MICARRAY_ERROR_MEMORY,
      MICARRAY_ERROR_INVALID_PARAM.
    repeat match goal with
           | |- context [(a =? ?k)%Z] => destruct (Z.eqb_spec a k)
           end;
      (split; [intros H; try discriminate H; lia|intros H; try lia; reflexivity]).
  - intros Ha Hb.
    assert (Ea : a = 0 \/ a = -1 \/ a = -2 \/ a = -3 \/ a = -4 \/ a = -5 \/ a = -6
                 \/ a = -7) by lia.
    assert (Eb : b = 0 \/ b = -1 \/ b = -2 \/ b = -3 \/ b = -4 \/ b = -5 \/ b = -6
                 \/ b = -7) by lia.
    repeat (destruct Ea as [->|Ea]); try subst a;
      repeat (destruct Eb as [->|Eb]); try subst b;
      intros H; try reflexivity; vm_compute in H; discriminate H.
Qed.

(** *** Starting and stopping *)

Section WithFloat.
Context {F : Type} {FO : FloatOps F} {FT : FFTW F} {FL : FloatLe F}.

(** X26: [micarray_start] is all or nothing. From a context whose three
    running flags agree (the array, the capture device, the sink), the three
    flags agree again afterwards; they are all set, and the result is
    [MICARRAY_SUCCESS], exactly when the array ran already or the capture
    thread, [snd_pcm_prepare] and the processing thread all succeeded. A start
    from rest that succeeds leaves the capture ring empty. Failures of
    [pthread_join] and [snd_pcm_drop] while a start is undone do not change
    this. *)
Theorem micarray_start_all_or_nothing (ctx : micarray_context F) (os : outcomes) (b : bool) :
  devices_present ctx -> flags ctx = (b, b, b) ->
  let started := (i2s_thread_created os && (0 <=? prepare_err os)%Z
                  && processing_thread_created os)%bool in
  devices_present (snd (micarray_start ctx os)) /\
  (fst (micarray_start ctx os) = MICARRAY_SUCCESS <-> (b || started)%bool = true) /\
  flags (snd (micarray_start ctx os)) =
    (b || started, b || started, b || started)%bool /\
  (b = false -> started = true -> buffered (snd (micarray_start ctx os)) = []).
Proof.
  intros [Hi Ha] Hf started. subst started. unfold flags in Hf.
  destruct ctx as [cfg i2s nz lc au mb pb cl run].
  destruct os as [itc pe ptc ptj de itj].
  cbn [running i2s_ctx audio_ctx i2s_thread_created prepare_err
       processing_thread_created] in *.
  destruct i2s as [[rg ir]|]; [|congruence].
  destruct au as [[acfg arun aout afr]|]; [|congruence].
  cbn [I2SDevice.i2s_is_running AudioOutput.audio_output_is_running
       I2SDevice.running AudioOutput.running] in Hf.
  assert (run = b /\ ir = b /\ arun = b) as (-> & -> & ->) by (inversion Hf; auto).
  assert (Epe : (0 <=? pe)%Z = negb (pe <? 0)%Z).
  { destruct (Z.ltb_spec pe 0); [apply Z.leb_gt|apply Z.leb_le]; lia. }
  rewrite Epe. unfold micarray_start, devices_present, flags, buffered.
  cbn [running i2s_ctx audio_ctx i2s_thread_created prepare_err
       processing_thread_created drop_err i2s_thread_joined].
  unfold I2SDevice.i2s_start, start_audio, AudioOutput.audio_output_start,
    stop_audio, AudioOutput.audio_output_stop, I2SDevice.i2s_stop.
  cbn [I2SDevice.running AudioOutput.running].
  destruct b; [cbv; repeat split; try congruence; discriminate|].
  destruct itc; [|cbv; repeat split; try congruence; discriminate].
  destruct (pe <? 0)%Z; [cbv; repeat split; try congruence; discriminate|].
  destruct ptc; [cbv; repeat split; try congruence; discriminate|].
  destruct (de <? 0)%Z; cbv; repeat split; try congruence; discriminate.
Qed.

(** X27: [micarray_stop] always returns [MICARRAY_SUCCESS] and, from a context
    whose three running flags agree, leaves all three cleared, whatever
    [pthread_join] and [snd_pcm_drop] answer; the samples in the capture ring
    and the current location are kept. *)
Theorem micarray_stop_quiesces (ctx : micarray_context F) (os : outcomes) (b : bool) :
  devices_present ctx -> flags ctx = (b, b, b) ->
  fst (micarray_stop ctx os) = MICARRAY_SUCCESS /\
  devices_present (snd (micarray_stop ctx os)) /\
  flags (snd (micarray_stop ctx os)) = (false, false, false) /\
  buffered (snd (micarray_stop ctx os)) = buffered ctx /\
  micarray_get_location (snd (micarray_stop ctx os)) = micarray_get_location ctx.
Proof.
  intros [Hi Ha] Hf. unfold flags in Hf.
  destruct ctx as [cfg i2s nz lc au mb pb cl run].
  destruct os as [itc pe ptc ptj de itj].
  cbn [running i2s_ctx audio_ctx] in *.
  destruct i2s as [[rg ir]|]; [|congruence].
  destruct au as [[acfg arun aout afr]|]; [|congruence].
  cbn [I2SDevice.i2s_is_running AudioOutput.audio_output_is_running
       I2SDevice.running AudioOutput.running] in Hf.
  assert (run = b /\ ir = b /\ arun = b) as (-> & -> & ->) by (inversion Hf; auto).
  unfold micarray_stop, devices_present, flags, buffered, micarray_get_location.
  cbn [running i2s_ctx audio_ctx drop_err i2s_thread_joined].
  unfold stop_audio, AudioOutput.audio_output_stop, I2SDevice.i2s_stop.
  cbn [I2SDevice.running AudioOutput.running].
  destruct b; cbn [negb].
  - destruct (de <? 0)%Z; cbn; repeat split; congruence.
  - cbn. repeat split; congruence.
Qed.

(** *** What [micarray_init] configures *)

Lemma localizer_of_plane (cfg : micarray_config F) (delays confidences : list F) :
  let l := localizer_of cfg delays confidences in
  Localization.coplanar l /\
  length (Localization.mic_positions l) = Z.to_nat (num_microphones cfg) /\
  Localization.num_microphones (Localization.config l) = num_microphones cfg.
Proof.
  intros l. subst l. unfold localizer_of, Localization.localization_init.
  cbn [Localization.mic_positions Localization.config loc_config_of
       Localization.num_microphones Localization.speed_of_sound].
  rewrite firstn_all2
    by (unfold init_positions; rewrite length_map, length_seq; lia).
  split; [|split].
  - exists (of_int 0). apply Forall_forall. intros p Hp.
    unfold init_positions in Hp. apply in_map_iff in Hp.
    destruct Hp as (i & <- & _). reflexivity.
  - unfold init_positions. rewrite length_map, length_seq. lia.
  - destruct (fle _ _); reflexivity.
Qed.

(** X30: for a configuration that [config_validate] accepts, in every
    floating-point arithmetic, the components that [micarray_init]
    configures satisfy what the rounds need: the capture ring is well formed
    and holds four blocks, the denoiser (made when noise reduction is
    enabled) is between two rounds, the localizer has a position for each
    microphone, all in the plane [z = 0], and the volume of the sink is
    neither below 0 nor above 1 in the comparisons of [config_validate],
    which a NaN passes as well. *)
Theorem validated_config_wires (cfg : micarray_config F) (delays confidences : list F) :
  config_validate cfg = MICARRAY_SUCCESS ->
  let ring := I2S.i2s_start (I2S.i2s_init (dma_buffer_size cfg)) in
  let denoiser := NoiseReduction.noise_reduction_init (noise_config_of cfg) in
  let localizer := localizer_of cfg delays confidences in
  let sink := audio_config_of cfg in
  I2S.ring_ok ring /\ I2S.ring_buffer_size ring = (4 * dma_buffer_size cfg)%Z /\
  ((0 <= NoiseReduction.overlap (NoiseReduction.config denoiser)
      < NoiseReduction.frame_size (NoiseReduction.config denoiser))%Z /\
   (NoiseReduction.frame_size (NoiseReduction.config denoiser) < 2 ^ 30)%Z /\
   (0 <= NoiseReduction.buffer_pos denoiser
      < NoiseReduction.frame_size (NoiseReduction.config denoiser))%Z) /\
  Localization.coplanar localizer /\
  length (Localization.mic_positions localizer) =
    Z.to_nat (Localization.num_microphones (Localization.config localizer)) /\
  flt (AudioOutput.volume sink) (of_int 0) = false /\
  fgt (AudioOutput.volume sink) (of_int 1) = false.
Proof.
  intros Hv. apply ConfigFacts.config_validate_checks in Hv.
  destruct Hv as (HM & Hsp & HB & Hr & Hv0 & Hv1).
  unfold MAX_MICROPHONES, MAX_BUFFER_SIZE in *. cbv zeta.
  destruct (localizer_of_plane cfg delays confidences) as (Hc & Hl & Hn).
  cbv zeta in Hc, Hl, Hn.
  split; [apply I2SFacts.ring_ok_start; lia|].
  split.
  { unfold I2S.i2s_start, I2S.i2s_init. cbn [I2S.ring_buffer_size].
    rewrite to_int32_id by lia. rewrite to_size_t_id; [lia|].
    change (2 ^ 64)%Z with 18446744073709551616%Z. lia. }
  split.
  { unfold NoiseReduction.noise_reduction_init, noise_config_of.
    cbn [NoiseReduction.config NoiseReduction.overlap NoiseReduction.frame_size
         NoiseReduction.buffer_pos].
    change (2 ^ 30)%Z with 1073741824%Z. lia. }
  split; [exact Hc|]. split; [now rewrite Hl, Hn|].
  split; [exact Hv0|exact Hv1].
Qed.

End WithFloat.

Import Exact ExactFacts.
#[local] Existing Instance NoiseReduction.R_fftw.

Lemma devices_present_idle : devices_present idle_context.
Proof. split; discriminate. Qed.

Lemma micarray_start_all_or_nothing_witness :
  devices_present (snd (micarray_start idle_context all_well)) /\
  (fst (micarray_start idle_context all_well) = MICARRAY_SUCCESS <-> true = true) /\
  flags (snd (micarray_start idle_context all_well)) = (true, true, true) /\
  (false = false -> true = true ->
   buffered (snd (micarray_start idle_context all_well)) = []).
Proof.
  exact (micarray_start_all_or_nothing idle_context all_well false
           devices_present_idle eq_refl).
Defined.

Lemma devices_present_live : devices_present live_context.
Proof. split; discriminate. Qed.

Lemma micarray_stop_quiesces_witness :
  fst (micarray_stop live_context all_well) = MICARRAY_SUCCESS /\
  devices_present (snd (micarray_stop live_context all_well)) /\
  flags (snd (micarray_stop live_context all_well)) = (false, false, false) /\
  buffered (snd (micarray_stop live_context all_well)) = buffered live_context /\
  micarray_get_location (snd (micarray_stop live_context all_well))
  = micarray_get_location live_context.
Proof.
  exact (micarray_stop_quiesces live_context all_well true devices_present_live eq_refl).
Defined.

(** A start, a stop and a second start on the small array. *)
Example micarray_start_stop_run :
  fst (micarray_start idle_context all_well) = MICARRAY_SUCCESS /\
  flags live_context = (true, true, true) /\
  flags (snd (micarray_stop live_context all_well)) = (false, false, false) /\
  flags (snd (micarray_start (snd (micarray_stop live_context all_well)) all_well))
  = (true, true, true).
Proof. repeat split. Qed.

(** *** One round of the processing thread, in exact arithmetic *)

Local Open Scope R_scope.

Lemma denoise_lanes_returns (lanes : list nat)
  (nctx : NoiseReduction.noise_reduction_context R) (bufs : list (list Z)) (B : Z) :
  NoiseReduction.round_ready nctx -> (B < 2 ^ 62)%Z ->
  exists nctx' bufs',
    denoise_lanes (Z.to_nat B) lanes nctx bufs B = Some (nctx', bufs') /\
    NoiseReduction.round_ready nctx'.
Proof.
  intros Hr HB. revert nctx bufs Hr.
  induction lanes as [|i lanes IH]; intros nctx bufs Hr.
  - exists nctx, bufs. split; [reflexivity|exact Hr].
  - cbn [denoise_lanes].
    destruct (NoiseReductionFacts.process_block true nctx (nth i bufs []) (nth i bufs [])
                B Hr HB) as (n1 & out & E & Hr1 & _).
    rewrite E. apply IH. exact Hr1.
Qed.

Lemma processing_round_returns (ctx : micarray_context R) (frames_written : Z) :
  (forall nctx, noise_ctx ctx = Some nctx -> NoiseReduction.round_ready nctx) ->
  (0 <= Config.dma_buffer_size (config ctx) <= Config.MAX_BUFFER_SIZE)%Z ->
  let B := Config.dma_buffer_size (config ctx) in
  exists ctx',
    processing_round (Z.to_nat B) ctx frames_written = Some ctx' /\
    config ctx' = config ctx /\
    (forall l, loc_ctx ctx = Some l ->
       current_location ctx' =
       snd (Localization.localization_process l (mic_buffers ctx') B)) /\
    processed_buffer ctx' =
      Downmix.downmix (Config.num_microphones (config ctx)) (Z.to_nat B)
                      (mic_buffers ctx') (processed_buffer ctx) /\
    (forall a, audio_ctx ctx = Some a ->
       audio_ctx ctx' =
       Some (snd (AudioOutput.audio_output_write_localized
                    a (processed_buffer ctx') B (current_location ctx')
                    frames_written))).
Proof.
  intros Hn HB B. unfold Config.MAX_BUFFER_SIZE in HB. fold B in HB.
  assert (EB : to_size_t B = B)
    by (apply to_size_t_id; change (2 ^ 64)%Z with 18446744073709551616%Z; lia).
  assert (HB62 : (B < 2 ^ 62)%Z)
    by (change (2 ^ 62)%Z with 4611686018427387904%Z; lia).
  unfold processing_round. fold B. rewrite EB.
  assert (Hden : exists noise' bufs',
            match noise_ctx ctx with
            | Some nctx =>
                if Config.noise_reduction_enable (config ctx)
                then match denoise_lanes (Z.to_nat B)
                             (seq 0 (Z.to_nat (Config.num_microphones (config ctx))))
                             nctx (mic_buffers ctx) B with
                     | None => None
                     | Some (nctx', buffers') => Some (Some nctx', buffers')
                     end
                else Some (Some nctx, mic_buffers ctx)
            | None => Some (None, mic_buffers ctx)
            end = Some (noise', bufs')).
  { destruct (noise_ctx ctx) as [nctx|] eqn:En; [|eexists; eexists; reflexivity].
    destruct (Config.noise_reduction_enable (config ctx));
      [|eexists; eexists; reflexivity].
    destruct (denoise_lanes_returns
                (seq 0 (Z.to_nat (Config.num_microphones (config ctx))))
                nctx (mic_buffers ctx) B (Hn _ eq_refl) HB62) as (n1 & b1 & E & _).
    rewrite E. eexists. eexists. reflexivity. }
  destruct Hden as (noise' & bufs' & ->).
  destruct (loc_ctx ctx) as [l|] eqn:El.
  - destruct (Localization.localization_process l bufs' B) as [[code l'] location] eqn:Ep.
    eexists. split; [reflexivity|]. cbn [config current_location processed_buffer
                                          audio_ctx mic_buffers].
    split; [reflexivity|]. split; [|split; [reflexivity|]].
    + intros l0 E0. inversion E0; subst. now rewrite Ep.
    + intros a Ea. rewrite Ea. reflexivity.
  - eexists. split; [reflexivity|]. cbn [config current_location processed_buffer
                                          audio_ctx mic_buffers].
    split; [reflexivity|]. split; [|split; [reflexivity|]].
    + intros l0 E0. discriminate.
    + intros a Ea. rewrite Ea. reflexivity.
Qed.

(** X28: in exact arithmetic, a round of [processing_thread_func] on a
    denoiser between two rounds and a localizer whose microphones lie in one
    plane [z = c] returns, and the location that [micarray_get_location] gives
    afterwards is the origin: with confidence 0, or with a confidence below
    the threshold. No block of samples moves it. *)
Theorem round_reports_origin (ctx : micarray_context R)
  (lctx : Localization.localization_context R) (frames_written : Z) :
  (forall nctx, noise_ctx ctx = Some nctx -> NoiseReduction.round_ready nctx) ->
  (0 <= Config.dma_buffer_size (config ctx) <= Config.MAX_BUFFER_SIZE)%Z ->
  loc_ctx ctx = Some lctx ->
  Localization.coplanar lctx ->
  (Z.to_nat (Localization.num_microphones (Localization.config lctx))
   <= length (Localization.mic_positions lctx))%nat ->
  exists ctx' c,
    processing_round (Z.to_nat (Config.dma_buffer_size (config ctx))) ctx frames_written
      = Some ctx' /\
    micarray_get_location ctx' = (MICARRAY_SUCCESS, Localization.origin c) /\
    (c = 0 \/
     c < Localization.min_confidence_threshold (Localization.config lctx)).
Proof.
  intros Hn HB Hl Hc Hlen.
  destruct (processing_round_returns ctx frames_written Hn HB)
    as (ctx' & E & _ & Hloc & _).
  destruct (LocalizationFacts.coplanar_origin lctx (mic_buffers ctx')
              (Config.dma_buffer_size (config ctx)) Hc Hlen) as (c & Hc1 & Hc2).
  exists ctx', c. split; [exact E|]. split; [|exact Hc2].
  unfold micarray_get_location. rewrite (Hloc _ Hl), Hc1. reflexivity.
Qed.

(** X29: in exact arithmetic, with microphones in one plane, a running sink
    and room for the block, a round of [processing_thread_func] writes every
    frame of the block with the same value on the left and on the right: the
    downmixed sample scaled by the confidence [c] of the round and then by the
    volume, each product converted to [int16_t]. *)
Theorem round_output_is_centred (ctx : micarray_context R)
  (lctx : Localization.localization_context R)
  (actx : AudioOutput.audio_output_context R) (frames_written : Z) :
  (forall nctx, noise_ctx ctx = Some nctx -> NoiseReduction.round_ready nctx) ->
  (0 <= Config.dma_buffer_size (config ctx) <= Config.MAX_BUFFER_SIZE)%Z ->
  loc_ctx ctx = Some lctx ->
  Localization.coplanar lctx ->
  (Z.to_nat (Localization.num_microphones (Localization.config lctx))
   <= length (Localization.mic_positions lctx))%nat ->
  audio_ctx ctx = Some actx ->
  AudioOutput.running actx = true ->
  (2 * Config.dma_buffer_size (config ctx)
   <= Z.of_nat (length (AudioOutput.output_buffer actx)))%Z ->
  exists ctx' actx' c,
    processing_round (Z.to_nat (Config.dma_buffer_size (config ctx))) ctx frames_written
      = Some ctx' /\
    audio_ctx ctx' = Some actx' /\
    current_location ctx' = Localization.origin c /\
    (c = 0 \/
     c < Localization.min_confidence_threshold (Localization.config lctx)) /\
    forall i, (Z.of_nat i < Config.dma_buffer_size (config ctx))%Z ->
      let m := nth i (processed_buffer ctx') 0%Z in
      let sample :=
        AudioOutput.scale_sample (AudioOutput.scale_sample m c)
          (AudioOutput.volume (AudioOutput.config actx)) in
      nth (i * 2) (AudioOutput.output_buffer actx') 0%Z = sample /\
      nth (i * 2 + 1) (AudioOutput.output_buffer actx') 0%Z = sample.
Proof.
  intros Hn HB Hl Hc Hlen Ha Hrun Hout.
  destruct (processing_round_returns ctx frames_written Hn HB)
    as (ctx' & E & _ & Hloc & _ & Haud).
  destruct (LocalizationFacts.coplanar_origin lctx (mic_buffers ctx')
              (Config.dma_buffer_size (config ctx)) Hc Hlen) as (c & Hc1 & Hc2).
  assert (Eloc : current_location ctx' = Localization.origin c)
    by (rewrite (Hloc _ Hl); exact Hc1).
  eexists. eexists. exists c. split; [exact E|]. split; [exact (Haud _ Ha)|].
  split; [exact Eloc|]. split; [exact Hc2|].
  intros i Hi m sample.
  destruct (AudioOutputFacts.write_localized_frame actx (processed_buffer ctx')
              (Config.dma_buffer_size (config ctx)) (current_location ctx')
              frames_written i 0%Z Hrun Hi Hout) as [H1 H2].
  cbv zeta in H1, H2. rewrite H1, H2, Eloc.
  change (Localization.origin c) with (mk_location 0 0 0 c).
  rewrite AudioOutputFacts.stereo_gains_origin. split; reflexivity.
Qed.

(** *** The small array *)

Lemma live_denoiser_ready (nctx : NoiseReduction.noise_reduction_context R) :
  noise_ctx live_context = Some nctx -> NoiseReduction.round_ready nctx.
Proof.
  intros E. injection E as <-. exact NoiseReductionFacts.round_ready_passthrough.
Qed.

Lemma live_block_size :
  (0 <= Config.dma_buffer_size (config live_context) <= Config.MAX_BUFFER_SIZE)%Z.
Proof. vm_compute. split; discriminate. Qed.

Lemma quad_positions_given :
  (Z.to_nat (Localization.num_microphones (Localization.config Localization.quad_context))
   <= length (Localization.mic_positions Localization.quad_context))%nat.
Proof. simpl. lia. Qed.

Lemma round_reports_origin_witness :
  exists ctx' c,
    processing_round (Z.to_nat (Config.dma_buffer_size (config live_context)))
                     live_context 2 = Some ctx' /\
    micarray_get_location ctx' = (MICARRAY_SUCCESS, Localization.origin c) /\
    (c = 0 \/
     c < Localization.min_confidence_threshold
           (Localization.config Localization.quad_context)).
Proof.
  exact (round_reports_origin live_context Localization.quad_context 2
           live_denoiser_ready live_block_size eq_refl
           LocalizationFacts.coplanar_quad quad_positions_given).
Defined.

Lemma live_sink_holds_block :
  (2 * Config.dma_buffer_size (config live_context)
   <= Z.of_nat (length (AudioOutput.output_buffer live_sink)))%Z.
Proof. vm_compute. discriminate. Qed.

Lemma round_output_is_centred_witness :
  exists ctx' actx' c,
    processing_round (Z.to_nat (Config.dma_buffer_size (config live_context)))
                     live_context 2 = Some ctx' /\
    audio_ctx ctx' = Some actx' /\
    current_location ctx' = Localization.origin c /\
    (c = 0 \/
     c < Localization.min_confidence_threshold
           (Localization.config Localization.quad_context)) /\
    forall i, (Z.of_nat i < Config.dma_buffer_size (config live_context))%Z ->
      let m := nth i (processed_buffer ctx') 0%Z in
      let sample :=
        AudioOutput.scale_sample (AudioOutput.scale_sample m c)
          (AudioOutput.volume (AudioOutput.config live_sink)) in
      nth (i * 2) (AudioOutput.output_buffer actx') 0%Z = sample /\
      nth (i * 2 + 1) (AudioOutput.output_buffer actx') 0%Z = sample.
Proof.
  exact (round_output_is_centred live_context Localization.quad_context live_sink 2
           live_denoiser_ready live_block_size eq_refl
           LocalizationFacts.coplanar_quad quad_positions_given eq_refl eq_refl
           live_sink_holds_block).
Defined.

Lemma sample_config_valid : config_validate sample_config = MICARRAY_SUCCESS.
Proof.
  apply ConfigFacts.config_validate_accepts.
  unfold sample_config, default_config, config_set_defaults.
  cbn [snd set_dma_buffer_size set_num_microphones num_microphones mic_spacing
       dma_buffer_size sample_rate volume].
  unfold MAX_MICROPHONES, MAX_BUFFER_SIZE, DEFAULT_SAMPLE_RATE, lit.
  cbn [fdiv of_int R_float]. change (10 ^ Z.of_nat 1)%Z with 10%Z.
  repeat split; try lia; lra.
Qed.

Lemma validated_config_wires_witness :
  let cfg := sample_config in
  let ring := I2S.i2s_start (I2S.i2s_init (dma_buffer_size cfg)) in
  let denoiser := NoiseReduction.noise_reduction_init (noise_config_of cfg) in
  let localizer := localizer_of cfg [] [] in
  let sink := audio_config_of cfg in
  config_validate cfg = MICARRAY_SUCCESS /\
  I2S.ring_ok ring /\ I2S.ring_buffer_size ring = (4 * dma_buffer_size cfg)%Z /\
  ((0 <= NoiseReduction.overlap (NoiseReduction.config denoiser)
      < NoiseReduction.frame_size (NoiseReduction.config denoiser))%Z /\
   (NoiseReduction.frame_size (NoiseReduction.config denoiser) < 2 ^ 30)%Z /\
   (0 <= NoiseReduction.buffer_pos denoiser
      < NoiseReduction.frame_size (NoiseReduction.config denoiser))%Z) /\
  Localization.coplanar localizer /\
  length (Localization.mic_positions localizer) =
    Z.to_nat (Localization.num_microphones (Localization.config localizer)) /\
  flt (AudioOutput.volume sink) (of_int 0) = false /\
  fgt (AudioOutput.volume sink) (of_int 1) = false.
Proof.
  split; [exact sample_config_valid|].
  exact (validated_config_wires sample_config [] [] sample_config_valid).
Defined.

End MicArrayFacts.
